(** * AURORA inference pipeline

    A shallow embedding of [brainles_aurora/inferer/inferer.py] (the package
    that [segmentation_test.py] imports) and of the parts of the older module
    [brainles_aurora/inferer.py] that the specification also refers to.

    Python objects become records, attribute assignment becomes explicit
    state passing, and an exception becomes the [Raise] result of a small
    state-and-exception monad in which the state survives a raise, as the
    attributes of a Python object do.

    Conventions.
    - An n-dimensional array is its [shape] together with its elements in
      row-major order.
    - A float32 value is [NaN], an infinity, or a finite value; finite values
      are idealised as real numbers (no rounding, no overflow), with one
      exception: the result of the logistic function is compared with a
      threshold, so it is kept as the rounded value of the tensor library,
      of which only its distance from the exact value is assumed.
    - MONAI, nibabel and torch are external collaborators: what the pipeline
      asks of them is collected in the class [Externals]; [np.nan_to_num],
      [torch.flip], the elementwise arithmetic and the path functions of
      [os.path] and [pathlib] are written out. *)

From Stdlib Require Import String Ascii List ZArith Reals Lra Lia Bool Arith.
Import ListNotations.

Open Scope string_scope.
Open Scope list_scope.
Open Scope nat_scope.

Set Implicit Arguments.

(** ** Exceptions and results *)

Inductive Exn : Type :=
| FileNotFoundError (msg : string)
| FileExistsError (msg : string)
| IsADirectoryError (msg : string)
| ValueError (msg : string)
| AssertionError (msg : string)
| NotImplementedError (msg : string)
| AttributeError (name : string)
| NameError (name : string)
| KeyError (key : string)
| IndexError
| RuntimeError (msg : string)
| TypeError.

Inductive result (A : Type) : Type :=
| Ok (a : A)
| Raise (e : Exn).

Arguments Ok {A} a.
Arguments Raise {A} e.

Definition result_bind {A B} (r : result A) (k : A -> result B) : result B :=
  match r with
  | Ok a => k a
  | Raise e => Raise e
  end.

(** ** The state-and-exception monad

    [M S A] is a computation over a mutable state [S].  A raise keeps the
    state reached so far. *)

Definition M (S A : Type) : Type := S -> S * result A.

Definition ret {S A} (a : A) : M S A := fun s => (s, Ok a).

Definition raise {S A} (e : Exn) : M S A := fun s => (s, Raise e).

Definition bind {S A B} (c : M S A) (k : A -> M S B) : M S B :=
  fun s =>
    match c s with
    | (s', Ok a) => k a s'
    | (s', Raise e) => (s', Raise e)
    end.

Definition get {S} : M S S := fun s => (s, Ok s).

Definition modify {S} (f : S -> S) : M S unit := fun s => (f s, Ok tt).

Definition lift_result {S A} (r : result A) : M S A := fun s => (s, r).

Declare Scope py_scope.
Delimit Scope py_scope with py.

Notation "x <- c1 ;; c2" := (bind c1 (fun x => c2))
  (at level 61, c1 at next level, right associativity) : py_scope.
Notation "c1 ;; c2" := (bind c1 (fun _ => c2))
  (at level 61, right associativity) : py_scope.

Open Scope py_scope.

(** [for x in l: acc = body x acc] *)
Fixpoint for_each {S X Acc} (l : list X) (body : X -> Acc -> M S Acc)
  (acc : Acc) : M S Acc :=
  match l with
  | [] => ret acc
  | x :: l' => acc' <- body x acc ;; for_each l' body acc'
  end.

(** [[f(x) for x in l]] *)
Fixpoint map_M {S X Y} (f : X -> M S Y) (l : list X) : M S (list Y) :=
  match l with
  | [] => ret []
  | x :: l' => y <- f x ;; ys <- map_M f l' ;; ret (y :: ys)
  end.

(** ** Arrays *)

Record ndarray (A : Type) : Type := mk_ndarray {
  shape : list nat;
  data : list A
}.

Arguments mk_ndarray {A} shape data.

Definition size_of (sh : list nat) : nat := fold_right Nat.mul 1 sh.

Definition ndim {A} (a : ndarray A) : nat := length (shape a).

(** Well-formed arrays hold as many elements as their shape announces. *)
Definition nd_wf {A} (a : ndarray A) : Prop :=
  length (data a) = size_of (shape a).

Definition shape_eqb (s1 s2 : list nat) : bool :=
  if list_eq_dec Nat.eq_dec s1 s2 then true else false.

Definition nd_full {A} (sh : list nat) (v : A) : ndarray A :=
  mk_ndarray sh (repeat v (size_of sh)).

(** Elementwise unary operation. *)
Definition nd_map {A B} (f : A -> B) (a : ndarray A) : ndarray B :=
  mk_ndarray (shape a) (map f (data a)).

Fixpoint zip_with {A B C} (f : A -> B -> C) (l1 : list A) (l2 : list B)
  : list C :=
  match l1, l2 with
  | x :: l1', y :: l2' => f x y :: zip_with f l1' l2'
  | _, _ => []
  end.

(** Elementwise binary operation on arrays of one shape.  Broadcasting of
    unequal shapes is not modelled: unequal shapes raise. *)
Definition nd_zip_with {A B C} (f : A -> B -> C) (a : ndarray A)
  (b : ndarray B) : result (ndarray C) :=
  if shape_eqb (shape a) (shape b)
  then Ok (mk_ndarray (shape a) (zip_with f (data a) (data b)))
  else Raise (RuntimeError "shape mismatch").

(** [a[i]]: the i-th sub-array along the first axis. *)
Definition nd_getitem {A} (a : ndarray A) (i : nat) : result (ndarray A) :=
  match shape a with
  | [] => Raise IndexError
  | d :: sh =>
      if i <? d
      then Ok (mk_ndarray sh (firstn (size_of sh) (skipn (i * size_of sh) (data a))))
      else Raise IndexError
  end.

(** A new leading axis of length one. *)
Definition expand_dims0 {A} (a : ndarray A) : ndarray A :=
  mk_ndarray (1 :: shape a) (data a).

(** [np.stack(l, axis=0)] *)
Definition np_stack {A} (l : list (ndarray A)) : result (ndarray A) :=
  match l with
  | [] => Raise (ValueError "need at least one array to stack")
  | a :: _ =>
      if forallb (fun b => shape_eqb (shape a) (shape b)) l
      then Ok (mk_ndarray (length l :: shape a) (concat (map (@data A) l)))
      else Raise (ValueError "all input arrays must have the same shape")
  end.

(** [k] consecutive chunks of [sz] elements. *)
Fixpoint chunks {A} (sz k : nat) (l : list A) : list (list A) :=
  match k with
  | O => []
  | S k' => firstn sz l :: chunks sz k' (skipn sz l)
  end.

(** Reverse the order of the elements along [axis] of a row-major buffer of
    shape [sh]. *)
Fixpoint flip_data {A} (sh : list nat) (axis : nat) (l : list A) : list A :=
  match sh with
  | [] => l
  | d :: sh' =>
      let cs := chunks (size_of sh') d l in
      match axis with
      | O => concat (rev cs)
      | S k => concat (map (flip_data sh' k) cs)
      end
  end.

Definition flip_axis {A} (axis : nat) (a : ndarray A) : ndarray A :=
  mk_ndarray (shape a) (flip_data (shape a) axis (data a)).

(** [torch.flip(a, dims=dims)]; an axis beyond the rank raises. *)
Fixpoint torch_flip {A} (a : ndarray A) (dims : list nat)
  : result (ndarray A) :=
  match dims with
  | [] => Ok a
  | ax :: dims' =>
      if ax <? ndim a then torch_flip (flip_axis ax a) dims'
      else Raise IndexError
  end.

(** [target[mask] = v] for a boolean mask of the shape of [target]. *)
Definition setitem_mask {A} (target : ndarray A) (mask : ndarray bool)
  (v : A) : result (ndarray A) :=
  if shape_eqb (shape target) (shape mask)
  then Ok (mk_ndarray (shape target)
             (zip_with (fun (m : bool) (old : A) => if m then v else old)
                (data mask) (data target)))
  else Raise IndexError.

(** ** Floating-point values *)

Inductive float : Type :=
| NaN
| PInf
| NInf
| Fin (r : R).

Open Scope R_scope.

(** The largest finite float32, [(2 - 2^-23) * 2^127]. *)
Definition FLT_MAX : R := (2 - / 2 ^ 23) * 2 ^ 127.

(** [np.nan_to_num] with its default arguments [nan=0.0], [posinf=None],
    [neginf=None]: NaN becomes zero, an infinity becomes the finite value of
    largest magnitude and the same sign. *)
Definition nan_to_num (x : float) : float :=
  match x with
  | NaN => Fin 0
  | PInf => Fin FLT_MAX
  | NInf => Fin (- FLT_MAX)
  | Fin r => Fin r
  end.

Definition is_finite (x : float) : bool :=
  match x with
  | Fin _ => true
  | _ => false
  end.

Definition fadd (x y : float) : float :=
  match x, y with
  | NaN, _ | _, NaN => NaN
  | PInf, NInf | NInf, PInf => NaN
  | PInf, _ | _, PInf => PInf
  | NInf, _ | _, NInf => NInf
  | Fin a, Fin b => Fin (a + b)
  end.

Definition Rltb (a b : R) : bool := if Rlt_dec a b then true else false.
Definition Rleb (a b : R) : bool := if Rle_dec a b then true else false.
Definition Reqb (a b : R) : bool := if Req_dec_T a b then true else false.

Definition fneg (x : float) : float :=
  match x with
  | NaN => NaN
  | PInf => NInf
  | NInf => PInf
  | Fin r => Fin (- r)
  end.

(** Division; signed zeros are not distinguished, a zero divisor counts as
    positive zero. *)
Definition fdiv (x y : float) : float :=
  match x, y with
  | NaN, _ | _, NaN => NaN
  | (PInf | NInf), (PInf | NInf) => NaN
  | Fin _, (PInf | NInf) => Fin 0
  | (PInf | NInf), Fin b => if Rltb b 0 then fneg x else x
  | Fin a, Fin b =>
      if Reqb b 0
      then (if Reqb a 0 then NaN else if Rltb a 0 then NInf else PInf)
      else Fin (a / b)
  end.

(** [x >= y]; every comparison with NaN is false. *)
Definition fge (x y : float) : bool :=
  match x, y with
  | NaN, _ | _, NaN => false
  | PInf, _ => true
  | _, NInf => true
  | NInf, _ => false
  | Fin _, PInf => false
  | Fin a, Fin b => Rleb b a
  end.

(** The logistic function [1 / (1 + exp(-x))] on the reals. *)
Definition logistic (r : R) : R := 1 / (1 + exp (- r)).

(** The distance that the float32 logistic function of the tensor library
    may have from the exact one: 8 units in the last place at [1/2]. *)
Definition sigmoid_tolerance : R := / 2 ^ 20.

(** An input of at least this magnitude is far enough from zero for the
    sign of [sigmoid x - 1/2] to be that of [x] whatever the rounding. *)
Definition sigmoid_margin : R := / 2 ^ 17.

Close Scope R_scope.

(** ** Paths: [os.path] and [pathlib] on POSIX path strings *)

Definition string_rev (s : string) : string :=
  string_of_list_ascii (rev (list_ascii_of_string s)).

(** [s.endswith(suffix)] *)
Definition endswith (s suffix : string) : bool :=
  prefix (string_rev suffix) (string_rev s).

Definition startswith (s pre : string) : bool := prefix pre s.

(** Split at the last occurrence of [c]: the part up to and including it,
    and the rest.  The first part is empty when [c] does not occur. *)
Fixpoint rsplit_char (c : ascii) (s : string) : string * string :=
  match s with
  | EmptyString => (EmptyString, EmptyString)
  | String a r =>
      let (h, t) := rsplit_char c r in
      if Ascii.eqb a c then (String a h, t)
      else if String.eqb h EmptyString then (EmptyString, String a t)
      else (String a h, t)
  end.

(** [s.rstrip("/")] *)
Fixpoint rstrip_slash (s : string) : string :=
  match s with
  | EmptyString => EmptyString
  | String a r =>
      let r' := rstrip_slash r in
      if Ascii.eqb a "/"%char && String.eqb r' EmptyString
      then EmptyString
      else String a r'
  end.

(** [os.path.dirname(p)]: the head up to the last slash, without its
    trailing slashes unless it consists of slashes only. *)
Definition os_path_dirname (p : string) : string :=
  let head := fst (rsplit_char "/"%char p) in
  if String.eqb (rstrip_slash head) EmptyString then head
  else rstrip_slash head.

(** [os.path.join(a, b)] *)
Definition os_path_join (a b : string) : string :=
  if startswith b "/" then b
  else if String.eqb a EmptyString || endswith a "/" then String.append a b
  else String.append a (String.append "/" b).

(** [str(Path(p).with_suffix(suffix))]; the path is taken as already
    normalised.  A path without a final component has an empty name. *)
Definition Path_with_suffix (p suffix : string) : result string :=
  let (head, name) := rsplit_char "/"%char p in
  if String.eqb name EmptyString || String.eqb name "." then
    Raise (ValueError "path has an empty name")
  else
    let (h, t) := rsplit_char "."%char name in
    let stem :=
      if (2 <=? String.length h) && negb (String.eqb t EmptyString)
      then substring 0 (String.length h - 1) h
      else name in
    Ok (String.append head (String.append stem suffix)).

(** Python truthiness of [str | None]. *)
Definition truthy (o : option string) : bool :=
  match o with
  | Some s => negb (String.eqb s EmptyString)
  | None => false
  end.

(** ** Constants and configuration *)

(** Modelled from the spec: the enumerations of [inferer/constants.py],
    which is not under src/; their members are the ones [inferer.py] names. *)
Inductive DataMode : Type := NIFTI_FILE | NUMPY.

Inductive Output : Type := SEGMENTATION | WHOLE_NETWORK | METASTASIS_NETWORK.

(** An inference mode is a string enumeration member: it is used as a
    directory name below the weights folder. *)
Definition InferenceMode : Type := string.

Inductive LogLevel : Type := DEBUG | INFO | WARNING | ERROR.

Inductive Device : Type := CPU | CUDA.

Definition DataMode_eqb (a b : DataMode) : bool :=
  match a, b with
  | NIFTI_FILE, NIFTI_FILE | NUMPY, NUMPY => true
  | _, _ => false
  end.

Definition Output_eqb (a b : Output) : bool :=
  match a, b with
  | SEGMENTATION, SEGMENTATION
  | WHOLE_NETWORK, WHOLE_NETWORK
  | METASTASIS_NETWORK, METASTASIS_NETWORK => true
  | _, _ => false
  end.

Definition Output_name (k : Output) : string :=
  match k with
  | SEGMENTATION => "segmentation"
  | WHOLE_NETWORK => "whole_network"
  | METASTASIS_NETWORK => "metastasis_network"
  end.

Definition Device_repr (d : Device) : string :=
  match d with
  | CPU => "cpu"
  | CUDA => "cuda"
  end.

(** Modelled from the spec: the dataclass [AuroraInfererConfig] of
    [inferer/dataclasses.py], which is not under src/; its fields are the
    options of section 6 of the specification under the names by which
    [inferer.py] reads them. *)
Record AuroraInfererConfig : Type := {
  log_level : LogLevel;
  tta : bool;
  sliding_window_batch_size : nat;
  workers : nat;
  threshold : float;
  sliding_window_overlap : float;
  crop_size : nat * nat * nat;
  model_selection : string;
  output_mode : DataMode;
  include_whole_network_in_numpy_output_mode : bool;
  include_metastasis_network_in_numpy_output_mode : bool
}.

(** ** Volumes, files and the world outside the inferer *)

(** The trained network, as the function from a batch of patches to the
    raw per-class outputs. *)
Definition Model : Type := ndarray float -> ndarray float.

(** The header of a NIfTI file is an uninterpreted blob. *)
Definition Header : Type := string.

Inductive VolData : Type :=
| Float32 (a : ndarray float)
| UInt8 (a : ndarray Z).

Record NiftiImage : Type := {
  dataobj : VolData;
  affine : ndarray float;
  header : option Header
}.

(** What [torch.load] finds in a weights archive: the input channel count
    the parameters were trained for, whether the parameter names carry the
    [module.] prefix of [DataParallel], and the function they determine. *)
Record Checkpoint : Type := {
  ck_in_channels : nat;
  ck_module_prefix : bool;
  ck_network : Model
}.

Inductive FileContent : Type :=
| NiftiFile (img : NiftiImage)
| CheckpointFile (ck : Checkpoint)
| Directory
| PlainFile.

(** The state of the entropy source that seeds [RandGaussianNoised]. *)
Definition Rng : Type := N.

(** The file system (latest binding first), the log as the sequence of
    logging calls in order, the entropy source, and two traces kept for
    reasoning: the volumes handed to the sliding-window inferer and the
    archives handed to [torch.load]. *)
Record World : Type := {
  files : list (string * FileContent);
  cuda_available : bool;
  rng : Rng;
  log_records : list (LogLevel * string);
  sw_calls : list (ndarray float);
  torch_loads : list string
}.

Fixpoint lookup_file (fs : list (string * FileContent)) (p : string)
  : option FileContent :=
  match fs with
  | [] => None
  | (q, c) :: fs' => if String.eqb q p then Some c else lookup_file fs' p
  end.

Definition with_files (w : World) (fs : list (string * FileContent)) : World :=
  {| files := fs; cuda_available := cuda_available w; rng := rng w;
     log_records := log_records w; sw_calls := sw_calls w;
     torch_loads := torch_loads w |}.

Definition with_rng (w : World) (g : Rng) : World :=
  {| files := files w; cuda_available := cuda_available w; rng := g;
     log_records := log_records w; sw_calls := sw_calls w;
     torch_loads := torch_loads w |}.

Definition with_log_records (w : World) (l : list (LogLevel * string)) : World :=
  {| files := files w; cuda_available := cuda_available w; rng := rng w;
     log_records := l; sw_calls := sw_calls w;
     torch_loads := torch_loads w |}.

Definition with_sw_calls (w : World) (l : list (ndarray float)) : World :=
  {| files := files w; cuda_available := cuda_available w; rng := rng w;
     log_records := log_records w; sw_calls := l;
     torch_loads := torch_loads w |}.

Definition with_torch_loads (w : World) (l : list string) : World :=
  {| files := files w; cuda_available := cuda_available w; rng := rng w;
     log_records := log_records w; sw_calls := sw_calls w;
     torch_loads := l |}.

(** ** Inputs and the loader *)

Inductive Image : Type :=
| File (path : string)
| Arr (a : ndarray float).

(** [type(img)] of a validated image. *)
Definition type_of (img : Image) : DataMode :=
  match img with
  | File _ => NIFTI_FILE
  | Arr _ => NUMPY
  end.

(** The value under the key ["images"] while the transforms run: the list
    the dataset was built from, or an array. *)
Inductive Item : Type :=
| Images (l : list Image)
| Array (a : ndarray float).

Inductive Transform : Type :=
| LoadImageD
| EnsureChannelFirstd
| Lambdad_nan_to_num
| ScaleIntensityRangePercentilesd
| ToTensord.

Record DataLoader : Type := {
  transforms : list Transform;
  dataset : list Image;
  num_workers : nat
}.

Record SlidingWindowInferer : Type := {
  roi_size : nat * nat * nat;
  sw_batch_size : nat;
  sw_device : Device;
  overlap : float;
  mode : string;
  padding_mode : string
}.

(** The external collaborators.  [IMGS_TO_MODE_DICT] is the lookup table of
    [inferer/constants.py] and [turbo_path] the path helper of
    [brainles_aurora/aux.py], neither under src/; the others are MONAI's.
    [LoadImage] receives the images read from the listed files;
    [ScaleIntensityRangePercentiles] is the rescaling with the fixed
    arguments of [_get_data_loader]; [RandGaussianNoise] is the noise
    transform with [prob=1.0] and [std=0.001]. *)
Class Externals : Type := {
  IMGS_TO_MODE_DICT : bool * bool * bool * bool -> option InferenceMode;
  turbo_path : string -> string;
  LoadImage : list NiftiImage -> result (ndarray float);
  EnsureChannelFirst : Item -> result Item;
  ScaleIntensityRangePercentiles : ndarray float -> ndarray float;
  RandGaussianNoise : Rng -> ndarray float -> ndarray float * Rng;
  sliding_window_inference :
    SlidingWindowInferer -> ndarray float -> Model -> ndarray float;
  (* [torch.Tensor.sigmoid] on a finite float32 element.  Its result is a
     rounded one: for a tiny negative input it is exactly one half.  All
     that is assumed of it is that it is close to the exact logistic
     function. *)
  torch_sigmoid : R -> R;
  torch_sigmoid_accurate :
    forall r : R,
      (Rabs (torch_sigmoid r - logistic r) <= sigmoid_tolerance)%R
}.

(** [Tensor.sigmoid()] elementwise. *)
Definition sigmoid {E : Externals} (x : float) : float :=
  match x with
  | NaN => NaN
  | PInf => Fin 1%R
  | NInf => Fin 0%R
  | Fin r => Fin (torch_sigmoid r)
  end.

(** ** The inferer object *)

(** The result of post-processing: a dict in insertion order. *)
Definition PostProc : Type := list (Output * ndarray Z).

Definition OutputFileMapping : Type := list (Output * option string).

(** The attributes of an [AuroraInferer] (or [AuroraGPUInferer], which
    differs in [device] only).  An attribute that [__init__] does not
    assign is [None] until its first assignment; reading it before raises
    [AttributeError]. *)
Record Inferer : Type := {
  config : AuroraInfererConfig;
  device : Device;
  model_weights_folder : string;
  file_handler_stream : option string;
  input_mode : option DataMode;
  validated_images : option (list (option Image));
  inference_mode : option InferenceMode;
  model : option Model;
  data_loader : option DataLoader;
  output_file_mapping : option OutputFileMapping
}.

(** The attributes right after [__init__]. *)
Definition new_inferer (cfg : AuroraInfererConfig) (dev : Device)
  (weights_folder : string) : Inferer :=
  {| config := cfg; device := dev; model_weights_folder := weights_folder;
     file_handler_stream := None; input_mode := None;
     validated_images := None; inference_mode := None; model := None;
     data_loader := None; output_file_mapping := None |}.

Definition set_file_handler_stream (v : option string) (o : Inferer) : Inferer :=
  {| config := config o; device := device o;
     model_weights_folder := model_weights_folder o;
     file_handler_stream := v; input_mode := input_mode o;
     validated_images := validated_images o;
     inference_mode := inference_mode o; model := model o;
     data_loader := data_loader o;
     output_file_mapping := output_file_mapping o |}.

Definition set_input_mode (v : option DataMode) (o : Inferer) : Inferer :=
  {| config := config o; device := device o;
     model_weights_folder := model_weights_folder o;
     file_handler_stream := file_handler_stream o; input_mode := v;
     validated_images := validated_images o;
     inference_mode := inference_mode o; model := model o;
     data_loader := data_loader o;
     output_file_mapping := output_file_mapping o |}.

Definition set_validated_images (v : option (list (option Image)))
  (o : Inferer) : Inferer :=
  {| config := config o; device := device o;
     model_weights_folder := model_weights_folder o;
     file_handler_stream := file_handler_stream o;
     input_mode := input_mode o; validated_images := v;
     inference_mode := inference_mode o; model := model o;
     data_loader := data_loader o;
     output_file_mapping := output_file_mapping o |}.

Definition set_inference_mode (v : option InferenceMode) (o : Inferer)
  : Inferer :=
  {| config := config o; device := device o;
     model_weights_folder := model_weights_folder o;
     file_handler_stream := file_handler_stream o;
     input_mode := input_mode o; validated_images := validated_images o;
     inference_mode := v; model := model o;
     data_loader := data_loader o;
     output_file_mapping := output_file_mapping o |}.

Definition set_model (v : option Model) (o : Inferer) : Inferer :=
  {| config := config o; device := device o;
     model_weights_folder := model_weights_folder o;
     file_handler_stream := file_handler_stream o;
     input_mode := input_mode o; validated_images := validated_images o;
     inference_mode := inference_mode o; model := v;
     data_loader := data_loader o;
     output_file_mapping := output_file_mapping o |}.

Definition set_data_loader (v : option DataLoader) (o : Inferer) : Inferer :=
  {| config := config o; device := device o;
     model_weights_folder := model_weights_folder o;
     file_handler_stream := file_handler_stream o;
     input_mode := input_mode o; validated_images := validated_images o;
     inference_mode := inference_mode o; model := model o;
     data_loader := v;
     output_file_mapping := output_file_mapping o |}.

Definition set_output_file_mapping (v : option OutputFileMapping)
  (o : Inferer) : Inferer :=
  {| config := config o; device := device o;
     model_weights_folder := model_weights_folder o;
     file_handler_stream := file_handler_stream o;
     input_mode := input_mode o; validated_images := validated_images o;
     inference_mode := inference_mode o; model := model o;
     data_loader := data_loader o;
     output_file_mapping := v |}.

(** A method runs on the object and the world. *)
Definition St : Type := Inferer * World.

Definition Py (A : Type) : Type := M St A.

(** [self.attr] of an attribute that is always assigned. *)
Definition self_get {A} (f : Inferer -> A) : Py A :=
  fun s => (s, Ok (f (fst s))).

(** [self.attr] of an attribute that may not be assigned yet. *)
Definition getattr {A} (name : string) (f : Inferer -> option A) : Py A :=
  fun s =>
    match f (fst s) with
    | Some v => (s, Ok v)
    | None => (s, Raise (AttributeError name))
    end.

(** [self.attr = v] *)
Definition setattr (upd : Inferer -> Inferer) : Py unit :=
  modify (fun s : St => (upd (fst s), snd s)).

Definition world_get {A} (f : World -> A) : Py A :=
  fun s => (s, Ok (f (snd s))).

Definition world_modify (upd : World -> World) : Py unit :=
  modify (fun s : St => (fst s, upd (snd s))).

(** ** The file system and the libraries that touch it *)

Definition os_path_exists (p : string) : Py bool :=
  world_get (fun w => match lookup_file (files w) p with
                      | Some _ => true
                      | None => false
                      end).

(** [os.makedirs(name, exist_ok=True)]: the empty name raises
    [FileNotFoundError]; an existing directory is accepted. *)
Definition os_makedirs (name : string) : Py unit :=
  if String.eqb name EmptyString then
    raise (FileNotFoundError "[Errno 2] No such file or directory: ''")
  else
    c <- world_get (fun w => lookup_file (files w) name) ;;
    match c with
    | Some Directory => ret tt
    | Some _ => raise (FileExistsError name)
    | None => world_modify (fun w => with_files w ((name, Directory) :: files w))
    end.

(** [logging.FileHandler(filename)] opens the file for appending. *)
Definition logging_FileHandler (filename : string) : Py string :=
  c <- world_get (fun w => lookup_file (files w) filename) ;;
  match c with
  | Some Directory => raise (IsADirectoryError filename)
  | Some _ => ret filename
  | None =>
      world_modify (fun w => with_files w ((filename, PlainFile) :: files w)) ;;
      ret filename
  end.

(** [nib.load(path)] *)
Definition nib_load (path : string) : Py NiftiImage :=
  c <- world_get (fun w => lookup_file (files w) path) ;;
  match c with
  | Some (NiftiFile img) => ret img
  | Some _ => raise (ValueError "cannot work out file type")
  | None => raise (FileNotFoundError path)
  end.

(** [nib.save(img, path)] *)
Definition nib_save (img : NiftiImage) (path : string) : Py unit :=
  c <- world_get (fun w => lookup_file (files w) path) ;;
  match c with
  | Some Directory => raise (IsADirectoryError path)
  | _ => world_modify (fun w => with_files w ((path, NiftiFile img) :: files w))
  end.

(** [torch.load(path)] *)
Definition torch_load (path : string) : Py Checkpoint :=
  world_modify (fun w => with_torch_loads w (torch_loads w ++ [path])) ;;
  c <- world_get (fun w => lookup_file (files w) path) ;;
  match c with
  | Some (CheckpointFile ck) => ret ck
  | Some _ => raise (RuntimeError "invalid archive")
  | None => raise (FileNotFoundError path)
  end.

(** [self.log.info(msg)] and the like: the call is recorded with its level.
    What the handlers print is [visible_records]. *)
Definition log (lvl : LogLevel) (msg : string) : Py unit :=
  world_modify (fun w => with_log_records w (log_records w ++ [(lvl, msg)])).

Definition LogLevel_rank (l : LogLevel) : nat :=
  match l with
  | DEBUG => 10
  | INFO => 20
  | WARNING => 30
  | ERROR => 40
  end.

(** The records that pass [logger.setLevel(self.config.log_level)]. *)
Definition visible_records (cfg : AuroraInfererConfig)
  (l : list (LogLevel * string)) : list (LogLevel * string) :=
  filter (fun r => LogLevel_rank (log_level cfg) <=? LogLevel_rank (fst r)) l.

(** [np.eye(4)] *)
Definition np_eye4 : ndarray float :=
  mk_ndarray [4; 4]
    [Fin 1; Fin 0; Fin 0; Fin 0;
     Fin 0; Fin 1; Fin 0; Fin 0;
     Fin 0; Fin 0; Fin 1; Fin 0;
     Fin 0; Fin 0; Fin 0; Fin 1].

(** [nib.Nifti1Image(data, affine, header)] *)
Definition Nifti1Image (d : ndarray Z) (aff : ndarray float)
  (hdr : option Header) : NiftiImage :=
  {| dataobj := UInt8 d; affine := aff; header := hdr |}.

Fixpoint dict_get {V} (eqb : Output -> Output -> bool)
  (d : list (Output * V)) (k : Output) : option V :=
  match d with
  | [] => None
  | (k', v) :: d' => if eqb k' k then Some v else dict_get eqb d' k
  end.

(** [d.pop(k)] on a dict that holds [k]; only the remaining dict is kept. *)
Definition dict_pop {V} (d : list (Output * V)) (k : Output)
  : result (list (Output * V)) :=
  match dict_get Output_eqb d k with
  | Some _ => Ok (filter (fun kv => negb (Output_eqb (fst kv) k)) d)
  | None => Raise (KeyError (Output_name k))
  end.

(** The members that are not [None], in order: [[x for x in l if x is not
    None]] and [list(filter(None, l))] on lists without falsy members. *)
Definition not_none {A} (l : list (option A)) : list A :=
  flat_map (fun o => match o with Some x => [x] | None => [] end) l.

(** ** The methods of [AuroraInferer] ([inferer/inferer.py]) *)

Module AuroraInferer.
Section Methods.

Context {E : Externals}.

(** [AbstractInferer._setup_logger].  A logger with a stream handler is
    made; with a log file, its directory is created, the file is opened and
    its stream is handed to the duplicating standard-error object.  Nothing
    here catches an exception. *)
Definition _setup_logger (log_file : option string) : Py unit :=
  match log_file with
  | Some f =>
      os_makedirs (os_path_dirname f) ;;
      stream <- logging_FileHandler f ;;
      setattr (set_file_handler_stream (Some stream)) ;;
      log INFO (String.append "Logging to: " f)
  | None => ret tt
  end.

(** The inner function [_validate_image] of [_validate_images]. *)
Definition _validate_image (data : option Image) : Py (option Image) :=
  match data with
  | None => ret None
  | Some (Arr a) =>
      setattr (set_input_mode (Some NUMPY)) ;;
      ret (Some (Arr a))
  | Some (File p) =>
      ex <- os_path_exists p ;;
      if negb ex then
        raise (FileNotFoundError (String.append "File " (String.append p " not found")))
      else if negb (endswith p ".nii.gz" || endswith p ".nii") then
        raise (ValueError (String.append "File " (String.append p
                 " must be a nifti file with extension .nii or .nii.gz")))
      else
        setattr (set_input_mode (Some NIFTI_FILE)) ;;
        ret (Some (File (turbo_path p)))
  end.

(** [len(set(map(type, l)))] over the two types an image can have. *)
Definition count_unique_types (l : list Image) : nat :=
  (if existsb (fun i => DataMode_eqb (type_of i) NIFTI_FILE) l then 1 else 0)
  + (if existsb (fun i => DataMode_eqb (type_of i) NUMPY) l then 1 else 0).

Definition _validate_images (t1 t1c t2 fla : option Image)
  : Py (list (option Image)) :=
  images <- map_M _validate_image [t1; t1c; t2; fla] ;;
  let not_none_images := not_none images in
  if negb (0 <? length not_none_images) then
    raise (AssertionError "No input images provided")
  else if negb (count_unique_types not_none_images =? 1) then
    raise (AssertionError "All passed images must be of the same type!")
  else
    log INFO "Successfully validated input images." ;;
    ret images.

Definition is_not_none {A} (o : option A) : bool :=
  match o with
  | Some _ => true
  | None => false
  end.

Definition _determine_inference_mode (images : list (option Image))
  : Py InferenceMode :=
  match map is_not_none images with
  | [_t1; _t1c; _t2; _fla] =>
      log INFO "Received files: T1, T1C, T2, FLAIR" ;;
      match IMGS_TO_MODE_DICT (_t1, _t1c, _t2, _fla) with
      | None =>
          raise (NotImplementedError
                   "No model implemented for this combination of images")
      | Some mode =>
          log INFO (String.append "Inference mode: " mode) ;;
          ret mode
      end
  | _ => raise (ValueError "not enough values to unpack")
  end.

Definition _get_not_none_files : Py (list Image) :=
  imgs <- self_get validated_images ;;
  match imgs with
  | None => raise (AssertionError "Images not validated yet")
  | Some l => ret (not_none l)
  end.

Definition _get_data_loader : Py DataLoader :=
  im <- getattr "input_mode" input_mode ;;
  files1 <- _get_not_none_files ;;
  let transforms :=
    [ if DataMode_eqb im NIFTI_FILE then Some LoadImageD else None;
      if length files1 =? 1 then Some EnsureChannelFirstd else None;
      Some Lambdad_nan_to_num;
      Some ScaleIntensityRangePercentilesd;
      Some ToTensord ] in
  let transforms := not_none transforms in
  images <- _get_not_none_files ;;
  cfg <- self_get config ;;
  ret {| transforms := transforms; dataset := images;
         num_workers := workers cfg |}.

(** [model.load_state_dict(state)]: the parameter names and shapes must be
    the ones the network expects. *)
Definition load_state_dict (in_channels : nat) (wrapped : bool)
  (state_prefix : bool) (ck : Checkpoint) : result Model :=
  if (ck_in_channels ck =? in_channels) && Bool.eqb wrapped state_prefix
  then Ok (ck_network ck)
  else Raise (RuntimeError "Error(s) in loading state_dict").

(** [os.path.join(self.model_weights_folder, self.inference_mode,
    f"{self.config.model_selection}.tar")] *)
Definition weights_path_of (folder : string) (imode : InferenceMode)
  (cfg : AuroraInfererConfig) : string :=
  os_path_join (os_path_join folder imode)
    (String.append (model_selection cfg) ".tar").

Definition _get_model : Py Model :=
  files1 <- _get_not_none_files ;;
  let in_channels := length files1 in
  folder <- self_get model_weights_folder ;;
  imode_opt <- self_get inference_mode ;;
  cfg <- self_get config ;;
  imode <- match imode_opt with
           | Some m => ret m
           | None => raise TypeError
           end ;;
  let weights_path := weights_path_of folder imode cfg in
  ex <- os_path_exists weights_path ;;
  if negb ex then
    (* the message of the NotImplementedError reads [self.mode], an
       attribute that no method assigns *)
    raise (AttributeError "mode")
  else
    dev <- self_get device ;;
    checkpoint <- torch_load weights_path ;;
    match dev with
    | CPU =>
        (* a [module.] prefix is removed from the parameter names *)
        lift_result (load_state_dict in_channels false false checkpoint)
    | CUDA =>
        (* the network is wrapped in [DataParallel] *)
        lift_result (load_state_dict in_channels true
                       (ck_module_prefix checkpoint) checkpoint)
    end.

(** [inferer(x, self.model)] *)
Definition call_inferer (inferer : SlidingWindowInferer) (x : ndarray float)
  : Py (ndarray float) :=
  m <- getattr "model" model ;;
  world_modify (fun w => with_sw_calls w (sw_calls w ++ [x])) ;;
  ret (sliding_window_inference inferer x m).

(** [RandGaussianNoised(keys="images", prob=1.0, std=0.001)(data)["images"]] *)
Definition RandGaussianNoised (images : ndarray float) : Py (ndarray float) :=
  g <- world_get rng ;;
  let (noisy, g') := RandGaussianNoise g images in
  world_modify (fun w => with_rng w g') ;;
  ret noisy.

(** The body of the inner loop [for dims in [[2], [3]]] of
    [_apply_test_time_augmentations], on the accumulator [(outputs, n)]. *)
Definition tta_flip_pass (inferer : SlidingWindowInferer)
  (_img : ndarray float) (dims : list nat) (acc : ndarray float * float)
  : Py (ndarray float * float) :=
  let '(outputs, n) := acc in
  flipped <- lift_result (torch_flip _img dims) ;;
  flip_pred <- call_inferer inferer flipped ;;
  output <- lift_result (torch_flip flip_pred dims) ;;
  outputs <- lift_result (nd_zip_with fadd outputs output) ;;
  let n := fadd n (Fin 1) in
  ret (outputs, n).

(** The body of the outer loop [for _ in range(4)]. *)
Definition tta_round (inferer : SlidingWindowInferer)
  (images : ndarray float) (acc : ndarray float * float)
  : Py (ndarray float * float) :=
  let '(outputs, n) := acc in
  _img <- RandGaussianNoised images ;;
  output <- call_inferer inferer _img ;;
  outputs <- lift_result (nd_zip_with fadd outputs output) ;;
  let n := fadd n (Fin 1) in
  for_each [[2]; [3]] (tta_flip_pass inferer _img) (outputs, n).

Definition _apply_test_time_augmentations (outputs : ndarray float)
  (images : ndarray float) (inferer : SlidingWindowInferer)
  : Py (ndarray float) :=
  let n := Fin 1 in
  acc <- for_each (seq 0 4) (fun _ => tta_round inferer images) (outputs, n) ;;
  let '(outputs, n) := acc in
  ret (nd_map (fun v => fdiv v n) outputs).

(** The affine and the header for the outputs (lines 361 to 369): those of
    the first image that is not [None] when the inputs were files, the
    identity and no header otherwise. *)
Definition reference_geometry : Py (ndarray float * option Header) :=
  im <- getattr "input_mode" input_mode ;;
  if DataMode_eqb im NIFTI_FILE then
    files1 <- _get_not_none_files ;;
    match files1 with
    | [] => raise IndexError
    | File reference_file :: _ =>
        ref <- nib_load reference_file ;;
        ret (affine ref, header ref)
    | Arr _ :: _ => raise TypeError
    end
  else
    log WARNING "Writing NIFTI output after NumPy input, using default affine=np.eye(4) and header=None" ;;
    ret (np_eye4, None).

(** The body of the loop over the post-processed volumes (lines 372 to
    378). *)
Definition save_output (geometry : ndarray float * option Header)
  (item : Output * ndarray Z) : Py unit :=
  let '(affine, header) := geometry in
  let '(key, data) := item in
  mapping <- getattr "output_file_mapping" output_file_mapping ;;
  match dict_get Output_eqb mapping key with
  | None => raise (KeyError (Output_name key))
  | Some output_file =>
      if truthy output_file then
        match output_file with
        | Some f =>
            let output_image := Nifti1Image data affine header in
            os_makedirs (os_path_dirname f) ;;
            nib_save output_image f ;;
            log INFO (String.append "Saved " (String.append (Output_name key)
                        (String.append " to " f)))
        | None => ret tt
        end
      else ret tt
  end.

Definition _save_as_nifti (postproc_data : PostProc) : Py unit :=
  geometry <- reference_geometry ;;
  for_each postproc_data (fun item _ => save_output geometry item) tt.

(** The labels of the merged segmentation: the whole-lesion mask, with 1
    written where it is 1 and then 2 written where the enhancing mask is 1
    (lines 402 to 404). *)
Definition merge_masks (whole_metastasis enhancing_metastasis : ndarray Z)
  : result (ndarray Z) :=
  let final_seg := whole_metastasis in
  result_bind
    (setitem_mask final_seg (nd_map (Z.eqb 1) whole_metastasis) 1%Z)
    (fun final_seg =>
       setitem_mask final_seg (nd_map (Z.eqb 1) enhancing_metastasis) 2%Z).

(** [(x >= threshold).astype(np.uint8)] *)
Definition binarize (thr : float) (x : float) : Z :=
  if fge x thr then 1%Z else 0%Z.

Definition _post_process (self : Inferer)
  (onehot_model_outputs_CHWD : ndarray float) : result PostProc :=
  result_bind (nd_getitem onehot_model_outputs_CHWD 0) (fun first =>
  result_bind (if 4 <=? ndim first then Ok first else Raise IndexError)
    (fun first =>
  let activated_outputs := nd_map sigmoid first in
  let binarized_outputs :=
    nd_map (binarize (threshold (config self))) activated_outputs in
  result_bind (nd_getitem binarized_outputs 0) (fun whole_metastasis =>
  result_bind (nd_getitem binarized_outputs 1) (fun enhancing_metastasis =>
  result_bind (merge_masks whole_metastasis enhancing_metastasis)
    (fun final_seg =>
  result_bind (nd_getitem binarized_outputs 0) (fun whole_out =>
  result_bind (nd_getitem binarized_outputs 1) (fun enhancing_out =>
  Ok [ (SEGMENTATION, final_seg);
       (WHOLE_NETWORK, whole_out);
       (METASTASIS_NETWORK, enhancing_out) ]))))))).

(** One transform of the composed pipeline, applied to the value under
    ["images"]. *)
Definition apply_transform (t : Transform) (item : Item) : Py Item :=
  match t with
  | LoadImageD =>
      match item with
      | Images l =>
          imgs <- map_M (fun i => match i with
                                  | File p => nib_load p
                                  | Arr _ => raise TypeError
                                  end) l ;;
          a <- lift_result (LoadImage imgs) ;;
          ret (Array a)
      | Array _ => raise TypeError
      end
  | EnsureChannelFirstd => lift_result (EnsureChannelFirst item)
  | Lambdad_nan_to_num =>
      match item with
      | Array a => ret (Array (nd_map nan_to_num a))
      | Images l =>
          arrays <- map_M (fun i => match i with
                                    | Arr a => ret a
                                    | File _ => raise TypeError
                                    end) l ;;
          a <- lift_result (np_stack arrays) ;;
          ret (Array (nd_map nan_to_num a))
      end
  | ScaleIntensityRangePercentilesd =>
      match item with
      | Array a => ret (Array (ScaleIntensityRangePercentiles a))
      | Images _ => raise TypeError
      end
  | ToTensord => ret item
  end.

(** The single batch the loader yields: the transforms in order, then the
    collation that adds the batch axis. *)
Definition next_batch (dl : DataLoader) : Py (ndarray float) :=
  item <- for_each (transforms dl) apply_transform (Images (dataset dl)) ;;
  match item with
  | Array a => ret (expand_dims0 a)
  | Images _ => raise TypeError
  end.

(** [SlidingWindowInferer(roi_size=..., ..., mode="gaussian",
    padding_mode="replicate")] *)
Definition make_inferer (cfg : AuroraInfererConfig) (dev : Device)
  : SlidingWindowInferer :=
  {| roi_size := crop_size cfg;
     sw_batch_size := sliding_window_batch_size cfg;
     sw_device := dev;
     overlap := sliding_window_overlap cfg;
     mode := "gaussian";
     padding_mode := "replicate" |}.

(** The lines of [_sliding_window_inference] that produce the raw outputs
    of a batch: the pass on it and, with [tta], the augmentations. *)
Definition raw_outputs (cfg : AuroraInfererConfig)
  (inferer : SlidingWindowInferer) (images : ndarray float)
  : Py (ndarray float) :=
  let inputs := images in
  outputs <- call_inferer inferer inputs ;;
  if tta cfg then
    log INFO "Applying test time augmentations" ;;
    _apply_test_time_augmentations outputs images inferer
  else ret outputs.

(** What is done with the post-processed volumes: returned in array mode
    (without the masks that were not asked for), written in file mode. *)
Definition route_outputs (cfg : AuroraInfererConfig)
  (postprocessed_data : PostProc) : Py (option PostProc) :=
  if DataMode_eqb (output_mode cfg) NUMPY then
    postprocessed_data <-
      (if negb (include_whole_network_in_numpy_output_mode cfg)
       then lift_result (dict_pop postprocessed_data WHOLE_NETWORK)
       else ret postprocessed_data) ;;
    postprocessed_data <-
      (if negb (include_metastasis_network_in_numpy_output_mode cfg)
       then lift_result (dict_pop postprocessed_data METASTASIS_NETWORK)
       else ret postprocessed_data) ;;
    ret (Some postprocessed_data)
  else
    _save_as_nifti postprocessed_data ;;
    ret None.

Definition _sliding_window_inference : Py (option PostProc) :=
  cfg <- self_get config ;;
  dev <- self_get device ;;
  let inferer := make_inferer cfg dev in
  m <- getattr "model" model ;;
  setattr (set_model (Some m)) ;;
  dl <- getattr "data_loader" data_loader ;;
  images <- next_batch dl ;;
  outputs <- raw_outputs cfg inferer images ;;
  self <- self_get (fun o => o) ;;
  postprocessed_data <- lift_result (_post_process self outputs) ;;
  route_outputs cfg postprocessed_data.

Definition option_string_eqb (a b : option string) : bool :=
  match a, b with
  | Some x, Some y => String.eqb x y
  | None, None => true
  | _, _ => false
  end.

Definition infer (t1 t1c t2 fla : option Image)
  (segmentation_file whole_network_file metastasis_network_file
     : option string) : Py (option PostProc) :=
  log_path <-
    (if truthy segmentation_file then
       match segmentation_file with
       | Some f => lift_result (Path_with_suffix f ".log")
       | None => ret "."
       end
     else ret ".") ;;
  _setup_logger (Some log_path) ;;
  dev <- self_get device ;;
  log INFO (String.append "Running inference on " (Device_repr dev)) ;;
  prev_mode <- self_get inference_mode ;;
  images <- _validate_images t1 t1c t2 fla ;;
  setattr (set_validated_images (Some images)) ;;
  imode <- _determine_inference_mode images ;;
  setattr (set_inference_mode (Some imode)) ;;
  (if negb (option_string_eqb prev_mode (Some imode)) then
     log INFO "Loading Model and weights" ;;
     m <- _get_model ;;
     setattr (set_model (Some m))
   else
     log INFO (String.append "Same inference mode "
                 (String.append imode ". Reusing previouse model"))) ;;
  log INFO "Setting up Dataloader" ;;
  dl <- _get_data_loader ;;
  setattr (set_data_loader (Some dl)) ;;
  cfg <- self_get config ;;
  (if DataMode_eqb (output_mode cfg) NIFTI_FILE then
     (if negb (truthy segmentation_file) then
        log WARNING "No segmentation file name provided, using default"
      else ret tt) ;;
     let default_segmentation_path := "segmentation.nii.gz" in
     setattr (set_output_file_mapping (Some
       [ (SEGMENTATION,
          if truthy segmentation_file then segmentation_file
          else Some default_segmentation_path);
         (WHOLE_NETWORK, whole_network_file);
         (METASTASIS_NETWORK, metastasis_network_file) ]))
   else ret tt) ;;
  _sliding_window_inference.

End Methods.
End AuroraInferer.

(** ** Calls of [infer] *)

(** The arguments of one call of [infer]. *)
Record Call : Type := {
  call_t1 : option Image;
  call_t1c : option Image;
  call_t2 : option Image;
  call_fla : option Image;
  call_segmentation_file : option string;
  call_whole_network_file : option string;
  call_metastasis_network_file : option string
}.

Definition run_call {E : Externals} (c : Call) : Py (option PostProc) :=
  AuroraInferer.infer (call_t1 c) (call_t1c c) (call_t2 c) (call_fla c)
    (call_segmentation_file c) (call_whole_network_file c)
    (call_metastasis_network_file c).

(** The mode that the channel combination of a call resolves to. *)
Definition resolved_mode {E : Externals} (c : Call) : option InferenceMode :=
  IMGS_TO_MODE_DICT
    (AuroraInferer.is_not_none (call_t1 c),
     AuroraInferer.is_not_none (call_t1c c),
     AuroraInferer.is_not_none (call_t2 c),
     AuroraInferer.is_not_none (call_fla c)).

(** ** The older module [brainles_aurora/inferer.py]

    Only what the specification refers to: the choice of the reference
    file in [GPUInferer._infer] and [CPUInferer._infer], the transforms of
    [_get_data_loader], and the branch of [_get_model] for missing weights. *)

Module Legacy.

Record AuroraInferer : Type := {
  t1_file : option string;
  t1c_file : option string;
  t2_file : option string;
  fla_file : option string;
  mode : string;
  model_selection : string
}.

Fixpoint dict_lookup (d : list (string * string)) (k : string)
  : result string :=
  match d with
  | [] => Raise (KeyError k)
  | (k', v) :: d' => if String.eqb k' k then Ok v else dict_lookup d' k
  end.

(** The entries that [_get_data_loader] puts into the data dictionary
    besides ["images"]. *)
Definition data_dict (self : AuroraInferer) : list (string * string) :=
  match t1_file self with Some p => [("t1", p)] | None => [] end
  ++ match t1c_file self with Some p => [("t1c", p)] | None => [] end
  ++ match t2_file self with Some p => [("t2", p)] | None => [] end
  ++ match fla_file self with Some p => [("fla", p)] | None => [] end.

(** [try: r except: handler] with a bare [except]. *)
Definition try_except {A} (r : result A) (handler : result A) : result A :=
  match r with
  | Ok a => Ok a
  | Raise _ => handler
  end.

(** The nested [try] of [_infer]: ["t1c"], else ["fla"], else ["t1"]. *)
Definition reference_file (data : list (string * string)) : result string :=
  try_except (dict_lookup data "t1c")
    (try_except (dict_lookup data "fla")
       (dict_lookup data "t1")).

Definition _get_not_none_files (self : AuroraInferer) : list string :=
  not_none
    [t1_file self; t1c_file self; t2_file self; fla_file self].

(** The transforms of [_get_data_loader]; [single] tells whether the mode is
    one of the single-modality modes. *)
Definition transforms (single : bool) : list Transform :=
  let transforms :=
    [LoadImageD; Lambdad_nan_to_num; ScaleIntensityRangePercentilesd;
     ToTensord] in
  if single
  then firstn 1 transforms ++ [EnsureChannelFirstd] ++ skipn 1 transforms
  else transforms.

(** [_get_model], up to the loading of the weights; [MODEL_WEIGHTS_DIR] is a
    module constant.  The message of the exception for missing weights
    reads the names [mode] and [model_selection], which are not defined in
    the scope of the method. *)
Definition _get_model (MODEL_WEIGHTS_DIR : string) (self : AuroraInferer)
  : M World Checkpoint :=
  let weights :=
    os_path_join (os_path_join MODEL_WEIGHTS_DIR (mode self))
      (String.append (mode self)
         (String.append "_" (String.append (model_selection self) ".tar"))) in
  fun w =>
    match lookup_file (files w) weights with
    | None => (w, Raise (NameError "mode"))
    | Some (CheckpointFile ck) =>
        (with_torch_loads w (torch_loads w ++ [weights]), Ok ck)
    | Some _ =>
        (with_torch_loads w (torch_loads w ++ [weights]),
         Raise (RuntimeError "invalid archive"))
    end.

End Legacy.

(** ** The ensemble in the words of the specification

    Section 4.5: the pass on the unmodified volume, then four rounds; a
    round draws one noisy volume and contributes the pass on it and, for
    each of the axes 2 and 3, the pass on the noisy volume flipped along the
    axis, flipped back along the same axis.  The thirteen members are added
    with weight one and the sum is divided by thirteen. *)

Section EnsembleSpec.

Context {E : Externals}.

Variable inferer : SlidingWindowInferer.
Variable net : Model.

Definition spec_pass (x : ndarray float) : ndarray float :=
  sliding_window_inference inferer x net.

(** The three members of one round, and the volumes they were run on. *)
Definition spec_round_inputs (noisy : ndarray float) : list (ndarray float) :=
  [noisy; flip_axis 2 noisy; flip_axis 3 noisy].

Definition spec_round_members (noisy : ndarray float) : list (ndarray float) :=
  [spec_pass noisy;
   flip_axis 2 (spec_pass (flip_axis 2 noisy));
   flip_axis 3 (spec_pass (flip_axis 3 noisy))].

(** The noisy volumes of [k] rounds, each drawn afresh from the unmodified
    volume, and the state of the entropy source afterwards. *)
Fixpoint spec_noisy_volumes (k : nat) (g : Rng) (x : ndarray float)
  : list (ndarray float) * Rng :=
  match k with
  | O => ([], g)
  | S k' =>
      let (noisy, g') := RandGaussianNoise g x in
      let (rest, g'') := spec_noisy_volumes k' g' x in
      (noisy :: rest, g'')
  end.

Definition spec_members (g : Rng) (x : ndarray float) : list (ndarray float) :=
  spec_pass x
  :: flat_map spec_round_members (fst (spec_noisy_volumes 4 g x)).

Definition spec_inputs (g : Rng) (x : ndarray float) : list (ndarray float) :=
  x :: flat_map spec_round_inputs (fst (spec_noisy_volumes 4 g x)).

(** The sum of the members, each with weight one, from left to right. *)
Fixpoint spec_sum (acc : ndarray float) (l : list (ndarray float))
  : result (ndarray float) :=
  match l with
  | [] => Ok acc
  | m :: l' => result_bind (nd_zip_with fadd acc m) (fun acc' => spec_sum acc' l')
  end.

Definition spec_ensemble (g : Rng) (x : ndarray float)
  : result (ndarray float) :=
  match spec_members g x with
  | [] => Raise IndexError
  | first :: others =>
      result_bind (spec_sum first others)
        (fun total => Ok (nd_map (fun v => fdiv v (Fin 13)) total))
  end.

End EnsembleSpec.

(** ** A test double for the external collaborators

    The mock of the scenarios of section 8 of the specification: a
    forward pass that returns constant per-class values, run on a single
    window that covers the whole volume. *)

Module Mock.

(** A forward pass with constant outputs: one value for the whole-lesion
    class and one for the enhancing class, whatever the input. *)
Definition const_forward (whole enhancing : float) : Model :=
  fun x =>
    match shape x with
    | [b; _; h; w; d] =>
        mk_ndarray [b; 2; h; w; d]
          (concat (repeat (repeat whole (size_of [h; w; d])
                           ++ repeat enhancing (size_of [h; w; d])) b))
    | _ => x
    end.

(** An example of the lookup table from channel presence to mode. *)
Definition table (present : bool * bool * bool * bool)
  : option InferenceMode :=
  match present with
  | (true, true, true, true) => Some "t1-t1c-t2-fla"
  | (true, true, false, true) => Some "t1-t1c-fla"
  | (true, true, false, false) => Some "t1-t1c"
  | (false, true, false, true) => Some "t1c-fla"
  | (false, true, false, false) => Some "t1c-o"
  | (false, false, false, true) => Some "fla-o"
  | (true, false, false, false) => Some "t1-o"
  | _ => None
  end.

Definition to_float32 (v : VolData) : ndarray float :=
  match v with
  | Float32 a => a
  | UInt8 a => nd_map (fun z => Fin (IZR z)) a
  end.

Definition load_image (imgs : list NiftiImage) : result (ndarray float) :=
  match imgs with
  | [img] => Ok (to_float32 (dataobj img))
  | _ => np_stack (map (fun img => to_float32 (dataobj img)) imgs)
  end.

Definition ensure_channel_first (item : Item) : result Item :=
  match item with
  | Array a => Ok (Array (expand_dims0 a))
  | Images l => Ok (Images l)
  end.

(** Noise that is visible and depends on the state of the source. *)
Definition noise (g : Rng) (x : ndarray float) : ndarray float * Rng :=
  (nd_map (fun v => fadd v (Fin (IZR (Z.of_N g) / 1000))) x, N.succ g).

(** The exact logistic function is within the tolerance of itself. *)
Definition logistic_within_tolerance (r : R) :
  (Rabs (logistic r - logistic r) <= sigmoid_tolerance)%R.
Proof.
  unfold Rminus, sigmoid_tolerance. rewrite Rplus_opp_r, Rabs_R0.
  left. apply Rinv_0_lt_compat, pow_lt. lra.
Qed.

Definition externals : Externals :=
  {| IMGS_TO_MODE_DICT := table;
     turbo_path := fun p => p;
     LoadImage := load_image;
     EnsureChannelFirst := ensure_channel_first;
     ScaleIntensityRangePercentiles := fun a => a;
     RandGaussianNoise := noise;
     sliding_window_inference := fun _ x net => net x;
     torch_sigmoid := logistic;
     torch_sigmoid_accurate := logistic_within_tolerance |}.

Definition default_config : AuroraInfererConfig :=
  {| log_level := INFO;
     tta := true;
     sliding_window_batch_size := 1;
     workers := 0;
     threshold := Fin (1 / 2);
     sliding_window_overlap := Fin (1 / 2);
     crop_size := (192, 192, 32);
     model_selection := "best";
     output_mode := NIFTI_FILE;
     include_whole_network_in_numpy_output_mode := false;
     include_metastasis_network_in_numpy_output_mode := false |}.

Definition with_tta (cfg : AuroraInfererConfig) (b : bool)
  : AuroraInfererConfig :=
  {| log_level := log_level cfg;
     tta := b;
     sliding_window_batch_size := sliding_window_batch_size cfg;
     workers := workers cfg;
     threshold := threshold cfg;
     sliding_window_overlap := sliding_window_overlap cfg;
     crop_size := crop_size cfg;
     model_selection := model_selection cfg;
     output_mode := output_mode cfg;
     include_whole_network_in_numpy_output_mode :=
       include_whole_network_in_numpy_output_mode cfg;
     include_metastasis_network_in_numpy_output_mode :=
       include_metastasis_network_in_numpy_output_mode cfg |}.

Definition with_output_mode (cfg : AuroraInfererConfig) (m : DataMode)
  : AuroraInfererConfig :=
  {| log_level := log_level cfg;
     tta := tta cfg;
     sliding_window_batch_size := sliding_window_batch_size cfg;
     workers := workers cfg;
     threshold := threshold cfg;
     sliding_window_overlap := sliding_window_overlap cfg;
     crop_size := crop_size cfg;
     model_selection := model_selection cfg;
     output_mode := m;
     include_whole_network_in_numpy_output_mode :=
       include_whole_network_in_numpy_output_mode cfg;
     include_metastasis_network_in_numpy_output_mode :=
       include_metastasis_network_in_numpy_output_mode cfg |}.

(** A volume of two voxels. *)
Definition volume (a b : R) : ndarray float :=
  mk_ndarray [1; 1; 2] [Fin a; Fin b].

Definition checkpoint (channels : nat) (whole enhancing : R) : Checkpoint :=
  {| ck_in_channels := channels;
     ck_module_prefix := true;
     ck_network := const_forward (Fin whole) (Fin enhancing) |}.

Definition scan (a b : R) (hdr : Header) : NiftiImage :=
  {| dataobj := Float32 (volume a b);
     affine := nd_map (fun v => fadd v v) np_eye4;
     header := Some hdr |}.

(** A world with weights for two modes and four scans of one subject. *)
Definition world : World :=
  {| files :=
       [ ("/weights/t1-t1c-t2-fla/best.tar",
          CheckpointFile (checkpoint 4 (6 / 10) (3 / 10)));
         ("/weights/t1-o/best.tar",
          CheckpointFile (checkpoint 1 (6 / 10) (- (3 / 10))));
         ("/data/t1.nii.gz", NiftiFile (scan 1 2 "t1"));
         ("/data/t1c.nii.gz", NiftiFile (scan 3 4 "t1c"));
         ("/data/t2.nii.gz", NiftiFile (scan 5 6 "t2"));
         ("/data/fla.nii.gz", NiftiFile (scan 7 8 "fla")) ];
     cuda_available := false;
     rng := 0%N;
     log_records := [];
     sw_calls := [];
     torch_loads := [] |}.

Definition fresh (cfg : AuroraInfererConfig) : St :=
  (new_inferer cfg CPU "/weights", world).

(** The configurations of the scenarios: no test-time augmentation, file
    output or array output. *)
Definition file_config : AuroraInfererConfig := with_tta default_config false.

Definition array_config : AuroraInfererConfig :=
  with_output_mode (with_tta default_config false) NUMPY.

(** All four channels as files. *)
Definition files_call : Call :=
  {| call_t1 := Some (File "/data/t1.nii.gz");
     call_t1c := Some (File "/data/t1c.nii.gz");
     call_t2 := Some (File "/data/t2.nii.gz");
     call_fla := Some (File "/data/fla.nii.gz");
     call_segmentation_file := Some "out/seg.nii.gz";
     call_whole_network_file := None;
     call_metastasis_network_file := None |}.

(** All four channels as arrays. *)
Definition arrays_call : Call :=
  {| call_t1 := Some (Arr (volume 1 2));
     call_t1c := Some (Arr (volume 3 4));
     call_t2 := Some (Arr (volume 5 6));
     call_fla := Some (Arr (volume 7 8));
     call_segmentation_file := Some "out/seg.nii.gz";
     call_whole_network_file := None;
     call_metastasis_network_file := None |}.

(** T1 alone, as an array. *)
Definition t1_call : Call :=
  {| call_t1 := Some (Arr (volume 1 2));
     call_t1c := None;
     call_t2 := None;
     call_fla := None;
     call_segmentation_file := Some "out/t1/seg.nii.gz";
     call_whole_network_file := None;
     call_metastasis_network_file := None |}.

(** T1C alone: a mode of the table for which the world holds no weights. *)
Definition t1c_call : Call :=
  {| call_t1 := None;
     call_t1c := Some (Arr (volume 3 4));
     call_t2 := None;
     call_fla := None;
     call_segmentation_file := Some "out/t1c/seg.nii.gz";
     call_whole_network_file := None;
     call_metastasis_network_file := None |}.

(** The object after validation and resolution of [t1c_call]. *)
Definition resolved_t1c : St :=
  (set_inference_mode (Some "t1c-o")
     (set_validated_images (Some [None; Some (Arr (volume 3 4)); None; None])
        (set_input_mode (Some NUMPY) (new_inferer file_config CPU "/weights"))),
   world).

(** An object that holds the model of the four-channel mode. *)
Definition loaded : St :=
  (set_model (Some (const_forward (Fin (6 / 10)) (Fin (3 / 10))))
     (new_inferer default_config CPU "/weights"),
   world).

(** A batch of one channel and two voxels. *)
Definition batch : ndarray float :=
  mk_ndarray [1; 1; 1; 1; 2] [Fin 1; Fin 2].

(** The states between two calls on one inferer. *)
Definition after_first : St :=
  fst (@run_call externals t1_call (fresh file_config)).

Definition after_second : St :=
  fst (@run_call externals arrays_call after_first).

Definition after_third : St :=
  fst (@run_call externals arrays_call after_second).

(** The object after validation of [files_call], with the destination of
    the segmentation. *)
Definition validated_files : St :=
  (set_output_file_mapping (Some [(SEGMENTATION, Some "out/seg.nii.gz")])
     (set_validated_images
        (Some [Some (File "/data/t1.nii.gz"); Some (File "/data/t1c.nii.gz");
               Some (File "/data/t2.nii.gz"); Some (File "/data/fla.nii.gz")])
        (set_input_mode (Some NIFTI_FILE)
           (new_inferer file_config CPU "/weights"))),
   world).

(** A world that differs from [world] in the entropy source and the log. *)
Definition other_world : World :=
  with_log_records (with_rng world 7%N) [(INFO, "earlier")].

End Mock.

(** ** Predicates used in the statements *)

(** A mask holds zeros and ones only. *)
Definition is_binary (a : ndarray Z) : Prop :=
  Forall (fun v => v = 0%Z \/ v = 1%Z) (data a).

(** A segmentation holds the labels 0, 1 and 2 only. *)
Definition is_label (v : Z) : Prop := v = 0%Z \/ v = 1%Z \/ v = 2%Z.

(** ** Assertions about computations *)

(** [triple P c Q X]: started in a state of [P], the computation [c] ends
    in a state of [Q a] when it returns [a] and in a state of [X] when it
    raises. *)
Definition triple {S A} (P : S -> Prop) (c : M S A) (Q : A -> S -> Prop)
  (X : S -> Prop) : Prop :=
  forall s, P s ->
    match snd (c s) with
    | Ok a => Q a (fst (c s))
    | Raise _ => X (fst (c s))
    end.

(** [c] keeps the invariant [I], however it ends. *)
Definition keeps {S A} (I : S -> Prop) (c : M S A) : Prop :=
  triple I c (fun _ => I) I.

(** [c] cannot tell two states related by [R] apart: it ends the same way
    in both, in related states. *)
Definition agrees {S A} (R : S -> S -> Prop) (c : M S A) : Prop :=
  forall s1 s2, R s1 s2 ->
    snd (c s1) = snd (c s2) /\ R (fst (c s1)) (fst (c s2)).

(** The file system [fs] is [fs0] with entries added in front, each of
    which satisfies [Q]. *)
Definition grows_by (Q : string * FileContent -> Prop)
  (fs0 fs : list (string * FileContent)) : Prop :=
  exists added, fs = added ++ fs0 /\ Forall Q added.

(** An entry that is not a volume, or a volume with the given affine and
    header. *)
Definition written_with (aff : ndarray float) (hdr : option Header)
  (entry : string * FileContent) : Prop :=
  match snd entry with
  | NiftiFile img => affine img = aff /\ header img = hdr
  | _ => True
  end.

(** The file system after [_save_as_nifti]-like writing with the identity
    and without a header, the log extended, the configuration unchanged:
    the invariant of a call whose inputs are arrays, relative to the file
    system, the log and the configuration at its start. *)
Definition numpy_warning : LogLevel * string :=
  (WARNING, "Writing NIFTI output after NumPy input, using default affine=np.eye(4) and header=None").

Definition started (fs0 : list (string * FileContent))
  (log0 : list (LogLevel * string)) (cfg0 : AuroraInfererConfig) (s : St)
  : Prop :=
  grows_by (written_with np_eye4 None) fs0 (files (snd s)) /\
  (exists l, log_records (snd s) = log0 ++ l) /\
  config (fst s) = cfg0.

(** ... and the images were validated as arrays. *)
Definition validated_numpy (fs0 : list (string * FileContent))
  (log0 : list (LogLevel * string)) (cfg0 : AuroraInfererConfig) (s : St)
  : Prop :=
  started fs0 log0 cfg0 s /\ input_mode (fst s) = Some NUMPY.

(** ... and the warning about the default geometry was logged. *)
Definition warned (fs0 : list (string * FileContent))
  (log0 : list (LogLevel * string)) (cfg0 : AuroraInfererConfig) (s : St)
  : Prop :=
  validated_numpy fs0 log0 cfg0 s /\
  exists l, log_records (snd s) = log0 ++ l /\ In numpy_warning l.

(** An input that is an in-memory array, or absent. *)
Definition array_or_none (i : option Image) : Prop :=
  match i with
  | Some (File _) => False
  | _ => True
  end.

(** No constraint on the state. *)
Definition anything (s : St) : Prop := True.

(** The cache of the inferer: the mode of the last resolution, the model
    handle, and the archives handed to [torch.load] so far. *)
Definition cache (p : option InferenceMode) (x : option Model)
  (l : list string) (s : St) : Prop :=
  inference_mode (fst s) = p /\ model (fst s) = x /\ torch_loads (snd s) = l.

(** What a call that resolved the mode [imode] has done to a cache
    [(p, x, l)]: nothing but for the mode when [p] was [imode] already, one
    load otherwise. *)
Definition cache_after (p : option InferenceMode) (x : option Model)
  (l : list string) (imode : InferenceMode) (s : St) : Prop :=
  inference_mode (fst s) = Some imode /\
  ((p = Some imode /\ model (fst s) = x /\ torch_loads (snd s) = l) \/
   (p <> Some imode /\ exists path, torch_loads (snd s) = l ++ [path])).

(** An entry of the file system that is not a weights archive. *)
Definition not_an_archive (entry : string * FileContent) : Prop :=
  match snd entry with
  | CheckpointFile _ => False
  | _ => True
  end.

(** What the choice of an archive depends on: the weights folder and the
    configuration of the inferer, and the file system, which is [fs0] with
    entries added in front, none of them an archive. *)
Definition archives (folder : string) (cfg0 : AuroraInfererConfig)
  (fs0 : list (string * FileContent)) (s : St) : Prop :=
  model_weights_folder (fst s) = folder /\ config (fst s) = cfg0 /\
  grows_by not_an_archive fs0 (files (snd s)).

(** The network that the archive at [path] of the file system [fs] holds. *)
Definition archive_network (fs : list (string * FileContent)) (path : string)
  : option Model :=
  match lookup_file fs path with
  | Some (CheckpointFile ck) => Some (ck_network ck)
  | _ => None
  end.

(** What a call that resolved the mode [imode] has done to a cache
    [(p, x, l)] of an inferer with the weights folder [folder] and the
    configuration [cfg0], started with the file system [fs0]: nothing but
    for the mode when [p] was [imode] already; otherwise one load, of the
    archive of [imode], whose network is the model handle now. *)
Definition loaded_after (folder : string) (cfg0 : AuroraInfererConfig)
  (fs0 : list (string * FileContent)) (p : option InferenceMode)
  (x : option Model) (l : list string) (imode : InferenceMode) (s : St)
  : Prop :=
  inference_mode (fst s) = Some imode /\
  ((p = Some imode /\ model (fst s) = x /\ torch_loads (snd s) = l) \/
   (p <> Some imode /\
    torch_loads (snd s) =
      l ++ [AuroraInferer.weights_path_of folder imode cfg0] /\
    exists net,
      archive_network fs0 (AuroraInferer.weights_path_of folder imode cfg0)
        = Some net /\
      model (fst s) = Some net)).

(** The image [_validate_image] returns for an input that passes. *)
Definition validated {E : Externals} (d : option Image) : option Image :=
  match d with
  | Some (File p) => Some (File (turbo_path p))
  | other => other
  end.

(** Two states with one object and one file system, in which [tta] is off.
    The entropy source, the log and the traces are free to differ. *)
Definition same_inputs (s1 s2 : St) : Prop :=
  fst s1 = fst s2 /\ files (snd s1) = files (snd s2) /\
  tta (config (fst s1)) = false.

(** The first channel that is present, in the order T1, T1C, T2, FLAIR. *)
Definition first_present {A} (t1 t1c t2 fla : option A) : option A :=
  match t1, t1c, t2 with
  | Some i, _, _ => Some i
  | None, Some i, _ => Some i
  | None, None, Some i => Some i
  | None, None, None => fla
  end.

(** ** The class [DualStdErrOutput] ([inferer/inferer.py])

    Streams are objects that several holders may share: a stream is a
    handle, and the heap of streams records for each handle the text
    written to it in order, the number of flushes, and whether it is
    closed.  Writing to a closed stream, or flushing it, raises
    [ValueError]. *)

Module DualStdErrOutput.

Definition IO : Type := nat.

Record Streams : Type := {
  written : IO -> list string;
  flushes : IO -> nat;
  closed : IO -> bool
}.

Record t : Type := {
  stderr : IO;
  file_handler_stream : option IO
}.

Definition Dual (A : Type) : Type := M (t * Streams) A.

(** [stream.write(text)] *)
Definition stream_write (h : IO) (text : string) : Dual unit :=
  fun s =>
    let io := snd s in
    if closed io h then
      (s, Raise (ValueError "I/O operation on closed file."))
    else
      ((fst s,
        {| written := fun k => if k =? h then written io k ++ [text]
                               else written io k;
           flushes := flushes io;
           closed := closed io |}),
       Ok tt).

(** [stream.flush()] *)
Definition stream_flush (h : IO) : Dual unit :=
  fun s =>
    let io := snd s in
    if closed io h then
      (s, Raise (ValueError "I/O operation on closed file."))
    else
      ((fst s,
        {| written := written io;
           flushes := fun k => if k =? h then S (flushes io k)
                               else flushes io k;
           closed := closed io |}),
       Ok tt).

Definition __init__ (stderr : IO) (file_handler_stream : option IO) : t :=
  {| stderr := stderr; file_handler_stream := file_handler_stream |}.

Definition set_file_handler_stream (file_handler_stream : option IO)
  : Dual unit :=
  modify (fun s : t * Streams =>
            ({| stderr := stderr (fst s);
                file_handler_stream := file_handler_stream |}, snd s)).

Definition write (text : string) : Dual unit :=
  self <- get ;;
  stream_write (stderr (fst self)) text ;;
  self <- get ;;
  match file_handler_stream (fst self) with
  | Some f => stream_write f text
  | None => ret tt
  end.

Definition flush : Dual unit :=
  self <- get ;;
  stream_flush (stderr (fst self)) ;;
  self <- get ;;
  match file_handler_stream (fst self) with
  | Some f => stream_flush f
  | None => ret tt
  end.

End DualStdErrOutput.

(** ** Further scenarios with the test double *)

Module Cases.

(** A call with T1C alone after the call with T1 alone: no weights exist
    for its mode.  Then the same call again. *)
Definition after_failed : St :=
  fst (@run_call Mock.externals Mock.t1c_call Mock.after_first).

Definition after_retry : St :=
  fst (@run_call Mock.externals Mock.t1c_call after_failed).

(** T1 alone as an array, with a destination for the whole-lesion mask
    that has no directory part. *)
Definition masks_call : Call :=
  {| call_t1 := Some (Arr (Mock.volume 1 2));
     call_t1c := None;
     call_t2 := None;
     call_fla := None;
     call_segmentation_file := Some "out/t1/seg.nii.gz";
     call_whole_network_file := Some "whole.nii.gz";
     call_metastasis_network_file := None |}.

(** The call [Mock.arrays_call] without a destination. *)
Definition arrays_call_without_file : Call :=
  {| call_t1 := Some (Arr (Mock.volume 1 2));
     call_t1c := Some (Arr (Mock.volume 3 4));
     call_t2 := Some (Arr (Mock.volume 5 6));
     call_fla := Some (Arr (Mock.volume 7 8));
     call_segmentation_file := None;
     call_whole_network_file := None;
     call_metastasis_network_file := None |}.

(** The four arrays of [Mock.arrays_call]. *)
Definition arrays : list (ndarray float) :=
  [Mock.volume 1 2; Mock.volume 3 4; Mock.volume 5 6; Mock.volume 7 8].

(** The object after the validation of [Mock.arrays_call]. *)
Definition validated_arrays : St :=
  (set_validated_images (Some (map (fun a => Some (Arr a)) arrays))
     (set_input_mode (Some NUMPY)
        (new_inferer Mock.array_config CPU "/weights")),
   Mock.world).

(** Raw outputs for one batch element, two channels and two voxels. *)
Definition raw : ndarray float :=
  mk_ndarray [1; 2; 1; 1; 2] [Fin 1; Fin (-1); Fin 2; Fin (-2)].

(** Three open streams without text. *)
Definition streams : DualStdErrOutput.Streams :=
  {| DualStdErrOutput.written := fun _ => [];
     DualStdErrOutput.flushes := fun _ => 0;
     DualStdErrOutput.closed := fun _ => false |}.

End Cases.

(** ** Further assertions *)

(** [c in s] *)
Fixpoint contains_char (c : ascii) (s : string) : bool :=
  match s with
  | EmptyString => false
  | String a r => Ascii.eqb a c || contains_char c r
  end.

(** The value of a voxel after activation and threshold. *)
Definition activated_bit {E : Externals} (self : Inferer) (v : float) : Z :=
  AuroraInferer.binarize (threshold (config self)) (sigmoid v).

(** What a call that raises has done to a cache [(p, x, l)]: it has left
    handle and loads alone, with the mode as before or already replaced by
    the mode [resolved] of the call, or it has handed one archive to
    [torch.load]. *)
Definition cache_on_failure (p : option InferenceMode) (x : option Model)
  (l : list string) (resolved : option InferenceMode) (s : St) : Prop :=
  (model (fst s) = x /\ torch_loads (snd s) = l /\
   (inference_mode (fst s) = p \/
    (exists m, resolved = Some m /\ inference_mode (fst s) = Some m)))
  \/ (exists path, torch_loads (snd s) = l ++ [path]).

(** An entry of the file system that is not a volume. *)
Definition not_a_volume (entry : string * FileContent) : Prop :=
  match snd entry with
  | NiftiFile _ => False
  | _ => True
  end.

(** The file system is [fs0] with entries that are not volumes added, and
    the configuration is [cfg0]. *)
Definition without_volumes (fs0 : list (string * FileContent))
  (cfg0 : AuroraInfererConfig) (s : St) : Prop :=
  grows_by not_a_volume fs0 (files (snd s)) /\ config (fst s) = cfg0.

(** The configuration is [cfg0]. *)
Definition configured (cfg0 : AuroraInfererConfig) (s : St) : Prop :=
  config (fst s) = cfg0.

(** What [infer] returns under the configuration [cfg]: nothing in file
    output mode; in array output mode the segmentation, and each of the two
    masks when the configuration includes it. *)
Definition returned (cfg : AuroraInfererConfig) (r : option PostProc) : Prop :=
  match output_mode cfg with
  | NIFTI_FILE => r = None
  | NUMPY =>
      exists seg whole enh,
        r = Some
              ([(SEGMENTATION, seg)]
               ++ (if include_whole_network_in_numpy_output_mode cfg
                   then [(WHOLE_NETWORK, whole)] else [])
               ++ (if include_metastasis_network_in_numpy_output_mode cfg
                   then [(METASTASIS_NETWORK, enh)] else [])) /\
        Forall is_label (data seg) /\ is_binary whole /\ is_binary enh
  end.

(** The sliding-window inferer has been invoked [n] times so far, and the
    configuration is [cfg0]. *)
Definition passes (n : nat) (cfg0 : AuroraInfererConfig) (s : St) : Prop :=
  length (sw_calls (snd s)) = n /\ config (fst s) = cfg0.

(** The dict that [infer] stores in [self.output_file_mapping]. *)
Definition destinations (segmentation_file whole_network_file
  metastasis_network_file : option string) : OutputFileMapping :=
  [ (SEGMENTATION,
     if truthy segmentation_file then segmentation_file
     else Some "segmentation.nii.gz");
    (WHOLE_NETWORK, whole_network_file);
    (METASTASIS_NETWORK, metastasis_network_file) ].

(** The configuration is [cfg0] and the destinations are [mapping]. *)
Definition mapped (cfg0 : AuroraInfererConfig) (mapping : OutputFileMapping)
  (s : St) : Prop :=
  config (fst s) = cfg0 /\ output_file_mapping (fst s) = Some mapping.

(** The file system holds a volume of labels at [f]. *)
Definition holds_labels (f : string) (s : St) : Prop :=
  exists img d,
    lookup_file (files (snd s)) f = Some (NiftiFile img) /\
    dataobj img = UInt8 d /\ Forall is_label (data d).

(** The invariant of the loop of [_save_as_nifti] once the volume at [f]
    is written. *)
Definition saved (cfg0 : AuroraInfererConfig) (mapping : OutputFileMapping)
  (f : string) (s : St) : Prop :=
  mapped cfg0 mapping s /\ holds_labels f s.

(** A path that [_validate_image] lets pass: it exists and ends in [.nii.gz]
    or [.nii]. *)
Definition nifti_path (fs : list (string * FileContent)) (p : string) : Prop :=
  lookup_file fs p <> None /\
  (endswith p ".nii.gz" || endswith p ".nii") = true.

(** An input that [_validate_image] lets pass. *)
Definition passes_validation (fs : list (string * FileContent))
  (d : option Image) : Prop :=
  match d with
  | Some (File p) => nifti_path fs p
  | _ => True
  end.

(** An input that is absent or of the type [ty]. *)
Definition of_type (ty : DataMode) (d : option Image) : Prop :=
  match d with
  | Some i => type_of i = ty
  | None => True
  end.

(** The assignment to [self.input_mode] that the validation of one input
    makes. *)
Definition input_mode_after (d : option Image) (o : Inferer) : Inferer :=
  match d with
  | Some i => set_input_mode (Some (type_of i)) o
  | None => o
  end.

(** The entropy source is in the state [g], and the configuration is
    [cfg0]. *)
Definition undrawn (g : Rng) (cfg0 : AuroraInfererConfig) (s : St) : Prop :=
  rng (snd s) = g /\ config (fst s) = cfg0.

(** The texts that reach the stream [k] when [texts] are written to a
    duplicating object with the streams [err] and [file]: each text once
    for each of the two streams that [k] is. *)
Definition tee (err : nat) (file : option nat) (k : nat)
  (texts : list string) : list string :=
  flat_map (fun text =>
              (if k =? err then [text] else [])
              ++ (match file with
                  | Some f => if k =? f then [text] else []
                  | None => []
                  end)) texts.

(** * Properties *)

Unset Implicit Arguments.

(** ** Running a computation

    [run_py] unfolds the monad and the accessors of the object and the
    world, so that a method applied to a state shows its case analysis. *)

Ltac run_py :=
  cbv beta iota zeta
    delta [bind ret raise get modify lift_result self_get getattr setattr
           world_get world_modify fst snd].

(** [run_rw tac] alternates unfolding with the rewriting [tac] of what is
    known about the state. *)
Ltac run_rw tac := repeat progress (run_py; tac).

(** ** Lists and arrays *)

Lemma zip_with_length {A B C} (f : A -> B -> C) (l1 : list A) (l2 : list B) :
  length (zip_with f l1 l2) = Nat.min (length l1) (length l2).
Proof.
  revert l2; induction l1 as [|x l1 IH]; intros [|y l2]; simpl; auto.
Qed.

Lemma zip_with_nth_error {A B C} (f : A -> B -> C) (l1 : list A)
  (l2 : list B) (i : nat) :
  nth_error (zip_with f l1 l2) i =
  match nth_error l1 i, nth_error l2 i with
  | Some a, Some b => Some (f a b)
  | _, _ => None
  end.
Proof.
  revert l2 i; induction l1 as [|x l1 IH]; intros [|y l2] [|i]; simpl; auto.
  - destruct (nth_error l1 i); reflexivity.
Qed.

Lemma zip_with_repeat {A B C} (f : A -> B -> C) (a : A) (b : B) (n : nat) :
  zip_with f (repeat a n) (repeat b n) = repeat (f a b) n.
Proof. induction n; simpl; congruence. Qed.

Lemma shape_eqb_refl (sh : list nat) : shape_eqb sh sh = true.
Proof. unfold shape_eqb. destruct (list_eq_dec Nat.eq_dec sh sh); congruence. Qed.

Lemma nd_zip_with_same_shape {A B C} (f : A -> B -> C) (a : ndarray A)
  (b : ndarray B) :
  shape a = shape b ->
  nd_zip_with f a b = Ok (mk_ndarray (shape a) (zip_with f (data a) (data b))).
Proof.
  intros H. unfold nd_zip_with. rewrite H, shape_eqb_refl. reflexivity.
Qed.

(** ** Post-processing: the merge of the two masks *)

Lemma setitem_mask_same_shape {A} (target : ndarray A) (mask : ndarray bool)
  (v : A) :
  shape target = shape mask ->
  setitem_mask target mask v =
  Ok (mk_ndarray (shape target)
        (zip_with (fun (m : bool) (old : A) => if m then v else old)
           (data mask) (data target))).
Proof.
  intros H. unfold setitem_mask. rewrite H, shape_eqb_refl. reflexivity.
Qed.

(** The merge, voxel by voxel: 2 where the enhancing mask is 1, otherwise 1
    where the whole-lesion mask is 1, otherwise the whole-lesion value. *)
Definition merged_label (w e : Z) : Z :=
  if (1 =? e)%Z then 2%Z else if (1 =? w)%Z then 1%Z else w.

Lemma merge_masks_data (whole enh : ndarray Z) :
  shape whole = shape enh ->
  AuroraInferer.merge_masks whole enh =
  Ok (mk_ndarray (shape whole)
        (zip_with (fun e w => merged_label w e) (data enh) (data whole))).
Proof.
  intros Hsh. unfold AuroraInferer.merge_masks.
  rewrite setitem_mask_same_shape by reflexivity. simpl.
  rewrite setitem_mask_same_shape by exact Hsh. simpl.
  do 2 f_equal.
  generalize (data enh) as le. generalize (data whole) as lw.
  induction lw as [|w lw IH]; intros [|e le]; simpl; auto.
  rewrite IH. reflexivity.
Qed.


(** ** Post-processing: activation and threshold *)

Arguments Rleb : simpl never.
Arguments Rltb : simpl never.
Arguments Reqb : simpl never.
Arguments sigmoid : simpl never.
Arguments FLT_MAX : simpl never.

Lemma Rleb_true (a b : R) : (a <= b)%R -> Rleb a b = true.
Proof. intros H. unfold Rleb. destruct (Rle_dec a b); [reflexivity|contradiction]. Qed.

Lemma Rleb_false (a b : R) : (b < a)%R -> Rleb a b = false.
Proof. intros H. unfold Rleb. destruct (Rle_dec a b); [lra|reflexivity]. Qed.

(** From the margin on, the exact logistic function is above one half by
    the tolerance at least; up to minus the margin it is below one half by
    more than the tolerance. *)
Lemma exp_margin (r : R) :
  (sigmoid_margin <= r)%R -> (exp (- r) * (1 + sigmoid_margin) <= 1)%R.
Proof.
  intros Hr.
  assert (Hm : (0 < sigmoid_margin)%R).
  { unfold sigmoid_margin. apply Rinv_0_lt_compat, pow_lt. lra. }
  assert (H1 : (1 + sigmoid_margin < exp sigmoid_margin)%R)
    by (apply exp_ineq1; lra).
  assert (H2 : (exp sigmoid_margin <= exp r)%R).
  { destruct Hr as [Hr | <-];
      [left; apply exp_increasing; exact Hr | right; reflexivity]. }
  assert (Hp : (0 < exp (- r))%R) by apply exp_pos.
  assert (H3 : (exp (- r) * exp r = 1)%R).
  { rewrite <- exp_plus, Rplus_opp_l. apply exp_0. }
  rewrite <- H3. apply Rmult_le_compat_l; lra.
Qed.

Lemma logistic_above (r : R) :
  (sigmoid_margin <= r)%R -> (1 / 2 + sigmoid_tolerance <= logistic r)%R.
Proof.
  intros Hr. pose proof (exp_margin r Hr) as H.
  assert (Hp : (0 < exp (- r))%R) by apply exp_pos.
  unfold logistic.
  apply Rmult_le_reg_r with (1 + exp (- r))%R; [lra|].
  unfold Rdiv at 2. rewrite Rmult_1_l, Rinv_l by lra.
  unfold sigmoid_margin, sigmoid_tolerance in *. lra.
Qed.

Lemma logistic_below (r : R) :
  (r <= - sigmoid_margin)%R -> (logistic r < 1 / 2 - sigmoid_tolerance)%R.
Proof.
  intros Hr.
  assert (Hr' : (sigmoid_margin <= - r)%R) by lra.
  pose proof (exp_margin (- r) Hr') as H. rewrite Ropp_involutive in H.
  assert (Hp : (0 < exp r)%R) by apply exp_pos.
  assert (Hq : (0 < exp (- r))%R) by apply exp_pos.
  assert (H3 : (exp (- r) * exp r = 1)%R).
  { rewrite <- exp_plus, Rplus_opp_l. apply exp_0. }
  unfold logistic.
  apply Rmult_lt_reg_r with (1 + exp (- r))%R; [lra|].
  unfold Rdiv at 1. rewrite Rmult_1_l, Rinv_l by lra.
  unfold sigmoid_margin, sigmoid_tolerance in *. nra.
Qed.

Lemma sigmoid_margin_small : (sigmoid_margin < 1 / 10)%R.
Proof. unfold sigmoid_margin. lra. Qed.

Section Activation.

Context {E : Externals}.

(** The rounded logistic function of an input that is at least the margin
    reaches the threshold one half; of an input that is at most minus the
    margin it stays below.  Between the two the rounding decides. *)
Lemma binarize_sigmoid_above (r : R) :
  (sigmoid_margin <= r)%R ->
  AuroraInferer.binarize (Fin (1 / 2)) (sigmoid (Fin r)) = 1%Z.
Proof.
  intros Hr. unfold AuroraInferer.binarize, sigmoid, fge.
  pose proof (torch_sigmoid_accurate r) as Ha.
  pose proof (logistic_above r Hr) as Hl.
  unfold Rabs in Ha.
  destruct (Rcase_abs _) in Ha; rewrite Rleb_true by lra; reflexivity.
Qed.

Lemma binarize_sigmoid_below (r : R) :
  (r <= - sigmoid_margin)%R ->
  AuroraInferer.binarize (Fin (1 / 2)) (sigmoid (Fin r)) = 0%Z.
Proof.
  intros Hr. unfold AuroraInferer.binarize, sigmoid, fge.
  pose proof (torch_sigmoid_accurate r) as Ha.
  pose proof (logistic_below r Hr) as Hl.
  unfold Rabs in Ha.
  destruct (Rcase_abs _) in Ha; rewrite Rleb_false by lra; reflexivity.
Qed.

Lemma firstn_exact {A} (l r : list A) (k : nat) :
  length l = k -> firstn k (l ++ r) = l.
Proof.
  intros <-. rewrite firstn_app, Nat.sub_diag, firstn_all. simpl.
  apply app_nil_r.
Qed.

Lemma skipn_exact {A} (l r : list A) (k : nat) :
  length l = k -> skipn k (l ++ r) = r.
Proof.
  intros <-. rewrite skipn_app, Nat.sub_diag, skipn_all. reflexivity.
Qed.

(** Post-processing of constant raw outputs: every voxel gets the label
    that the two binarised constants merge to. *)
Lemma post_process_constant (self : Inferer) (whole enh : float)
  (b c h w d : nat) (x : ndarray float) :
  shape x = [S b; c; h; w; d] ->
  let bw := AuroraInferer.binarize (threshold (config self)) (sigmoid whole) in
  let be := AuroraInferer.binarize (threshold (config self)) (sigmoid enh) in
  AuroraInferer._post_process self (Mock.const_forward whole enh x) =
  Ok [ (SEGMENTATION, nd_full [h; w; d] (merged_label bw be));
       (WHOLE_NETWORK, nd_full [h; w; d] bw);
       (METASTASIS_NETWORK, nd_full [h; w; d] be) ].
Proof.
  intros Hx bw be.
  unfold AuroraInferer._post_process, Mock.const_forward. rewrite Hx.
  set (n := size_of [h; w; d]).
  assert (Hsz : size_of [2; h; w; d] = n + n).
  { unfold n. simpl. lia. }
  unfold nd_getitem at 1. cbn [shape data Nat.ltb Nat.leb result_bind].
  rewrite Hsz. cbn [repeat concat Nat.mul skipn].
  rewrite firstn_exact by (rewrite length_app, !repeat_length; reflexivity).
  cbn [ndim shape length Nat.leb result_bind nd_map data].
  unfold nd_map. cbn [shape data].
  rewrite !map_app, !map_repeat. fold bw be.
  unfold nd_getitem. cbn [shape data Nat.ltb Nat.leb result_bind Nat.mul].
  fold n. rewrite Nat.add_0_r. cbn [skipn].
  rewrite skipn_exact by apply repeat_length.
  rewrite firstn_exact by apply repeat_length.
  rewrite firstn_all2 by (rewrite repeat_length; lia).
  rewrite merge_masks_data by reflexivity.
  cbn [shape data result_bind].
  rewrite zip_with_repeat. reflexivity.
Qed.

(** C5, amended.  The forward pass returns the constants 0.6 (whole lesion)
    and 0.3 (enhancing) and the threshold is 0.5: post-processing applies the
    logistic function first, both activated values reach the threshold, and
    the segmentation carries the label 2 at every voxel; both masks are 1
    everywhere. *)
Theorem constant_outputs_give_label_2 (self : Inferer) (b c h w d : nat)
  (x : ndarray float) :
  threshold (config self) = Fin (1 / 2) ->
  shape x = [S b; c; h; w; d] ->
  AuroraInferer._post_process self
    (Mock.const_forward (Fin (6 / 10)) (Fin (3 / 10)) x) =
  Ok [ (SEGMENTATION, nd_full [h; w; d] 2%Z);
       (WHOLE_NETWORK, nd_full [h; w; d] 1%Z);
       (METASTASIS_NETWORK, nd_full [h; w; d] 1%Z) ].
Proof.
  intros Hthr Hx.
  rewrite (post_process_constant self _ _ b c h w d x Hx).
  pose proof sigmoid_margin_small as Hm.
  rewrite Hthr, !binarize_sigmoid_above by lra. reflexivity.
Qed.

(** The label 1 needs an enhancing output whose activation stays below the
    threshold: a raw value that is negative by at least the margin, next to
    a whole-lesion output that is positive by at least the margin. *)
Lemma constant_outputs_give_label_1 (self : Inferer) (b c h w d : nat)
  (x : ndarray float) (whole enh : R) :
  threshold (config self) = Fin (1 / 2) ->
  shape x = [S b; c; h; w; d] ->
  (sigmoid_margin <= whole)%R -> (enh <= - sigmoid_margin)%R ->
  AuroraInferer._post_process self
    (Mock.const_forward (Fin whole) (Fin enh) x) =
  Ok [ (SEGMENTATION, nd_full [h; w; d] 1%Z);
       (WHOLE_NETWORK, nd_full [h; w; d] 1%Z);
       (METASTASIS_NETWORK, nd_full [h; w; d] 0%Z) ].
Proof.
  intros Hthr Hx Hw He.
  rewrite (post_process_constant self _ _ b c h w d x Hx).
  rewrite Hthr, binarize_sigmoid_above, binarize_sigmoid_below by assumption.
  reflexivity.
Qed.

End Activation.

(** ** Preprocessing: non-finite values *)

Lemma FLT_MAX_pos : (0 < FLT_MAX)%R.
Proof.
  unfold FLT_MAX.
  assert (H127 : (0 < 2 ^ 127)%R) by (apply pow_lt; lra).
  assert (H23 : (1 < 2 ^ 23)%R) by (apply Rlt_pow_R1; [lra | lia]).
  assert (Hinv : (/ 2 ^ 23 < / 1)%R) by (apply Rinv_lt_contravar; lra).
  rewrite Rinv_1 in Hinv.
  apply Rmult_lt_0_compat; lra.
Qed.

Lemma nan_to_num_finite (x : float) : is_finite (nan_to_num x) = true.
Proof. destruct x; reflexivity. Qed.

Section Preprocessing.

Context {E : Externals}.

Lemma get_data_loader_transforms (s s' : St) (dl : DataLoader) :
  AuroraInferer._get_data_loader s = (s', Ok dl) ->
  exists pre,
    transforms dl =
      pre ++ [Lambdad_nan_to_num; ScaleIntensityRangePercentilesd; ToTensord]
    /\ ~ In ScaleIntensityRangePercentilesd pre.
Proof.
  destruct s as [o w].
  unfold AuroraInferer._get_data_loader, AuroraInferer._get_not_none_files.
  run_py.
  destruct (input_mode o) as [im|]; [|discriminate].
  destruct (validated_images o) as [imgs|] eqn:Hv; [|discriminate].
  run_rw ltac:(rewrite ?Hv).
  intros H. injection H as _ <-. cbn [transforms].
  destruct (DataMode_eqb im NIFTI_FILE), (length (not_none imgs) =? 1);
    cbn [not_none flat_map app].
  - exists [LoadImageD; EnsureChannelFirstd]. split; [reflexivity|].
    intros [H|[H|[]]]; discriminate.
  - exists [LoadImageD]. split; [reflexivity|]. intros [H|[]]; discriminate.
  - exists [EnsureChannelFirstd]. split; [reflexivity|].
    intros [H|[]]; discriminate.
  - exists []. split; [reflexivity|]. intros [].
Qed.

(** C6, amended.  Before the percentile rescaling, [np.nan_to_num] replaces
    every NaN with zero, positive infinity with the largest finite float32
    and negative infinity with its negation, and leaves finite values as
    they are, so that the rescaling sees finite values only.  In the loader
    of either module the replacement is the transform right before the
    rescaling, and the rescaling is applied to the replaced array. *)
Theorem nan_to_num_then_rescaling (s s' : St) (dl : DataLoader) :
  AuroraInferer._get_data_loader s = (s', Ok dl) ->
  (nan_to_num NaN = Fin 0 /\
   nan_to_num PInf = Fin FLT_MAX /\
   nan_to_num NInf = Fin (- FLT_MAX) /\
   (0 < FLT_MAX)%R /\
   (forall r, nan_to_num (Fin r) = Fin r) /\
   (forall x, is_finite (nan_to_num x) = true))
  /\ (exists pre,
        transforms dl =
          pre ++ [Lambdad_nan_to_num; ScaleIntensityRangePercentilesd;
                  ToTensord]
        /\ ~ In ScaleIntensityRangePercentilesd pre)
  /\ (forall single,
        exists pre,
          Legacy.transforms single =
            pre ++ [Lambdad_nan_to_num; ScaleIntensityRangePercentilesd;
                    ToTensord]
          /\ ~ In ScaleIntensityRangePercentilesd pre)
  /\ (forall a st,
        for_each [Lambdad_nan_to_num; ScaleIntensityRangePercentilesd;
                  ToTensord]
          AuroraInferer.apply_transform (Array a) st =
        (st, Ok (Array (ScaleIntensityRangePercentiles (nd_map nan_to_num a))))).
Proof.
  intros Hdl. split.
  { repeat split; try reflexivity.
    - apply FLT_MAX_pos.
    - apply nan_to_num_finite. }
  split; [exact (get_data_loader_transforms s s' dl Hdl)|].
  split.
  { intros [|].
    - exists [LoadImageD; EnsureChannelFirstd]. split; [reflexivity|].
      intros [H|[H|[]]]; discriminate.
    - exists [LoadImageD]. split; [reflexivity|]. intros [H|[]]; discriminate. }
  intros a st. reflexivity.
Qed.

End Preprocessing.

(** C6, as stated, fails: the loader's replacement step turns the
    infinities into the finite values of largest magnitude, not into zero. *)
Lemma infinities_are_not_zeroed :
  snd (@AuroraInferer.apply_transform Mock.externals Lambdad_nan_to_num
         (Array (mk_ndarray [3] [NaN; PInf; NInf]))
         (Mock.fresh Mock.default_config)) =
    Ok (Array (mk_ndarray [3] [Fin 0; Fin FLT_MAX; Fin (- FLT_MAX)]))
  /\ Fin FLT_MAX <> Fin 0
  /\ Fin (- FLT_MAX) <> Fin 0.
Proof.
  pose proof FLT_MAX_pos as Hpos.
  split; [reflexivity|].
  split; intros H; injection H as H; lra.
Qed.

(** ** Model loading: missing weights *)

Section ModelLoading.

Context {E : Externals}.

(** C7.  With validated images and a resolved mode, when no archive exists
    at the path of the weights the call of [_get_model] ends in the
    [AttributeError] for the attribute [mode], raised while the message of
    the intended [NotImplementedError] is formatted; nothing is loaded and
    the state is unchanged. *)
Theorem get_model_missing_weights (s : St) (imgs : list (option Image))
  (imode : InferenceMode) :
  validated_images (fst s) = Some imgs ->
  inference_mode (fst s) = Some imode ->
  lookup_file (files (snd s))
    (AuroraInferer.weights_path_of (model_weights_folder (fst s)) imode
       (config (fst s))) = None ->
  AuroraInferer._get_model s = (s, Raise (AttributeError "mode")).
Proof.
  destruct s as [o w]. cbn [fst snd]. intros Hv Hm Hf.
  unfold AuroraInferer._get_model, AuroraInferer._get_not_none_files,
    os_path_exists.
  run_py. rewrite Hv, Hm, Hf. reflexivity.
Qed.

End ModelLoading.

(** The same branch of the older module ends in a [NameError]. *)
Lemma legacy_get_model_missing_weights (dir : string)
  (self : Legacy.AuroraInferer) (w : World) :
  lookup_file (files w)
    (os_path_join (os_path_join dir (Legacy.mode self))
       (String.append (Legacy.mode self)
          (String.append "_"
             (String.append (Legacy.model_selection self) ".tar")))) = None ->
  Legacy._get_model dir self w = (w, Raise (NameError "mode")).
Proof. intros H. unfold Legacy._get_model. rewrite H. reflexivity. Qed.

(** ** Logging set-up *)

(** C8.  Whatever the inputs, the other destinations, the configuration and
    the world, a call of [infer] without a segmentation file ends in the
    [FileNotFoundError] of [os.makedirs] on the empty path, raised while the logger is set
    up for the log path ["."]; the object and the world are as before, so
    nothing was computed, written or logged. *)
Theorem infer_without_segmentation_file {E : Externals}
  (t1 t1c t2 fla : option Image)
  (whole_network_file metastasis_network_file : option string) (s : St) :
  AuroraInferer.infer t1 t1c t2 fla None whole_network_file
    metastasis_network_file s =
  (s, Raise (FileNotFoundError "[Errno 2] No such file or directory: ''")).
Proof. reflexivity. Qed.

(** ** Test-time augmentation *)

Lemma torch_flip_single {A} (a : ndarray A) (ax : nat) :
  ax < ndim a -> torch_flip a [ax] = Ok (flip_axis ax a).
Proof.
  intros H. unfold torch_flip.
  destruct (Nat.ltb_spec ax (ndim a)); [reflexivity | lia].
Qed.

Lemma spec_sum_app (acc : ndarray float) (l1 l2 : list (ndarray float)) :
  spec_sum acc (l1 ++ l2) =
  result_bind (spec_sum acc l1) (fun a => spec_sum a l2).
Proof.
  revert acc; induction l1 as [|m l1 IH]; intros acc; simpl; [reflexivity|].
  destruct (nd_zip_with fadd acc m); simpl; auto.
Qed.

Section Ensemble.

Context {E : Externals}.

Variable inferer : SlidingWindowInferer.
Variable net : Model.
Variable x : ndarray float.
Variables b c h w d : nat.

(** The batch is five-dimensional, the noise keeps the shape, and a pass
    over a batch of this shape yields the two classes on the same grid. *)
Hypothesis x_shape : shape x = [b; c; h; w; d].
Hypothesis noise_shape :
  forall g y, shape (fst (RandGaussianNoise g y)) = shape y.
Hypothesis pass_shape :
  forall y, shape y = [b; c; h; w; d] ->
            shape (sliding_window_inference inferer y net) = [b; 2; h; w; d].

Lemma call_inferer_run (s : St) (y : ndarray float) :
  model (fst s) = Some net ->
  AuroraInferer.call_inferer inferer y s =
  ((fst s, with_sw_calls (snd s) (sw_calls (snd s) ++ [y])),
   Ok (sliding_window_inference inferer y net)).
Proof.
  intros Hm. destruct s as [o wd]. cbn [fst snd] in *.
  unfold AuroraInferer.call_inferer. run_rw ltac:(rewrite ?Hm). reflexivity.
Qed.

(** One round: three passes, three additions, three increments of the
    count; only the entropy source and the trace of passes change. *)
Lemma tta_round_run (s : St) (outputs : ndarray float) (n : R) :
  model (fst s) = Some net ->
  shape outputs = [b; 2; h; w; d] ->
  let noisy := fst (RandGaussianNoise (rng (snd s)) x) in
  exists s' total,
    AuroraInferer.tta_round inferer x (outputs, Fin n) s =
      (s', Ok (total, Fin (n + 1 + 1 + 1)%R)) /\
    spec_sum outputs (spec_round_members inferer net noisy) = Ok total /\
    shape total = [b; 2; h; w; d] /\
    fst s' = fst s /\
    rng (snd s') = snd (RandGaussianNoise (rng (snd s)) x) /\
    sw_calls (snd s') = sw_calls (snd s) ++ spec_round_inputs noisy.
Proof.
  intros Hm Hout noisy. destruct s as [o wd]. cbn [fst snd] in *.
  assert (Hnoisy : shape noisy = [b; c; h; w; d]).
  { unfold noisy. rewrite noise_shape. exact x_shape. }
  assert (Hp1 : shape (spec_pass inferer net noisy) = [b; 2; h; w; d]).
  { apply pass_shape. exact Hnoisy. }
  assert (Hp2 : shape (spec_pass inferer net (flip_axis 2 noisy))
                = [b; 2; h; w; d]).
  { apply pass_shape. exact Hnoisy. }
  assert (Hp3 : shape (spec_pass inferer net (flip_axis 3 noisy))
                = [b; 2; h; w; d]).
  { apply pass_shape. exact Hnoisy. }
  unfold spec_pass in Hp1, Hp2, Hp3.
  unfold AuroraInferer.tta_round, AuroraInferer.RandGaussianNoised,
    AuroraInferer.tta_flip_pass, AuroraInferer.call_inferer.
  cbn [for_each]. run_py.
  fold noisy.
  destruct (RandGaussianNoise (rng wd) x) as [noisy' g'] eqn:Hn.
  cbn [fst snd] in noisy. subst noisy.
  assert (Hflip : forall ax (a : ndarray float) sh,
             shape a = sh -> ax < length sh ->
             torch_flip a [ax] = Ok (flip_axis ax a)).
  { intros ax a sh Ha Hax. apply torch_flip_single. unfold ndim.
    rewrite Ha. exact Hax. }
  run_rw ltac:(rewrite ?Hm;
    try rewrite (Hflip 2 noisy' _ Hnoisy) by (simpl; lia);
    try rewrite (Hflip 3 noisy' _ Hnoisy) by (simpl; lia);
    try rewrite (Hflip 2 _ _ Hp2) by (simpl; lia);
    try rewrite (Hflip 3 _ _ Hp3) by (simpl; lia);
    try rewrite nd_zip_with_same_shape by (cbn [shape flip_axis]; congruence)).
  do 2 eexists. split; [reflexivity|].
  split.
  { unfold spec_round_members, spec_sum, spec_pass.
    rewrite nd_zip_with_same_shape by congruence. cbn [result_bind].
    rewrite nd_zip_with_same_shape by (cbn [shape flip_axis]; congruence).
    cbn [result_bind].
    rewrite nd_zip_with_same_shape by (cbn [shape flip_axis]; congruence).
    reflexivity. }
  split; [exact Hout|].
  split; [reflexivity|].
  split.
  - reflexivity.
  - cbn. unfold spec_round_inputs. rewrite <- !app_assoc. reflexivity.
Qed.

(** [k] rounds, by induction on [k]. *)
Lemma tta_rounds_run (k : nat) :
  forall (i : nat) (s : St) (outputs : ndarray float) (n : R),
  model (fst s) = Some net ->
  shape outputs = [b; 2; h; w; d] ->
  let volumes := spec_noisy_volumes k (rng (snd s)) x in
  exists s' total,
    for_each (seq i k) (fun _ => AuroraInferer.tta_round inferer x)
      (outputs, Fin n) s =
      (s', Ok (total, Fin (n + INR (3 * k))%R)) /\
    spec_sum outputs
      (flat_map (spec_round_members inferer net) (fst volumes)) = Ok total /\
    shape total = [b; 2; h; w; d] /\
    fst s' = fst s /\
    rng (snd s') = snd volumes /\
    sw_calls (snd s') =
      sw_calls (snd s) ++ flat_map spec_round_inputs (fst volumes).
Proof.
  induction k as [|k IH]; intros i s outputs n Hm Hout volumes.
  - exists s, outputs. cbn. rewrite Rplus_0_r, app_nil_r. auto 10.
  - destruct (tta_round_run s outputs n Hm Hout)
      as (s1 & t1 & Hrun & Hsum & Hsh & Hself & Hrng & Hcalls).
    assert (Hm1 : model (fst s1) = Some net) by (rewrite Hself; exact Hm).
    destruct (IH (S i) s1 t1 (n + 1 + 1 + 1)%R Hm1 Hsh)
      as (s2 & t2 & Hrun2 & Hsum2 & Hsh2 & Hself2 & Hrng2 & Hcalls2).
    exists s2, t2.
    subst volumes. cbn [seq for_each spec_noisy_volumes].
    unfold bind at 1. rewrite Hrun. rewrite Hrun2.
    destruct (RandGaussianNoise (rng (snd s)) x) as [noisy g1] eqn:Hn.
    cbn [fst snd] in *. rewrite Hrng in *.
    destruct (spec_noisy_volumes k g1 x) as [rest g2] eqn:Hrest.
    cbn [fst snd flat_map] in *.
    rewrite spec_sum_app, Hsum. cbn [result_bind].
    repeat split; try congruence.
    + assert (Hr : (n + 1 + 1 + 1 + INR (3 * k) = n + INR (3 * S k))%R).
      { replace (3 * S k) with (3 + 3 * k) by lia.
        rewrite plus_INR. replace (INR 3) with 3%R by (simpl; lra). lra. }
      rewrite Hr. reflexivity.
    + rewrite Hcalls2, Hcalls, <- app_assoc. reflexivity.
Qed.

(** C1.  With [tta] set, the raw outputs of a batch are the ensemble of the
    specification: the pass on the unmodified batch and, for each of four
    freshly noised copies of it, the pass on the copy and the passes on the
    copy flipped along axis 2 and along axis 3, each flipped back along its
    axis; the thirteen members are added with weight one and the sum is
    divided by thirteen.  The sliding-window inferer is invoked thirteen
    times, on the volumes of the specification in its order. *)
Theorem tta_ensemble_of_thirteen (cfg : AuroraInfererConfig) (s : St) :
  tta cfg = true ->
  model (fst s) = Some net ->
  exists out s',
    AuroraInferer.raw_outputs cfg inferer x s = (s', Ok out) /\
    spec_ensemble inferer net (rng (snd s)) x = Ok out /\
    length (spec_members inferer net (rng (snd s)) x) = 13 /\
    sw_calls (snd s') = sw_calls (snd s) ++ spec_inputs (rng (snd s)) x /\
    length (spec_inputs (rng (snd s)) x) = 13.
Proof.
  intros Htta Hm.
  set (g := rng (snd s)).
  assert (Hp0 : shape (sliding_window_inference inferer x net)
                = [b; 2; h; w; d])
    by (apply pass_shape; exact x_shape).
  unfold AuroraInferer.raw_outputs. rewrite Htta.
  unfold bind at 1. rewrite (call_inferer_run s x Hm).
  unfold bind at 1. unfold log at 1, world_modify at 1, modify at 1.
  cbn [fst snd].
  set (s1 := (fst s, _)).
  assert (Hm1 : model (fst s1) = Some net) by exact Hm.
  destruct (tta_rounds_run 4 0 s1 _ 1%R Hm1 Hp0)
    as (s2 & total & Hrun & Hsum & Hsh & Hself & Hrng & Hcalls).
  unfold AuroraInferer._apply_test_time_augmentations.
  unfold bind at 1. rewrite Hrun. unfold ret.
  replace (1 + INR (3 * 4))%R with 13%R by (simpl; lra).
  do 2 eexists. split; [reflexivity|].
  assert (Hg : rng (snd s1) = g) by reflexivity.
  rewrite Hg in *.
  split.
  { unfold spec_ensemble, spec_members. cbv beta iota.
    unfold spec_pass at 1. rewrite Hsum. reflexivity. }
  split.
  { unfold spec_members. cbn [length]. f_equal.
    cbn [spec_noisy_volumes].
    repeat match goal with
           | |- context [RandGaussianNoise ?a ?y] =>
               destruct (RandGaussianNoise a y)
           end.
    reflexivity. }
  split.
  { rewrite Hcalls. unfold s1.
    cbn [snd sw_calls with_sw_calls with_log_records].
    unfold spec_inputs. rewrite <- app_assoc. reflexivity. }
  unfold spec_inputs. cbn [length]. f_equal.
  cbn [spec_noisy_volumes].
  repeat match goal with
         | |- context [RandGaussianNoise ?a ?y] =>
             destruct (RandGaussianNoise a y)
         end.
  reflexivity.
Qed.

End Ensemble.

(** ** Rules for [triple] and [keeps] *)

Section TripleRules.

Context {S : Type}.

Lemma triple_ret {A} (P : S -> Prop) (a : A) (Q : A -> S -> Prop)
  (X : S -> Prop) :
  (forall s, P s -> Q a s) -> triple P (ret a) Q X.
Proof. intros H s Hs. cbn. auto. Qed.

Lemma triple_raise {A} (P : S -> Prop) (e : Exn) (Q : A -> S -> Prop)
  (X : S -> Prop) :
  (forall s, P s -> X s) -> triple P (raise e) Q X.
Proof. intros H s Hs. cbn. auto. Qed.

Lemma triple_bind {A B} (P : S -> Prop) (c : M S A) (k : A -> M S B)
  (R : A -> S -> Prop) (Q : B -> S -> Prop) (X : S -> Prop) :
  triple P c R X ->
  (forall a, triple (R a) (k a) Q X) ->
  triple P (bind c k) Q X.
Proof.
  intros Hc Hk s Hs. specialize (Hc s Hs). unfold bind.
  destruct (c s) as [s1 [a|e]]; cbn in *.
  - apply Hk. exact Hc.
  - exact Hc.
Qed.

Lemma triple_conseq {A} (P P' : S -> Prop) (c : M S A)
  (Q Q' : A -> S -> Prop) (X X' : S -> Prop) :
  triple P c Q X ->
  (forall s, P' s -> P s) ->
  (forall a s, Q a s -> Q' a s) ->
  (forall s, X s -> X' s) ->
  triple P' c Q' X'.
Proof.
  intros Hc HP HQ HX s Hs. specialize (Hc s (HP s Hs)).
  destruct (snd (c s)); auto.
Qed.

Lemma triple_modify (P : S -> Prop) (f : S -> S) (Q : unit -> S -> Prop)
  (X : S -> Prop) :
  (forall s, P s -> Q tt (f s)) -> triple P (modify f) Q X.
Proof. intros H s Hs. cbn. auto. Qed.

Lemma keeps_ret {A} (I : S -> Prop) (a : A) : keeps I (ret a).
Proof. apply triple_ret. auto. Qed.

Lemma keeps_raise {A} (I : S -> Prop) (e : Exn) : keeps I (@raise S A e).
Proof. apply triple_raise. auto. Qed.

Lemma keeps_bind {A B} (I : S -> Prop) (c : M S A) (k : A -> M S B) :
  keeps I c -> (forall a, keeps I (k a)) -> keeps I (bind c k).
Proof. intros Hc Hk. eapply triple_bind; [exact Hc | exact Hk]. Qed.

Lemma keeps_lift_result {A} (I : S -> Prop) (r : result A) :
  keeps I (lift_result r).
Proof. intros s Hs. cbn. destruct r; exact Hs. Qed.

Lemma keeps_modify (I : S -> Prop) (f : S -> S) :
  (forall s, I s -> I (f s)) -> keeps I (modify f).
Proof. intros H. apply triple_modify. exact H. Qed.

Lemma keeps_for_each {X Acc} (I : S -> Prop) (l : list X)
  (body : X -> Acc -> M S Acc) (acc : Acc) :
  (forall x a, keeps I (body x a)) -> keeps I (for_each l body acc).
Proof.
  intros Hb. revert acc. induction l as [|x l IH]; intros acc; cbn [for_each].
  - apply keeps_ret.
  - apply keeps_bind; [apply Hb | intros a; apply IH].
Qed.

Lemma keeps_map_M {X Y} (I : S -> Prop) (f : X -> M S Y) (l : list X) :
  (forall x, keeps I (f x)) -> keeps I (map_M f l).
Proof.
  intros Hf. induction l as [|x l IH]; cbn [map_M].
  - apply keeps_ret.
  - apply keeps_bind; [apply Hf | intros y].
    apply keeps_bind; [exact IH | intros ys; apply keeps_ret].
Qed.

End TripleRules.

Lemma keeps_self_get {A} (I : St -> Prop) (f : Inferer -> A) :
  keeps I (self_get f).
Proof. intros s Hs. exact Hs. Qed.

Lemma keeps_getattr {A} (I : St -> Prop) (name : string)
  (f : Inferer -> option A) :
  keeps I (getattr name f).
Proof. intros s Hs. unfold getattr. destruct (f (fst s)); exact Hs. Qed.

Lemma keeps_world_get {A} (I : St -> Prop) (f : World -> A) :
  keeps I (world_get f).
Proof. intros s Hs. exact Hs. Qed.

Lemma keeps_setattr (I : St -> Prop) (upd : Inferer -> Inferer) :
  (forall o w, I (o, w) -> I (upd o, w)) -> keeps I (setattr upd).
Proof. intros H. apply keeps_modify. intros [o w] Hs. apply H. exact Hs. Qed.

Lemma keeps_world_modify (I : St -> Prop) (upd : World -> World) :
  (forall o w, I (o, w) -> I (o, upd w)) -> keeps I (world_modify upd).
Proof. intros H. apply keeps_modify. intros [o w] Hs. apply H. exact Hs. Qed.

Lemma keeps_log (I : St -> Prop) (lvl : LogLevel) (msg : string) :
  (forall o w, I (o, w) ->
     I (o, with_log_records w (log_records w ++ [(lvl, msg)]))) ->
  keeps I (log lvl msg).
Proof. intros H. apply keeps_world_modify. exact H. Qed.

(** One step of a proof that a computation keeps an invariant: a rule for
    the head of the computation, a case analysis, or the unfolding of a
    method.  [solver] proves that an update keeps the invariant. *)
Ltac head_of t :=
  lazymatch t with
  | ?f _ => head_of f
  | _ => t
  end.

Ltac keeps_step solver :=
  lazymatch goal with
  | |- keeps _ (bind _ _) => apply keeps_bind; [|intros ?]
  | |- keeps _ (ret _) => apply keeps_ret
  | |- keeps _ (raise _) => apply keeps_raise
  | |- keeps _ (lift_result _) => apply keeps_lift_result
  | |- keeps _ (self_get _) => apply keeps_self_get
  | |- keeps _ (getattr _ _) => apply keeps_getattr
  | |- keeps _ (world_get _) => apply keeps_world_get
  | |- keeps _ (setattr _) => apply keeps_setattr; solver
  | |- keeps _ (world_modify _) => apply keeps_world_modify; solver
  | |- keeps _ (log _ _) => apply keeps_log; solver
  | |- keeps _ (for_each _ _ _) => apply keeps_for_each; intros ? ?
  | |- keeps _ (map_M _ _) => apply keeps_map_M; intros ?
  | |- keeps _ (if ?b then _ else _) => destruct b
  | |- keeps _ (match ?x with _ => _ end) => destruct x
  | |- keeps _ ?c => let h := head_of c in unfold h
  end.

Ltac keeps_auto solver :=
  repeat first [ progress cbv beta iota | keeps_step solver ].

Lemma keeps_triple {S A} (I X : S -> Prop) (c : M S A) :
  keeps I c -> (forall s, I s -> X s) -> triple I c (fun _ => I) X.
Proof.
  intros Hc HX. eapply triple_conseq; [exact Hc | auto | auto | exact HX].
Qed.

Lemma triple_self_get {A} (P : St -> Prop) (f : Inferer -> A)
  (X : St -> Prop) :
  triple P (self_get f) (fun a s => P s /\ a = f (fst s)) X.
Proof. intros s Hs. cbn. auto. Qed.

Lemma triple_getattr {A} (P : St -> Prop) (name : string)
  (f : Inferer -> option A) :
  triple P (getattr name f) (fun a s => P s /\ f (fst s) = Some a) P.
Proof.
  intros s Hs. unfold getattr. destruct (f (fst s)) eqn:Hf; cbn; auto.
Qed.

(** A fact that does not depend on the state moves out of the
    precondition. *)
Lemma triple_assume {S A} (phi : Prop) (P : S -> Prop) (c : M S A)
  (Q : A -> S -> Prop) (X : S -> Prop) :
  (phi -> triple P c Q X) -> triple (fun s => P s /\ phi) c Q X.
Proof. intros H s [Hs Hphi]. apply H; assumption. Qed.

Lemma triple_exists {S A Y} (P : Y -> S -> Prop) (c : M S A)
  (Q : A -> S -> Prop) (X : S -> Prop) :
  (forall y, triple (P y) c Q X) -> triple (fun s => exists y, P y s) c Q X.
Proof. intros H s [y Hs]. apply (H y). exact Hs. Qed.

(** [map_M] of a computation whose value is a function of its argument. *)
Lemma triple_map_M_fun {S X Y} (I : S -> Prop) (Z : S -> Prop)
  (f : X -> M S Y) (g : X -> Y) (l : list X) :
  (forall x, triple I (f x) (fun y s => I s /\ y = g x) Z) ->
  triple I (map_M f l) (fun ys s => I s /\ ys = map g l) Z.
Proof.
  intros Hf. induction l as [|x l IH]; cbn [map_M map].
  - apply triple_ret. auto.
  - eapply triple_bind; [apply Hf|].
    intros y. apply triple_assume. intros ->.
    eapply triple_bind; [exact IH|].
    intros ys. apply triple_assume. intros ->.
    apply triple_ret. auto.
Qed.

(** ** Growth of the file system and of the log *)

Lemma grows_by_refl Q fs : grows_by Q fs fs.
Proof. exists []. split; [reflexivity | constructor]. Qed.

Lemma grows_by_cons Q fs0 fs e :
  Q e -> grows_by Q fs0 fs -> grows_by Q fs0 (e :: fs).
Proof.
  intros He (added & -> & Hall). exists (e :: added).
  split; [reflexivity | constructor; assumption].
Qed.

Lemma log_extends_app {A} (l0 l l' : list A) :
  (exists k, l = l0 ++ k) -> exists k, l ++ l' = l0 ++ k.
Proof. intros (k & ->). exists (k ++ l'). symmetry. apply app_assoc. Qed.

Lemma log_contains_app {A} (x : A) (l0 l l' : list A) :
  (exists k, l = l0 ++ k /\ In x k) -> exists k, l ++ l' = l0 ++ k /\ In x k.
Proof.
  intros (k & -> & Hin). exists (k ++ l').
  split; [symmetry; apply app_assoc | apply in_or_app; left; exact Hin].
Qed.

(** ** Output geometry after array inputs *)

Section NumpyGeometry.

Context {E : Externals}.

Variable fs0 : list (string * FileContent).
Variable log0 : list (LogLevel * string).
Variable cfg0 : AuroraInfererConfig.

Ltac solve_started :=
  intros; unfold warned, validated_numpy, started in *; cbn in *;
  repeat match goal with
         | Hc : _ /\ _ |- _ => destruct Hc
         end;
  repeat split;
  first [ assumption
        | apply grows_by_cons;
          [unfold written_with; cbn; repeat split | assumption]
        | apply log_extends_app; assumption
        | apply log_contains_app; assumption ].

Lemma warned_validated s :
  warned fs0 log0 cfg0 s -> validated_numpy fs0 log0 cfg0 s.
Proof. intros [H _]. exact H. Qed.

Lemma validated_started s :
  validated_numpy fs0 log0 cfg0 s -> started fs0 log0 cfg0 s.
Proof. intros [H _]. exact H. Qed.

(** A step that keeps the invariant of the current phase. *)
Ltac phase_step :=
  eapply triple_bind;
  [ apply keeps_triple;
    [ keeps_auto solve_started
    | first [ exact validated_started | exact warned_validated | auto ] ]
  | intros ? ].

Lemma save_output_warned item :
  keeps (warned fs0 log0 cfg0)
    (AuroraInferer.save_output (np_eye4, None) item).
Proof. keeps_auto solve_started. Qed.

(** Validation of arrays leaves the input mode at [NUMPY]. *)
Lemma validate_images_numpy (t1 t1c t2 fla : option Image) :
  array_or_none t1 -> array_or_none t1c ->
  array_or_none t2 -> array_or_none fla ->
  triple (started fs0 log0 cfg0)
    (AuroraInferer._validate_images t1 t1c t2 fla)
    (fun _ => validated_numpy fs0 log0 cfg0) (started fs0 log0 cfg0).
Proof.
  intros H1 H2 H3 H4.
  destruct t1 as [[?|?]|], t1c as [[?|?]|], t2 as [[?|?]|],
    fla as [[?|?]|]; try contradiction;
    intros [o wd] Hs; cbn; revert o wd Hs; solve_started.
Qed.

(** With the input mode [NUMPY] the geometry is the identity and no
    header, and the warning is logged. *)
Lemma reference_geometry_numpy :
  triple (validated_numpy fs0 log0 cfg0) AuroraInferer.reference_geometry
    (fun g s => warned fs0 log0 cfg0 s /\ g = (np_eye4, None))
    (validated_numpy fs0 log0 cfg0).
Proof.
  intros [o wd] Hs. pose proof Hs as [Hst Him].
  unfold AuroraInferer.reference_geometry, log.
  cbn [fst snd] in Him.
  run_rw ltac:(rewrite ?Him). cbn.
  split; [|reflexivity].
  unfold warned, validated_numpy, started in *. cbn in *.
  destruct Hst as (Hg & (l & Hl) & Hc).
  repeat split; auto.
  - exists (l ++ [numpy_warning]). rewrite Hl, app_assoc. reflexivity.
  - exists (l ++ [numpy_warning]). rewrite Hl, app_assoc.
    split; [reflexivity|]. apply in_or_app. right. left. reflexivity.
Qed.

Lemma save_as_nifti_numpy post :
  triple (validated_numpy fs0 log0 cfg0) (AuroraInferer._save_as_nifti post)
    (fun _ => warned fs0 log0 cfg0) (validated_numpy fs0 log0 cfg0).
Proof.
  unfold AuroraInferer._save_as_nifti.
  eapply triple_bind; [apply reference_geometry_numpy|].
  intros g. apply triple_assume. intros ->.
  apply keeps_triple; [|exact warned_validated].
  apply keeps_for_each. intros item _. apply save_output_warned.
Qed.

Lemma route_outputs_numpy post :
  triple (validated_numpy fs0 log0 cfg0)
    (AuroraInferer.route_outputs cfg0 post)
    (fun _ s => validated_numpy fs0 log0 cfg0 s /\
                (output_mode cfg0 = NIFTI_FILE -> warned fs0 log0 cfg0 s))
    (validated_numpy fs0 log0 cfg0).
Proof.
  unfold AuroraInferer.route_outputs.
  destruct (output_mode cfg0) eqn:Hmode; cbn [DataMode_eqb].
  - eapply triple_bind; [apply save_as_nifti_numpy|].
    intros u. apply triple_ret. intros s Hs.
    split; [apply warned_validated|]; auto.
  - eapply triple_conseq with (P := validated_numpy fs0 log0 cfg0)
      (Q := fun _ => validated_numpy fs0 log0 cfg0)
      (X := validated_numpy fs0 log0 cfg0).
    + change (keeps (validated_numpy fs0 log0 cfg0)
        (postprocessed_data <-
           (if negb (include_whole_network_in_numpy_output_mode cfg0)
            then lift_result (dict_pop post WHOLE_NETWORK)
            else ret post) ;;
         postprocessed_data0 <-
           (if negb (include_metastasis_network_in_numpy_output_mode cfg0)
            then lift_result (dict_pop postprocessed_data METASTASIS_NETWORK)
            else ret postprocessed_data) ;;
         ret (Some postprocessed_data0))).
      keeps_auto solve_started.
    + auto.
    + intros _ s Hs. split; [exact Hs | discriminate].
    + auto.
Qed.

Lemma get_config_validated (X : St -> Prop) :
  triple (validated_numpy fs0 log0 cfg0) (self_get config)
    (fun cfg s => validated_numpy fs0 log0 cfg0 s /\ cfg = cfg0) X.
Proof.
  intros s Hs. cbn. split; [exact Hs|]. destruct Hs as ((_ & _ & Hc) & _).
  exact Hc.
Qed.

Lemma sliding_window_inference_numpy :
  triple (validated_numpy fs0 log0 cfg0)
    AuroraInferer._sliding_window_inference
    (fun _ s => validated_numpy fs0 log0 cfg0 s /\
                (output_mode cfg0 = NIFTI_FILE -> warned fs0 log0 cfg0 s))
    (validated_numpy fs0 log0 cfg0).
Proof.
  unfold AuroraInferer._sliding_window_inference.
  eapply triple_bind; [apply get_config_validated|].
  intros cfg. apply triple_assume. intros ->.
  do 8 phase_step.
  apply route_outputs_numpy.
Qed.

Lemma infer_numpy (t1 t1c t2 fla : option Image)
  (segmentation_file whole_network_file metastasis_network_file
     : option string) :
  array_or_none t1 -> array_or_none t1c ->
  array_or_none t2 -> array_or_none fla ->
  triple (started fs0 log0 cfg0)
    (AuroraInferer.infer t1 t1c t2 fla segmentation_file whole_network_file
       metastasis_network_file)
    (fun _ s => started fs0 log0 cfg0 s /\
                (output_mode cfg0 = NIFTI_FILE -> warned fs0 log0 cfg0 s))
    (started fs0 log0 cfg0).
Proof.
  intros H1 H2 H3 H4. unfold AuroraInferer.infer.
  do 5 phase_step.
  eapply triple_bind; [apply validate_images_numpy; assumption|].
  intros images.
  do 9 phase_step.
  eapply triple_conseq; [apply sliding_window_inference_numpy | auto | |].
  - intros r s [Hv Hw]. split; [apply validated_started; exact Hv | exact Hw].
  - exact validated_started.
Qed.

End NumpyGeometry.

(** C9.  A call whose inputs are in-memory arrays adds to the file system
    only entries that are not volumes or are volumes with the 4x4 identity
    as affine and no header; in file output mode a call that returns has
    logged the warning about the default geometry during the call. *)
Theorem numpy_inputs_identity_geometry {E : Externals}
  (t1 t1c t2 fla : option Image)
  (segmentation_file whole_network_file metastasis_network_file
     : option string) (s : St) :
  array_or_none t1 -> array_or_none t1c ->
  array_or_none t2 -> array_or_none fla ->
  let run := AuroraInferer.infer t1 t1c t2 fla segmentation_file
               whole_network_file metastasis_network_file s in
  grows_by (written_with np_eye4 None) (files (snd s))
    (files (snd (fst run)))
  /\ (output_mode (config (fst s)) = NIFTI_FILE ->
      forall r, snd run = Ok r ->
      exists l, log_records (snd (fst run)) = log_records (snd s) ++ l
                /\ In numpy_warning l).
Proof.
  intros H1 H2 H3 H4 run.
  pose proof (infer_numpy (files (snd s)) (log_records (snd s))
                (config (fst s)) t1 t1c t2 fla segmentation_file
                whole_network_file metastasis_network_file H1 H2 H3 H4 s)
    as Hrun.
  assert (Hs : started (files (snd s)) (log_records (snd s))
                 (config (fst s)) s).
  { split; [apply grows_by_refl|]. split; [|reflexivity].
    exists []. symmetry. apply app_nil_r. }
  specialize (Hrun Hs). fold run in Hrun.
  destruct (snd run) as [r|e].
  - destruct Hrun as [(Hg & _) Hw]. split; [exact Hg|].
    intros Hmode r' _. destruct (Hw Hmode) as [_ Hl]. exact Hl.
  - destruct Hrun as (Hg & _). split; [exact Hg|]. discriminate.
Qed.

(** ** Output geometry after file inputs *)

Section ReferenceGeometry.

Context {E : Externals}.

Ltac solve_grows :=
  intros; cbn in *;
  first [ assumption
        | apply grows_by_cons;
          [unfold written_with; cbn; repeat split | assumption] ].

Lemma save_output_grows (aff : ndarray float) (hdr : option Header)
  (fs0 : list (string * FileContent)) (item : Output * ndarray Z) :
  keeps (fun s => grows_by (written_with aff hdr) fs0 (files (snd s)))
    (AuroraInferer.save_output (aff, hdr) item).
Proof. keeps_auto solve_grows. Qed.

(** With file inputs the geometry is read from the file of the first image
    that is not [None]. *)
Lemma reference_geometry_files (s : St) (imgs : list (option Image))
  (p : string) (rest : list Image) (ref : NiftiImage) :
  input_mode (fst s) = Some NIFTI_FILE ->
  validated_images (fst s) = Some imgs ->
  not_none imgs = File p :: rest ->
  lookup_file (files (snd s)) p = Some (NiftiFile ref) ->
  AuroraInferer.reference_geometry s = (s, Ok (affine ref, header ref)).
Proof.
  destruct s as [o wd]. cbn [fst snd]. intros Him Hv Hn Hf.
  unfold AuroraInferer.reference_geometry, AuroraInferer._get_not_none_files,
    nib_load.
  run_rw ltac:(rewrite ?Him, ?Hv, ?Hn, ?Hf; cbn [DataMode_eqb]).
  reflexivity.
Qed.

Lemma save_as_nifti_files (s : St) (post : PostProc)
  (imgs : list (option Image)) (p : string) (rest : list Image)
  (ref : NiftiImage) :
  input_mode (fst s) = Some NIFTI_FILE ->
  validated_images (fst s) = Some imgs ->
  not_none imgs = File p :: rest ->
  lookup_file (files (snd s)) p = Some (NiftiFile ref) ->
  grows_by (written_with (affine ref) (header ref)) (files (snd s))
    (files (snd (fst (AuroraInferer._save_as_nifti post s)))).
Proof.
  intros Him Hv Hn Hf.
  unfold AuroraInferer._save_as_nifti, bind.
  rewrite (reference_geometry_files s imgs p rest ref Him Hv Hn Hf).
  pose proof (keeps_for_each
    (fun s' => grows_by (written_with (affine ref) (header ref))
                 (files (snd s)) (files (snd s')))
    post
    (fun item (_ : unit) =>
       AuroraInferer.save_output (affine ref, header ref) item) tt
    (fun item _ => save_output_grows (affine ref) (header ref)
                     (files (snd s)) item)
    s (grows_by_refl _ _)) as H.
  cbv beta iota in *.
  match type of H with
  | match snd ?run with _ => _ end =>
      change (grows_by (written_with (affine ref) (header ref))
                (files (snd s)) (files (snd (fst run))));
      destruct run as [s' [u|e]]; cbn [fst snd] in *; exact H
  end.
Qed.

Lemma legacy_reference_file (self : Legacy.AuroraInferer) :
  Legacy.reference_file (Legacy.data_dict self) =
  match Legacy.t1c_file self, Legacy.fla_file self, Legacy.t1_file self with
  | Some p, _, _ => Ok p
  | None, Some p, _ => Ok p
  | None, None, Some p => Ok p
  | None, None, None => Raise (KeyError "t1")
  end.
Proof.
  unfold Legacy.reference_file, Legacy.data_dict.
  destruct (Legacy.t1_file self), (Legacy.t1c_file self),
    (Legacy.t2_file self), (Legacy.fla_file self); reflexivity.
Qed.

(** C4, amended.  In [AuroraInferer._save_as_nifti], with file inputs, every
    volume written carries the affine and the header of the file of the
    first validated image that is not [None], and the validated images are
    in the order T1, T1C, T2, FLAIR: the reference is the first channel
    present in that order.  The priority T1C, else FLAIR, else T1 is the
    choice of the reference file in [_infer] of the older module. *)
Theorem reference_channel_priority (s : St) (post : PostProc)
  (imgs : list (option Image)) (p : string) (rest : list Image)
  (ref : NiftiImage) :
  input_mode (fst s) = Some NIFTI_FILE ->
  validated_images (fst s) = Some imgs ->
  not_none imgs = File p :: rest ->
  lookup_file (files (snd s)) p = Some (NiftiFile ref) ->
  grows_by (written_with (affine ref) (header ref)) (files (snd s))
    (files (snd (fst (AuroraInferer._save_as_nifti post s))))
  /\ (forall t1 t1c t2 fla : option Image,
        hd_error (not_none [t1; t1c; t2; fla]) =
        first_present t1 t1c t2 fla)
  /\ (forall self : Legacy.AuroraInferer,
        Legacy.reference_file (Legacy.data_dict self) =
        match Legacy.t1c_file self, Legacy.fla_file self,
              Legacy.t1_file self with
        | Some p, _, _ => Ok p
        | None, Some p, _ => Ok p
        | None, None, Some p => Ok p
        | None, None, None => Raise (KeyError "t1")
        end).
Proof.
  intros Hmode Hv Hp Href.
  split; [exact (save_as_nifti_files s post imgs p rest ref Hmode Hv Hp Href)|].
  split; [|exact legacy_reference_file].
  intros [?|] [?|] [?|] [?|]; reflexivity.
Qed.

End ReferenceGeometry.

(** ** The model cache across calls *)

Ltac solve_cache := intros; unfold cache in *; cbn in *; assumption.

(** A step that keeps the cache as it is. *)
Ltac cache_step :=
  eapply triple_bind;
  [ apply keeps_triple; [ keeps_auto solve_cache | intros; exact I ]
  | intros ? ].

Tactic Notation "cache_step" "as" ident(x) :=
  eapply triple_bind;
  [ apply keeps_triple; [ keeps_auto solve_cache | intros; exact I ]
  | intros x ].

Lemma option_string_eqb_eq (a b : option string) :
  AuroraInferer.option_string_eqb a b = true <-> a = b.
Proof.
  destruct a as [x|], b as [y|]; cbn; split; intros H;
    try discriminate; try reflexivity.
  - apply String.eqb_eq in H. congruence.
  - injection H as ->. apply String.eqb_refl.
Qed.

Section Cache.

Context {E : Externals}.

Lemma validate_image_cache p x l (d : option Image) :
  triple (cache p x l) (AuroraInferer._validate_image d)
    (fun r s => cache p x l s /\ r = validated d) anything.
Proof.
  destruct d as [[path|a]|]; unfold AuroraInferer._validate_image.
  - cache_step as ex.
    destruct (negb ex); [apply triple_raise; intros; exact I|].
    destruct (negb _); [apply triple_raise; intros; exact I|].
    cache_step as u. apply triple_ret. auto.
  - cache_step as u. apply triple_ret. auto.
  - apply triple_ret. auto.
Qed.

(** Validation keeps the cache and returns an image where one was given. *)
Lemma validate_images_cache p x l (t1 t1c t2 fla : option Image) :
  triple (cache p x l) (AuroraInferer._validate_images t1 t1c t2 fla)
    (fun images s =>
       cache p x l s /\
       map AuroraInferer.is_not_none images =
       map AuroraInferer.is_not_none [t1; t1c; t2; fla])
    anything.
Proof.
  unfold AuroraInferer._validate_images.
  eapply triple_bind.
  { apply triple_map_M_fun with (g := validated).
    intros d. apply validate_image_cache. }
  intros images. apply triple_assume. intros ->.
  destruct (negb _); [apply triple_raise; intros; exact I|].
  destruct (negb _); [apply triple_raise; intros; exact I|].
  cache_step as u.
  apply triple_ret. intros s Hs. split; [exact Hs|].
  destruct t1 as [[?|?]|], t1c as [[?|?]|], t2 as [[?|?]|],
    fla as [[?|?]|]; reflexivity.
Qed.

(** The mode returned is the entry of the table for the channels present. *)
Lemma determine_mode_cache p x l (images : list (option Image))
  (b1 b2 b3 b4 : bool) :
  map AuroraInferer.is_not_none images = [b1; b2; b3; b4] ->
  triple (cache p x l) (AuroraInferer._determine_inference_mode images)
    (fun imode s =>
       cache p x l s /\ IMGS_TO_MODE_DICT (b1, b2, b3, b4) = Some imode)
    anything.
Proof.
  intros Hp. unfold AuroraInferer._determine_inference_mode. rewrite Hp.
  cache_step as u.
  destruct (IMGS_TO_MODE_DICT (b1, b2, b3, b4)) as [imode|].
  - cache_step as u'. apply triple_ret. auto.
  - apply triple_raise. intros; exact I.
Qed.

Lemma torch_load_cache p x l (path : string) :
  triple (cache p x l) (torch_load path)
    (fun _ => cache p x (l ++ [path])) anything.
Proof.
  unfold torch_load.
  eapply triple_bind with (R := fun _ => cache p x (l ++ [path])).
  { apply triple_modify. intros [o wd] (H1 & H2 & H3).
    unfold cache in *. cbn in *. subst l. auto. }
  intros u. apply keeps_triple; [keeps_auto solve_cache | intros; exact I].
Qed.

(** A [_get_model] that returns has handed exactly one archive to
    [torch.load]. *)
Lemma get_model_cache p x l :
  triple (cache p x l) AuroraInferer._get_model
    (fun _ s => exists path, cache p x (l ++ [path]) s) anything.
Proof.
  unfold AuroraInferer._get_model.
  cache_step as files1. cache_step as folder. cache_step as imode_opt.
  cache_step as cfg. cache_step as imode. cache_step as ex.
  destruct (negb ex); [apply triple_raise; intros; exact I|].
  cache_step as dev.
  eapply triple_bind; [apply torch_load_cache|].
  intros ck.
  eapply triple_conseq with
    (Q := fun _ =>
            cache p x (l ++ [AuroraInferer.weights_path_of folder imode cfg]))
    (X := anything).
  - apply keeps_triple; [keeps_auto solve_cache | intros; exact I].
  - auto.
  - intros m s Hs. eexists. exact Hs.
  - auto.
Qed.

(** The inference proper leaves the cache as it is: the handle it stores
    is the one it has read. *)
Lemma sliding_window_inference_cache p x l :
  keeps (cache p x l) AuroraInferer._sliding_window_inference.
Proof.
  unfold AuroraInferer._sliding_window_inference.
  apply keeps_bind; [keeps_auto solve_cache|]. intros cfg.
  apply keeps_bind; [keeps_auto solve_cache|]. intros dev.
  eapply triple_bind; [apply triple_getattr|].
  intros m.
  eapply triple_bind with (R := fun _ => cache p x l).
  { apply triple_modify. intros [o wd] ((H1 & H2 & H3) & Hm).
    unfold cache in *. cbn in *. repeat split; congruence. }
  intros u. change (keeps (cache p x l)
    (dl <- getattr "data_loader" data_loader ;;
     images <- AuroraInferer.next_batch dl ;;
     outputs <- AuroraInferer.raw_outputs cfg
                  (AuroraInferer.make_inferer cfg dev) images ;;
     self <- self_get (fun o => o) ;;
     postprocessed_data <-
       lift_result (AuroraInferer._post_process self outputs) ;;
     AuroraInferer.route_outputs cfg postprocessed_data)).
  keeps_auto solve_cache.
Qed.

(** A call that returns has resolved a mode; it reloaded once when the
    mode differs from the one resolved before, and left handle and loads
    alone otherwise. *)
Lemma infer_cache p x l (t1 t1c t2 fla : option Image)
  (segmentation_file whole_network_file metastasis_network_file
     : option string) :
  triple (cache p x l)
    (AuroraInferer.infer t1 t1c t2 fla segmentation_file whole_network_file
       metastasis_network_file)
    (fun _ s =>
       exists imode,
         IMGS_TO_MODE_DICT
           (AuroraInferer.is_not_none t1, AuroraInferer.is_not_none t1c,
            AuroraInferer.is_not_none t2, AuroraInferer.is_not_none fla)
         = Some imode /\
         cache_after p x l imode s)
    anything.
Proof.
  unfold AuroraInferer.infer.
  do 4 cache_step.
  eapply triple_bind; [apply triple_self_get|].
  intros prev_mode.
  eapply triple_conseq with
    (P := fun s => cache p x l s /\ prev_mode = p)
    (Q := fun _ s => exists imode,
            IMGS_TO_MODE_DICT
              (AuroraInferer.is_not_none t1, AuroraInferer.is_not_none t1c,
               AuroraInferer.is_not_none t2, AuroraInferer.is_not_none fla)
            = Some imode /\ cache_after p x l imode s)
    (X := anything).
  2: { intros s [Hc ->]. split; [exact Hc|]. destruct Hc as (H & _). exact H. }
  2: { intros ? ? H; exact H. }
  2: { intros ? H; exact H. }
  apply triple_assume. intros ->.
  eapply triple_bind; [apply validate_images_cache|].
  intros images. apply triple_assume. intros Hpres. cbn [map] in Hpres.
  cache_step as u0.
  eapply triple_bind;
    [apply (determine_mode_cache p x l images _ _ _ _ Hpres)|].
  intros imode. apply triple_assume. intros Hmode.
  eapply triple_bind with (R := fun _ => cache (Some imode) x l).
  { apply triple_modify. intros [o wd] (H1 & H2 & H3).
    unfold cache in *. cbn in *. auto. }
  intros u.
  (* the model step *)
  eapply triple_bind with
    (R := fun _ s => exists x' l',
            cache (Some imode) x' l' s /\
            ((p = Some imode /\ x' = x /\ l' = l) \/
             (p <> Some imode /\ exists path, l' = l ++ [path]))).
  { destruct (AuroraInferer.option_string_eqb p (Some imode)) eqn:Heq;
      cbn [negb].
    - apply option_string_eqb_eq in Heq.
      eapply triple_conseq with (Q := fun _ => cache (Some imode) x l)
        (X := anything);
        [apply keeps_triple; [keeps_auto solve_cache | intros; exact I]
        | auto | | auto].
      intros _ s Hs. exists x, l. split; [exact Hs|]. left. auto.
    - assert (Hne : p <> Some imode).
      { intros Hp. apply option_string_eqb_eq in Hp. congruence. }
      cache_step as u1.
      eapply triple_bind; [apply get_model_cache|].
      intros m. apply triple_exists. intros path.
      apply triple_modify. intros [o wd] (H1 & H2 & H3).
      exists (Some m), (l ++ [path]). unfold cache in *. cbn in *.
      split; [auto|]. right. split; [exact Hne|]. exists path. reflexivity. }
  intros u'. apply triple_exists. intros x'. apply triple_exists. intros l'.
  apply triple_assume. intros Hcase.
  eapply triple_conseq with (Q := fun _ => cache (Some imode) x' l')
    (X := anything).
  2: { intros ? H; exact H. }
  2: { intros r s (H1 & H2 & H3). exists imode. split; [exact Hmode|].
       split; [exact H1|].
       destruct Hcase as [(Hp & -> & ->) | (Hp & path & ->)].
       - left. auto.
       - right. split; [exact Hp|]. exists path. exact H3. }
  2: { intros ? H; exact H. }
  do 5 cache_step.
  apply keeps_triple; [apply sliding_window_inference_cache | intros; exact I].
Qed.

(** *** The archive behind the model handle *)

Lemma triple_and_keeps {S A} (P I : S -> Prop) (c : M S A)
  (Q : A -> S -> Prop) (X : S -> Prop) :
  triple P c Q X -> keeps I c ->
  triple (fun s => P s /\ I s) c (fun a s => Q a s /\ I s) X.
Proof.
  intros H1 H2 s [HP HI]. specialize (H1 s HP). specialize (H2 s HI).
  destruct (snd (c s)); auto.
Qed.

(** Entries that are not archives do not hide an archive, and do not
    stand for one. *)
Lemma lookup_file_archive (fs0 fs : list (string * FileContent))
  (path : string) (ck : Checkpoint) :
  grows_by not_an_archive fs0 fs ->
  lookup_file fs path = Some (CheckpointFile ck) ->
  lookup_file fs0 path = Some (CheckpointFile ck).
Proof.
  intros (added & -> & Hall).
  induction Hall as [|[q c] added Hq Hall IH]; cbn [app lookup_file].
  - auto.
  - destruct (String.eqb q path); [|exact IH].
    intros [= ->]. contradiction.
Qed.

Section Loading.

Variable folder : string.
Variable cfg0 : AuroraInfererConfig.
Variable fs0 : list (string * FileContent).

Ltac solve_loading :=
  intros; unfold cache, archives in *; cbn in *;
  repeat match goal with
         | Hc : _ /\ _ |- _ => destruct Hc
         end;
  repeat split;
  first [ assumption
        | apply grows_by_cons; [exact I | assumption] ].

Ltac loading_step :=
  eapply triple_bind;
  [ apply keeps_triple; [ keeps_auto solve_loading | intros; exact I ]
  | intros ? ].

(** A [_get_model] that returns has handed the archive of the mode to
    [torch.load], once, and returns the network that the archive held when
    the call began. *)
Lemma get_model_loads (imode : InferenceMode) (x : option Model)
  (l : list string) :
  triple
    (fun s => cache (Some imode) x l s /\ archives folder cfg0 fs0 s)
    AuroraInferer._get_model
    (fun m s =>
       (cache (Some imode) x
          (l ++ [AuroraInferer.weights_path_of folder imode cfg0]) s /\
        archives folder cfg0 fs0 s) /\
       archive_network fs0 (AuroraInferer.weights_path_of folder imode cfg0)
       = Some m)
    anything.
Proof.
  intros [o w] ((Hm & Hx & Hl) & (Hf & Hc & Hg)). cbn [fst snd] in *.
  unfold AuroraInferer._get_model, AuroraInferer._get_not_none_files,
    os_path_exists, torch_load.
  run_py.
  destruct (validated_images o) as [imgs|]; [|exact I].
  run_py. rewrite Hm, Hf, Hc. run_py.
  set (path := AuroraInferer.weights_path_of folder imode cfg0).
  destruct (lookup_file (files w) path) as [c|] eqn:Hlook; cbn [negb];
    [|exact I].
  run_py. cbn [files with_torch_loads]. rewrite Hlook.
  destruct c as [img|ck| |]; try exact I.
  pose proof (@lookup_file_archive _ _ path ck Hg Hlook) as H0.
  assert (Hnet : archive_network fs0 path = Some (ck_network ck)).
  { unfold archive_network. rewrite H0. reflexivity. }
  destruct (device o); unfold AuroraInferer.load_state_dict;
    match goal with
    | |- context [if ?b then _ else _] => destruct b
    end; cbn; try exact I;
    (split; [|exact Hnet]); unfold cache, archives; cbn;
    rewrite Hl; auto.
Qed.

(** A call that returns has resolved a mode; when the mode differs from
    the one resolved before, it has loaded the archive of the mode, once,
    and the network of the archive is the model handle; otherwise it left
    handle and loads alone. *)
Lemma infer_loads p x l (t1 t1c t2 fla : option Image)
  (segmentation_file whole_network_file metastasis_network_file
     : option string) :
  triple (fun s => cache p x l s /\ archives folder cfg0 fs0 s)
    (AuroraInferer.infer t1 t1c t2 fla segmentation_file whole_network_file
       metastasis_network_file)
    (fun _ s =>
       exists imode,
         IMGS_TO_MODE_DICT
           (AuroraInferer.is_not_none t1, AuroraInferer.is_not_none t1c,
            AuroraInferer.is_not_none t2, AuroraInferer.is_not_none fla)
         = Some imode /\
         loaded_after folder cfg0 fs0 p x l imode s)
    anything.
Proof.
  unfold AuroraInferer.infer.
  do 4 loading_step.
  eapply triple_bind; [apply triple_self_get|].
  intros prev_mode.
  eapply triple_conseq with
    (P := fun s => (cache p x l s /\ archives folder cfg0 fs0 s) /\
                   prev_mode = p)
    (Q := fun _ s => exists imode,
            IMGS_TO_MODE_DICT
              (AuroraInferer.is_not_none t1, AuroraInferer.is_not_none t1c,
               AuroraInferer.is_not_none t2, AuroraInferer.is_not_none fla)
            = Some imode /\ loaded_after folder cfg0 fs0 p x l imode s)
    (X := anything).
  2: { intros s [Hc ->]. split; [exact Hc|].
       destruct Hc as ((H & _) & _). exact H. }
  2: { intros ? ? H; exact H. }
  2: { intros ? H; exact H. }
  apply triple_assume. intros ->.
  eapply triple_bind.
  { apply triple_and_keeps;
      [apply validate_images_cache | keeps_auto solve_loading]. }
  intros images.
  eapply triple_conseq with
    (P := fun s => (cache p x l s /\ archives folder cfg0 fs0 s) /\
                   map AuroraInferer.is_not_none images =
                   map AuroraInferer.is_not_none [t1; t1c; t2; fla])
    (X := anything).
  2: { intros s ((Hc & Hi) & Ha). auto. }
  2: { intros ? ? H; exact H. }
  2: { intros ? H; exact H. }
  apply triple_assume. intros Hpres. cbn [map] in Hpres.
  loading_step.
  eapply triple_bind.
  { apply triple_and_keeps;
      [apply (determine_mode_cache p x l images _ _ _ _ Hpres)
      | keeps_auto solve_loading]. }
  intros imode.
  eapply triple_conseq with
    (P := fun s => (cache p x l s /\ archives folder cfg0 fs0 s) /\
                   IMGS_TO_MODE_DICT
                     (AuroraInferer.is_not_none t1,
                      AuroraInferer.is_not_none t1c,
                      AuroraInferer.is_not_none t2,
                      AuroraInferer.is_not_none fla) = Some imode)
    (X := anything).
  2: { intros s ((Hc & Hi) & Ha). auto. }
  2: { intros ? ? H; exact H. }
  2: { intros ? H; exact H. }
  apply triple_assume. intros Hmode.
  eapply triple_bind with
    (R := fun _ s => cache (Some imode) x l s /\
                     archives folder cfg0 fs0 s).
  { apply triple_modify. intros [o wd] ((H1 & H2 & H3) & Ha).
    unfold cache, archives in *. cbn in *. auto. }
  intros u.
  (* the model step *)
  set (path := AuroraInferer.weights_path_of folder imode cfg0).
  eapply triple_bind with
    (R := fun _ s => exists x' l',
            cache (Some imode) x' l' s /\
            ((p = Some imode /\ x' = x /\ l' = l) \/
             (p <> Some imode /\ l' = l ++ [path] /\
              exists net,
                archive_network fs0 path = Some net /\ x' = Some net))).
  { destruct (AuroraInferer.option_string_eqb p (Some imode)) eqn:Heq;
      cbn [negb].
    - apply option_string_eqb_eq in Heq.
      eapply triple_conseq with
        (Q := fun _ s => cache (Some imode) x l s /\
                         archives folder cfg0 fs0 s)
        (X := anything);
        [apply keeps_triple; [keeps_auto solve_loading | intros; exact I]
        | auto | | auto].
      intros _ s [Hs _]. exists x, l. split; [exact Hs|]. left. auto.
    - assert (Hne : p <> Some imode).
      { intros Hp. apply option_string_eqb_eq in Hp. congruence. }
      loading_step.
      eapply triple_bind; [apply get_model_loads|].
      intros m. apply triple_assume. intros Hnet.
      apply triple_modify. intros [o wd] ((H1 & H2 & H3) & Ha).
      exists (Some m), (l ++ [path]). unfold cache in *. cbn in *.
      split; [auto|]. right. split; [exact Hne|]. split; [reflexivity|].
      exists m. auto. }
  intros u'. apply triple_exists. intros x'. apply triple_exists. intros l'.
  apply triple_assume. intros Hcase.
  eapply triple_conseq with (Q := fun _ => cache (Some imode) x' l')
    (X := anything).
  2: { intros ? H; exact H. }
  2: { intros r s (H1 & H2 & H3). exists imode. split; [exact Hmode|].
       split; [exact H1|].
       destruct Hcase as [(Hp & -> & ->) | (Hp & -> & net & Hnet & ->)].
       - left. auto.
       - right. split; [exact Hp|]. split; [exact H3|].
         exists net. auto. }
  2: { intros ? H; exact H. }
  do 5 cache_step.
  apply keeps_triple; [apply sliding_window_inference_cache | intros; exact I].
Qed.

End Loading.

(** What [infer_loads] says of one call that returns, from the state the
    call began in. *)
Lemma call_loads (c : Call) (s s' : St) (r : option PostProc) :
  run_call c s = (s', Ok r) ->
  exists m,
    resolved_mode c = Some m /\
    loaded_after (model_weights_folder (fst s)) (config (fst s))
      (files (snd s)) (inference_mode (fst s)) (model (fst s))
      (torch_loads (snd s)) m s'.
Proof.
  intros Hrun.
  pose proof (infer_loads (model_weights_folder (fst s)) (config (fst s))
                (files (snd s)) (inference_mode (fst s)) (model (fst s))
                (torch_loads (snd s)) (call_t1 c) (call_t1c c)
                (call_t2 c) (call_fla c) (call_segmentation_file c)
                (call_whole_network_file c)
                (call_metastasis_network_file c) s) as H.
  unfold run_call in Hrun. rewrite Hrun in H. cbn [fst snd] in H.
  apply H. split.
  - repeat split.
  - repeat split. apply grows_by_refl.
Qed.

(** C3, amended.  Of two consecutive calls of [infer] on one inferer that
    both return, each resolves a mode and records it.  When the two modes
    are the same, the second call hands nothing to [torch.load] and leaves
    the model handle as the first call left it.  When they differ, the
    second call hands exactly one archive to [torch.load], the one of its
    mode under the weights folder, and the model handle becomes the network
    of that archive.  So does the first call when its mode is not the one
    the inferer had recorded before it, as on a new inferer. *)
Theorem model_reuse_between_calls (c1 c2 : Call) (s0 s1 s2 : St)
  (r1 r2 : option PostProc) :
  run_call c1 s0 = (s1, Ok r1) ->
  run_call c2 s1 = (s2, Ok r2) ->
  exists m1 m2,
    resolved_mode c1 = Some m1 /\ resolved_mode c2 = Some m2 /\
    inference_mode (fst s1) = Some m1 /\ inference_mode (fst s2) = Some m2 /\
    (m1 = m2 ->
     model (fst s2) = model (fst s1) /\
     torch_loads (snd s2) = torch_loads (snd s1)) /\
    (m1 <> m2 ->
     torch_loads (snd s2) =
       torch_loads (snd s1) ++
       [AuroraInferer.weights_path_of (model_weights_folder (fst s1)) m2
          (config (fst s1))] /\
     exists net,
       archive_network (files (snd s1))
         (AuroraInferer.weights_path_of (model_weights_folder (fst s1)) m2
            (config (fst s1))) = Some net /\
       model (fst s2) = Some net) /\
    (inference_mode (fst s0) <> Some m1 ->
     torch_loads (snd s1) =
       torch_loads (snd s0) ++
       [AuroraInferer.weights_path_of (model_weights_folder (fst s0)) m1
          (config (fst s0))] /\
     exists net,
       archive_network (files (snd s0))
         (AuroraInferer.weights_path_of (model_weights_folder (fst s0)) m1
            (config (fst s0))) = Some net /\
       model (fst s1) = Some net).
Proof.
  intros Hrun1 Hrun2.
  apply call_loads in Hrun1. destruct Hrun1 as (m1 & Hm1 & Hmode1 & Hcase1).
  apply call_loads in Hrun2. destruct Hrun2 as (m2 & Hm2 & Hmode2 & Hcase2).
  rewrite Hmode1 in Hcase2.
  exists m1, m2. repeat (split; [assumption|]).
  split; [|split].
  - intros Heq. destruct Hcase2 as [(_ & Hx & Hl) | (Hne & _)].
    + auto.
    + congruence.
  - intros Hne. destruct Hcase2 as [(Heq & _) | (_ & Hp)].
    + congruence.
    + exact Hp.
  - intros Hne. destruct Hcase1 as [(Heq & _) | (_ & Hp)].
    + contradiction.
    + exact Hp.
Qed.

End Cache.

(** ** Determinism without test-time augmentation *)

(** ** Rules for [agrees] *)

Section AgreesRules.

Context {S : Type}.
Variable R : S -> S -> Prop.

Lemma agrees_ret {A} (a : A) : agrees R (ret a).
Proof. intros s1 s2 H. cbn. auto. Qed.

Lemma agrees_raise {A} (e : Exn) : agrees R (@raise S A e).
Proof. intros s1 s2 H. cbn. auto. Qed.

Lemma agrees_lift_result {A} (r : result A) : agrees R (lift_result r).
Proof. intros s1 s2 H. cbn. auto. Qed.

Lemma agrees_bind {A B} (c : M S A) (k : A -> M S B) :
  agrees R c -> (forall a, agrees R (k a)) -> agrees R (bind c k).
Proof.
  intros Hc Hk s1 s2 H. destruct (Hc s1 s2 H) as [Hres Hst]. unfold bind.
  destruct (c s1) as [t1 r1], (c s2) as [t2 r2]. cbn in *. subst r2.
  destruct r1 as [a|e]; [apply Hk; exact Hst | cbn; auto].
Qed.

Lemma agrees_modify (f : S -> S) :
  (forall s1 s2, R s1 s2 -> R (f s1) (f s2)) -> agrees R (modify f).
Proof. intros Hf s1 s2 H. cbn. auto. Qed.

Lemma agrees_for_each {X Acc} (l : list X) (body : X -> Acc -> M S Acc)
  (acc : Acc) :
  (forall x a, agrees R (body x a)) -> agrees R (for_each l body acc).
Proof.
  intros Hb. revert acc. induction l as [|x l IH]; intros acc; cbn [for_each].
  - apply agrees_ret.
  - apply agrees_bind; [apply Hb | intros a; apply IH].
Qed.

Lemma agrees_map_M {X Y} (f : X -> M S Y) (l : list X) :
  (forall x, agrees R (f x)) -> agrees R (map_M f l).
Proof.
  intros Hf. induction l as [|x l IH]; cbn [map_M].
  - apply agrees_ret.
  - apply agrees_bind; [apply Hf | intros y].
    apply agrees_bind; [exact IH | intros ys; apply agrees_ret].
Qed.

End AgreesRules.

Lemma agrees_self_get {A} (f : Inferer -> A) : agrees same_inputs (self_get f).
Proof. intros s1 s2 H. cbn. split; [|exact H]. destruct H as (-> & _). reflexivity. Qed.

Lemma agrees_getattr {A} (name : string) (f : Inferer -> option A) :
  agrees same_inputs (getattr name f).
Proof.
  intros s1 s2 H. pose proof H as (Ho & _). unfold getattr. rewrite Ho.
  destruct (f (fst s2)); cbn; auto.
Qed.

Lemma agrees_world_get {A} (f : World -> A) :
  (forall w1 w2, files w1 = files w2 -> f w1 = f w2) ->
  agrees same_inputs (world_get f).
Proof.
  intros Hf s1 s2 H. pose proof H as (_ & Hfs & _). cbn.
  rewrite (Hf _ _ Hfs). auto.
Qed.

Lemma agrees_setattr (upd : Inferer -> Inferer) :
  (forall o, config (upd o) = config o) ->
  agrees same_inputs (setattr upd).
Proof.
  intros Hc. apply agrees_modify. intros [o1 w1] [o2 w2] (Ho & Hf & Ht).
  unfold same_inputs. cbn [fst snd] in *. subst o2.
  split; [reflexivity|]. split; [exact Hf|]. rewrite Hc. exact Ht.
Qed.

Lemma agrees_world_modify (upd : World -> World) :
  (forall w1 w2, files w1 = files w2 -> files (upd w1) = files (upd w2)) ->
  agrees same_inputs (world_modify upd).
Proof.
  intros Hu. apply agrees_modify. intros [o1 w1] [o2 w2] (Ho & Hf & Ht).
  unfold same_inputs. cbn [fst snd] in *.
  split; [exact Ho|]. split; [apply Hu; exact Hf | exact Ht].
Qed.

Lemma agrees_bind_config {A} (k : AuroraInfererConfig -> Py A) :
  (forall cfg, tta cfg = false -> agrees same_inputs (k cfg)) ->
  agrees same_inputs (bind (self_get config) k).
Proof.
  intros Hk s1 s2 H. pose proof H as (Ho & _ & Ht).
  unfold bind, self_get. cbn [fst snd]. rewrite <- Ho.
  apply Hk; assumption.
Qed.

Ltac agrees_step :=
  lazymatch goal with
  | |- agrees _ (bind (self_get config) _) =>
      apply agrees_bind_config; intros ? ?
  | |- agrees _ (bind _ _) => apply agrees_bind; [|intros ?]
  | |- agrees _ (ret _) => apply agrees_ret
  | |- agrees _ (raise _) => apply agrees_raise
  | |- agrees _ (lift_result _) => apply agrees_lift_result
  | |- agrees _ (self_get _) => apply agrees_self_get
  | |- agrees _ (getattr _ _) => apply agrees_getattr
  | |- agrees _ (world_get _) =>
      apply agrees_world_get;
      let H := fresh in intros ? ? H; cbn; rewrite ?H; reflexivity
  | |- agrees _ (setattr _) => apply agrees_setattr; intros ?; reflexivity
  | |- agrees _ (world_modify _) =>
      apply agrees_world_modify;
      let H := fresh in intros ? ? H; cbn; rewrite ?H; reflexivity
  | |- agrees _ (log _ _) => unfold log
  | |- agrees _ (for_each _ _ _) => apply agrees_for_each; intros ? ?
  | |- agrees _ (map_M _ _) => apply agrees_map_M; intros ?
  | |- agrees _ (if tta ?c then _ else _) =>
      match goal with
      | H : tta c = false |- _ => rewrite H
      end
  | |- agrees _ (if ?b then _ else _) => destruct b
  | |- agrees _ (match ?x with _ => _ end) => destruct x
  | |- agrees _ ?c => let h := head_of c in unfold h
  end.

Ltac agrees_auto := repeat first [ progress cbv beta iota | agrees_step ].

Section Determinism.

Context {E : Externals}.

Lemma infer_agrees (t1 t1c t2 fla : option Image)
  (segmentation_file whole_network_file metastasis_network_file
     : option string) :
  agrees same_inputs
    (AuroraInferer.infer t1 t1c t2 fla segmentation_file whole_network_file
       metastasis_network_file).
Proof. agrees_auto. Qed.

(** C10.  With [tta] off, two calls of [infer] with the same arguments, on
    the same inferer object (configuration, cached mode and model) and the
    same file system, end the same way: they return the same volumes or
    raise the same exception, and leave the same object and the same file
    system, whatever the states of the entropy source, of the log and of
    the traces are. *)
Theorem infer_deterministic_without_tta (c : Call) (s1 s2 : St) :
  fst s1 = fst s2 ->
  files (snd s1) = files (snd s2) ->
  tta (config (fst s1)) = false ->
  snd (run_call c s1) = snd (run_call c s2) /\
  fst (fst (run_call c s1)) = fst (fst (run_call c s2)) /\
  files (snd (fst (run_call c s1))) = files (snd (fst (run_call c s2))).
Proof.
  intros Ho Hf Ht.
  destruct (infer_agrees (call_t1 c) (call_t1c c) (call_t2 c) (call_fla c)
              (call_segmentation_file c) (call_whole_network_file c)
              (call_metastasis_network_file c) s1 s2
              (conj Ho (conj Hf Ht))) as [Hres (Ho' & Hf' & _)].
  unfold run_call. auto.
Qed.

End Determinism.

(** ** Further properties of the methods *)

Section Further.

Context {E : Externals}.

(** A call without any image: the validation ends in the assertion on the
    number of images, and leaves the object and the world as they are. *)
Theorem validate_images_without_inputs (s : St) :
  AuroraInferer._validate_images None None None None s =
  (s, Raise (AssertionError "No input images provided")).
Proof. destruct s. reflexivity. Qed.

(** A path that does not exist ends the validation in a
    [FileNotFoundError] that names it, before the later images are looked
    at. *)
Theorem validate_images_missing_file (p : string)
  (t1c t2 fla : option Image) (s : St) :
  lookup_file (files (snd s)) p = None ->
  AuroraInferer._validate_images (Some (File p)) t1c t2 fla s =
  (s, Raise (FileNotFoundError
               (String.append "File " (String.append p " not found")))).
Proof.
  intros H. destruct s as [o w]. cbn [snd] in H.
  unfold AuroraInferer._validate_images, AuroraInferer._validate_image.
  cbn [map_M]. unfold os_path_exists. run_py. rewrite H. reflexivity.
Qed.

(** A combination of channels that the table does not list ends the
    resolution of the mode in a [NotImplementedError]. *)
Theorem determine_inference_mode_unsupported (t1 t1c t2 fla : option Image)
  (s : St) :
  IMGS_TO_MODE_DICT
    (AuroraInferer.is_not_none t1, AuroraInferer.is_not_none t1c,
     AuroraInferer.is_not_none t2, AuroraInferer.is_not_none fla) = None ->
  snd (AuroraInferer._determine_inference_mode [t1; t1c; t2; fla] s) =
  Raise (NotImplementedError
           "No model implemented for this combination of images").
Proof.
  intros H. destruct s as [o w].
  unfold AuroraInferer._determine_inference_mode. cbn [map].
  unfold log. run_py. rewrite H. reflexivity.
Qed.

(** In array output mode the call returns the segmentation, and the outputs
    of the two networks only when the configuration asks for them; nothing
    is written. *)
Theorem numpy_output_selection (cfg : AuroraInfererConfig)
  (seg whole meta : ndarray Z) (s : St) :
  output_mode cfg = NUMPY ->
  AuroraInferer.route_outputs cfg
    [(SEGMENTATION, seg); (WHOLE_NETWORK, whole); (METASTASIS_NETWORK, meta)]
    s =
  (s, Ok (Some
     ([(SEGMENTATION, seg)]
      ++ (if include_whole_network_in_numpy_output_mode cfg
          then [(WHOLE_NETWORK, whole)] else [])
      ++ (if include_metastasis_network_in_numpy_output_mode cfg
          then [(METASTASIS_NETWORK, meta)] else [])))).
Proof.
  intros H. destruct s as [o w]. unfold AuroraInferer.route_outputs.
  rewrite H.
  destruct (include_whole_network_in_numpy_output_mode cfg),
    (include_metastasis_network_in_numpy_output_mode cfg); reflexivity.
Qed.

End Further.

(** ** Destinations without a directory part *)

Lemma rsplit_char_absent (c : ascii) (s : string) :
  contains_char c s = false -> rsplit_char c s = (EmptyString, s).
Proof.
  induction s as [|a r IH]; cbn; [reflexivity|].
  intros H. apply orb_false_iff in H. destruct H as [Ha Hr].
  rewrite (IH Hr), Ha. reflexivity.
Qed.

Lemma rsplit_char_app (c : ascii) (s h t : string) :
  rsplit_char c s = (h, t) -> s = String.append h t.
Proof.
  revert h t. induction s as [|a r IH]; cbn; intros h t H.
  - injection H as <- <-. reflexivity.
  - destruct (rsplit_char c r) as [h' t'].
    specialize (IH h' t' eq_refl). subst r.
    destruct (Ascii.eqb a c).
    + injection H as <- <-. reflexivity.
    + destruct (String.eqb h' EmptyString) eqn:He.
      * apply String.eqb_eq in He. subst h'. injection H as <- <-. reflexivity.
      * injection H as <- <-. reflexivity.
Qed.

Lemma contains_char_app (c : ascii) (a b : string) :
  contains_char c (String.append a b) = contains_char c a || contains_char c b.
Proof.
  induction a as [|x a IH]; cbn; [reflexivity|].
  rewrite IH. apply orb_assoc.
Qed.

Lemma contains_char_substring (c : ascii) (s : string) (n m : nat) :
  contains_char c s = false -> contains_char c (substring n m s) = false.
Proof.
  revert n m. induction s as [|a r IH]; intros n m H.
  - destruct n, m; reflexivity.
  - cbn in H. apply orb_false_iff in H. destruct H as [Ha Hr].
    destruct n as [|n].
    + destruct m as [|m]; cbn; [reflexivity|]. rewrite Ha. apply IH. exact Hr.
    + cbn. apply IH. exact Hr.
Qed.

(** A name without a slash has no directory part, and neither has the name
    with another suffix. *)
Lemma os_path_dirname_no_slash (p : string) :
  contains_char "/"%char p = false -> os_path_dirname p = EmptyString.
Proof.
  intros H. unfold os_path_dirname. rewrite (rsplit_char_absent _ _ H).
  reflexivity.
Qed.

Lemma Path_with_suffix_no_slash (f : string) :
  contains_char "/"%char f = false -> f <> EmptyString -> f <> "." ->
  exists p, Path_with_suffix f ".log" = Ok p /\
            contains_char "/"%char p = false.
Proof.
  intros Hs He Hd. unfold Path_with_suffix.
  rewrite (rsplit_char_absent _ _ Hs).
  destruct (String.eqb f EmptyString) eqn:H1;
    [apply String.eqb_eq in H1; contradiction|].
  destruct (String.eqb f ".") eqn:H2;
    [apply String.eqb_eq in H2; contradiction|].
  cbn [orb].
  destruct (rsplit_char "."%char f) as [h t] eqn:Hr.
  apply rsplit_char_app in Hr.
  assert (Hh : contains_char "/"%char h = false).
  { rewrite Hr, contains_char_app in Hs. apply orb_false_iff in Hs. tauto. }
  eexists. split; [reflexivity|].
  cbn [String.append]. rewrite contains_char_app.
  apply orb_false_iff. split; [|reflexivity].
  destruct (_ && _); [apply contains_char_substring; exact Hh | exact Hs].
Qed.

(** A segmentation file without a directory part, the empty name included:
    the log file next to it has none either, [os.makedirs] is called on the
    empty path, and the call ends in its [FileNotFoundError] with the object
    and the world as before. *)
Theorem infer_segmentation_file_without_directory {E : Externals}
  (t1 t1c t2 fla : option Image) (f : string)
  (whole_network_file metastasis_network_file : option string) (s : St) :
  contains_char "/"%char f = false -> f <> "." ->
  AuroraInferer.infer t1 t1c t2 fla (Some f) whole_network_file
    metastasis_network_file s =
  (s, Raise (FileNotFoundError "[Errno 2] No such file or directory: ''")).
Proof.
  intros Hs Hd.
  destruct (String.eqb f EmptyString) eqn:H1.
  - apply String.eqb_eq in H1. subst f. destruct s. reflexivity.
  - assert (He : f <> EmptyString).
    { intros ->. discriminate. }
    destruct (Path_with_suffix_no_slash f Hs He Hd) as (p & Hp & Hps).
    unfold AuroraInferer.infer, truthy. rewrite H1.
    cbn [negb]. rewrite Hp.
    unfold AuroraInferer._setup_logger. destruct s as [o w]. run_py.
    rewrite (os_path_dirname_no_slash p Hps). reflexivity.
Qed.

(** ** Post-processing of arbitrary raw outputs *)

Lemma firstn_firstn_le {A} (l : list A) (i j : nat) :
  i <= j -> firstn i (firstn j l) = firstn i l.
Proof. intros H. rewrite firstn_firstn. f_equal. lia. Qed.

Lemma size_of_cons (d : nat) (sh : list nat) :
  size_of (d :: sh) = d * size_of sh.
Proof. reflexivity. Qed.

Lemma binarize_binary thr v :
  AuroraInferer.binarize thr v = 0%Z \/ AuroraInferer.binarize thr v = 1%Z.
Proof. unfold AuroraInferer.binarize. destruct (fge v thr); auto. Qed.

Lemma merged_label_binary (w e : Z) :
  (w = 0 \/ w = 1)%Z -> (e = 0 \/ e = 1)%Z ->
  is_label (merged_label w e) /\
  merged_label w e = (if (e =? 1)%Z then 2 else w)%Z.
Proof.
  unfold is_label, merged_label. intros [-> | ->] [-> | ->]; cbn; auto.
Qed.

Lemma Forall_zip_with {A B C} (P : A -> Prop) (Q : B -> Prop) (R : C -> Prop)
  (f : A -> B -> C) (l1 : list A) (l2 : list B) :
  (forall a b, P a -> Q b -> R (f a b)) ->
  Forall P l1 -> Forall Q l2 -> Forall R (zip_with f l1 l2).
Proof.
  intros Hf H1. revert l2. induction H1 as [|a l1 Ha H1 IH]; intros l2 H2.
  - constructor.
  - destruct H2 as [|b l2 Hb H2]; cbn; constructor; auto.
Qed.

Section PostProcessing.

Context {E : Externals}.

(** Post-processing of raw outputs with at least one batch element, at
    least two channels and at least three further axes: the masks are the
    first two channels of the first batch element after activation and
    threshold, and the segmentation is their merge. *)
Lemma post_process_run (self : Inferer) (x : ndarray float) (b c : nat)
  (sh : list nat) :
  shape x = S b :: S (S c) :: sh -> 3 <= length sh ->
  let n := size_of sh in
  let whole := map (activated_bit self) (firstn n (data x)) in
  let enh := map (activated_bit self) (firstn n (skipn n (data x))) in
  AuroraInferer._post_process self x =
  Ok [ (SEGMENTATION,
        mk_ndarray sh (zip_with (fun e w => merged_label w e) enh whole));
       (WHOLE_NETWORK, mk_ndarray sh whole);
       (METASTASIS_NETWORK, mk_ndarray sh enh) ].
Proof.
  intros Hx Hlen n whole enh.
  unfold AuroraInferer._post_process.
  unfold nd_getitem at 1. rewrite Hx. cbn [Nat.ltb Nat.leb result_bind].
  cbn [Nat.mul skipn]. rewrite size_of_cons. fold n.
  cbn [ndim shape length].
  assert (H4 : match length sh with S (S (S _)) => true | _ => false end
               = true).
  { destruct sh as [|d1 [|d2 [|d3 sh']]]; cbn in Hlen; try lia. reflexivity. }
  rewrite H4. cbn [result_bind].
  unfold nd_getitem. cbn [nd_map shape data Nat.ltb Nat.leb result_bind].
  cbn [Nat.mul skipn]. rewrite Nat.add_0_r.
  fold n.
  set (m := n + (n + c * n)).
  assert (Hw : firstn n
                 (map (AuroraInferer.binarize (threshold (config self)))
                    (map sigmoid (firstn m (data x)))) = whole).
  { rewrite map_map, firstn_map, firstn_firstn_le by (unfold m; lia).
    reflexivity. }
  assert (He : firstn n
                 (skipn n
                    (map (AuroraInferer.binarize (threshold (config self)))
                       (map sigmoid (firstn m (data x))))) = enh).
  { rewrite map_map, skipn_map, firstn_map, skipn_firstn_comm,
      firstn_firstn_le by (unfold m; lia).
    reflexivity. }
  rewrite Hw, He.
  rewrite merge_masks_data by reflexivity.
  reflexivity.
Qed.

(** Without a batch element, two channels and three further axes, one of
    the index expressions of [_post_process] is out of range. *)
Lemma post_process_shape_cases (self : Inferer) (x : ndarray float) :
  (exists b c sh, shape x = S b :: S (S c) :: sh /\ 3 <= length sh) \/
  AuroraInferer._post_process self x = Raise IndexError.
Proof.
  unfold AuroraInferer._post_process, nd_getitem at 1.
  destruct (shape x) as [|[|b] rest] eqn:Hx; [right; reflexivity .. |].
  destruct rest as [|c [|d1 [|d2 [|d3 sh]]]]; try (right; reflexivity).
  destruct c as [|[|c]]; [right; reflexivity .. |].
  left. exists b, c, (d1 :: d2 :: d3 :: sh). split; [reflexivity | cbn; lia].
Qed.

(** Raw outputs without a batch element, two channels and three further
    axes: post-processing ends in an [IndexError]. *)
Theorem post_process_index_error (self : Inferer) (x : ndarray float) :
  (forall b c sh, shape x = S b :: S (S c) :: sh -> length sh < 3) ->
  AuroraInferer._post_process self x = Raise IndexError.
Proof.
  intros H.
  destruct (post_process_shape_cases self x) as [(b & c & sh & Hx & Hl) | Hr];
    [|exact Hr].
  specialize (H b c sh Hx). lia.
Qed.

(** Well-formed raw outputs with a batch element, two channels or more and
    three or more further axes: post-processing returns the segmentation and
    the two masks, each of the shape of one channel.  Voxel by voxel, the
    whole-lesion mask is the activated and thresholded first channel of the
    first batch element, the enhancing mask the second channel, and the
    segmentation is 2 where the enhancing mask is 1 and the whole-lesion
    mask elsewhere; later batch elements and channels are not read. *)
Theorem post_process_volumes (self : Inferer) (x : ndarray float) (b c : nat)
  (sh : list nat) :
  shape x = S b :: S (S c) :: sh -> 3 <= length sh -> nd_wf x ->
  exists seg whole enh,
    AuroraInferer._post_process self x =
    Ok [ (SEGMENTATION, seg); (WHOLE_NETWORK, whole);
         (METASTASIS_NETWORK, enh) ] /\
    shape seg = sh /\ shape whole = sh /\ shape enh = sh /\
    nd_wf seg /\ nd_wf whole /\ nd_wf enh /\
    forall i, i < size_of sh ->
      exists v0 v1,
        nth_error (data x) i = Some v0 /\
        nth_error (data x) (size_of sh + i) = Some v1 /\
        nth_error (data whole) i = Some (activated_bit self v0) /\
        nth_error (data enh) i = Some (activated_bit self v1) /\
        nth_error (data seg) i =
          Some (if (activated_bit self v1 =? 1)%Z then 2%Z
                else activated_bit self v0).
Proof.
  intros Hx Hlen Hwf.
  pose proof (post_process_run self x b c sh Hx Hlen) as Hrun.
  cbv zeta in Hrun.
  set (n := size_of sh) in *.
  assert (Hdata : 2 * n <= length (data x)).
  { unfold nd_wf in Hwf. rewrite Hwf, Hx, !size_of_cons. fold n. nia. }
  assert (Hlw : length (map (activated_bit self) (firstn n (data x))) = n).
  { rewrite length_map, length_firstn. lia. }
  assert (Hle : length (map (activated_bit self)
                          (firstn n (skipn n (data x)))) = n).
  { rewrite length_map, length_firstn, length_skipn. lia. }
  do 3 eexists. split; [exact Hrun|].
  cbn [shape data]. unfold nd_wf. cbn [shape data]. fold n.
  repeat split; try reflexivity; try assumption.
  - rewrite zip_with_length, Hlw, Hle. apply Nat.min_id.
  - intros i Hi.
    destruct (nth_error (data x) i) as [v0|] eqn:H0;
      [|apply nth_error_None in H0; lia].
    destruct (nth_error (data x) (n + i)) as [v1|] eqn:H1;
      [|apply nth_error_None in H1; lia].
    assert (Hwi : nth_error (map (activated_bit self) (firstn n (data x))) i
                  = Some (activated_bit self v0)).
    { rewrite nth_error_map, nth_error_firstn.
      destruct (Nat.ltb_spec i n); [|lia]. rewrite H0. reflexivity. }
    assert (Hei : nth_error (map (activated_bit self)
                               (firstn n (skipn n (data x)))) i
                  = Some (activated_bit self v1)).
    { rewrite nth_error_map, nth_error_firstn.
      destruct (Nat.ltb_spec i n); [|lia].
      rewrite nth_error_skipn, H1. reflexivity. }
    exists v0, v1. repeat split; try assumption.
    rewrite zip_with_nth_error, Hei, Hwi. f_equal.
    apply merged_label_binary; apply binarize_binary.
Qed.

(** Whatever the raw outputs are, volumes that post-processing returns hold
    labels and bits only. *)
Lemma post_process_ok (self : Inferer) (x : ndarray float) (post : PostProc) :
  AuroraInferer._post_process self x = Ok post ->
  exists seg whole enh,
    post = [ (SEGMENTATION, seg); (WHOLE_NETWORK, whole);
             (METASTASIS_NETWORK, enh) ] /\
    Forall is_label (data seg) /\ is_binary whole /\ is_binary enh.
Proof.
  intros H.
  destruct (post_process_shape_cases self x) as [(b & c & sh & Hx & Hl) | Hr];
    [|congruence].
  rewrite (post_process_run self x b c sh Hx Hl) in H. injection H as <-.
  assert (Hb : forall l, Forall (fun v => v = 0%Z \/ v = 1%Z)
                           (map (activated_bit self) l)).
  { intros l. apply Forall_map. apply Forall_forall. intros v _.
    apply binarize_binary. }
  do 3 eexists. split; [reflexivity|]. unfold is_binary. cbn [data].
  split; [|split; apply Hb].
  eapply Forall_zip_with; [| apply Hb | apply Hb].
  intros e w He Hw. apply merged_label_binary; assumption.
Qed.

End PostProcessing.

(** ** More rules for [triple] *)

Lemma triple_conj {S A} (P : S -> Prop) (c : M S A)
  (Q1 Q2 : A -> S -> Prop) (X1 X2 : S -> Prop) :
  triple P c Q1 X1 -> triple P c Q2 X2 ->
  triple P c (fun a s => Q1 a s /\ Q2 a s) (fun s => X1 s /\ X2 s).
Proof.
  intros H1 H2 s Hs. specialize (H1 s Hs). specialize (H2 s Hs).
  destruct (snd (c s)); auto.
Qed.

(** A step that keeps an invariant, with nothing said about a raise. *)
Ltac inv_step solver :=
  eapply triple_bind;
  [ apply keeps_triple; [ keeps_auto solver | intros; exact I ]
  | intros ? ].

Tactic Notation "named_step" tactic(solver) "as" ident(x) :=
  eapply triple_bind;
  [ apply keeps_triple; [ keeps_auto solver | intros; exact I ]
  | intros x ].

Lemma triple_lift_result {S A} (P : S -> Prop) (r : result A) :
  triple P (lift_result r) (fun a s => P s /\ r = Ok a) P.
Proof. intros s Hs. cbn. destruct r; auto. Qed.

Lemma triple_weaken_raise {S A} (P : S -> Prop) (c : M S A)
  (Q : A -> S -> Prop) (X : S -> Prop) :
  triple P c Q X -> triple P c Q (fun _ => True).
Proof. intros H. eapply triple_conseq; [exact H | auto | auto | auto]. Qed.

(** A loop whose body advances a counter by [k]. *)
Lemma triple_for_each_count {T X Acc} (I : nat -> T -> Prop) (k : nat)
  (l : list X) (body : X -> Acc -> M T Acc) :
  (forall x acc n,
     triple (I n) (body x acc) (fun _ => I (n + k)) (fun _ => True)) ->
  forall acc n,
    triple (I n) (for_each l body acc) (fun _ => I (n + k * length l))
      (fun _ => True).
Proof.
  intros Hb. induction l as [|x l IH]; intros acc n; cbn [for_each length].
  - apply triple_ret. intros s Hs. rewrite Nat.mul_0_r, Nat.add_0_r. exact Hs.
  - eapply triple_bind; [apply Hb|]. intros acc'.
    eapply triple_conseq; [apply (IH acc' (n + k)) | auto | | auto].
    intros u s Hs. replace (n + k * S (length l)) with (n + k + k * length l)
      by lia. exact Hs.
Qed.

(** ** The cache when a call raises *)

Section FailedCalls.

Context {E : Externals}.

Lemma validate_images_keeps_cache p x l (t1 t1c t2 fla : option Image) :
  keeps (cache p x l) (AuroraInferer._validate_images t1 t1c t2 fla).
Proof. keeps_auto solve_cache. Qed.

Lemma determine_mode_keeps_cache p x l (images : list (option Image)) :
  keeps (cache p x l) (AuroraInferer._determine_inference_mode images).
Proof. keeps_auto solve_cache. Qed.

(** A [_get_model] that raises has handed at most one archive to
    [torch.load], and has left mode and handle alone. *)
Lemma get_model_cache_raise p x l :
  triple (cache p x l) AuroraInferer._get_model
    (fun _ s => exists path, cache p x (l ++ [path]) s)
    (fun s => cache p x l s \/ exists path, cache p x (l ++ [path]) s).
Proof.
  unfold AuroraInferer._get_model.
  pose (X := fun s : St =>
               cache p x l s \/ exists path, cache p x (l ++ [path]) s).
  assert (HX : forall s, cache p x l s -> X s) by (intros s H; left; exact H).
  assert (step : forall A (c : Py A), keeps (cache p x l) c ->
            triple (cache p x l) c (fun _ => cache p x l) X).
  { intros A c Hc. apply keeps_triple; assumption. }
  fold X.
  eapply triple_bind; [apply step; keeps_auto solve_cache|]. intros files1.
  eapply triple_bind; [apply step; keeps_auto solve_cache|]. intros folder.
  eapply triple_bind; [apply step; keeps_auto solve_cache|]. intros imode_opt.
  eapply triple_bind; [apply step; keeps_auto solve_cache|]. intros cfg.
  eapply triple_bind; [apply step; keeps_auto solve_cache|]. intros imode.
  eapply triple_bind; [apply step; keeps_auto solve_cache|]. intros ex.
  destruct (negb ex); [apply triple_raise; exact HX|].
  eapply triple_bind; [apply step; keeps_auto solve_cache|]. intros dev.
  set (path := AuroraInferer.weights_path_of folder imode cfg).
  assert (HX' : forall s, cache p x (l ++ [path]) s -> X s).
  { intros s H. right. exists path. exact H. }
  eapply triple_bind with (R := fun _ => cache p x (l ++ [path])).
  { unfold torch_load.
    eapply triple_bind with (R := fun _ => cache p x (l ++ [path])).
    { apply triple_modify. intros [o wd] (H1 & H2 & H3).
      unfold cache in *. cbn in *. subst l. auto. }
    intros u. apply keeps_triple; [keeps_auto solve_cache | exact HX']. }
  intros ck.
  eapply triple_conseq with (Q := fun _ => cache p x (l ++ [path]))
    (X := cache p x (l ++ [path])).
  - destruct dev; apply (keeps_lift_result (cache p x (l ++ [path]))).
  - auto.
  - intros m s Hs. exists path. exact Hs.
  - exact HX'.
Qed.

Lemma infer_cache_raise p x l (t1 t1c t2 fla : option Image)
  (segmentation_file whole_network_file metastasis_network_file
     : option string) :
  triple (cache p x l)
    (AuroraInferer.infer t1 t1c t2 fla segmentation_file whole_network_file
       metastasis_network_file)
    (fun _ _ => True)
    (cache_on_failure p x l
       (IMGS_TO_MODE_DICT
          (AuroraInferer.is_not_none t1, AuroraInferer.is_not_none t1c,
           AuroraInferer.is_not_none t2, AuroraInferer.is_not_none fla))).
Proof.
  set (resolved := IMGS_TO_MODE_DICT _).
  set (X := cache_on_failure p x l resolved).
  assert (HX : forall s, cache p x l s -> X s).
  { intros s (H1 & H2 & H3). left. auto. }
  assert (step : forall A (c : Py A), keeps (cache p x l) c ->
            triple (cache p x l) c (fun _ => cache p x l) X).
  { intros A c Hc. apply keeps_triple; assumption. }
  unfold AuroraInferer.infer.
  eapply triple_bind; [apply step; keeps_auto solve_cache|]. intros log_path.
  eapply triple_bind; [apply step; keeps_auto solve_cache|]. intros u1.
  eapply triple_bind; [apply step; keeps_auto solve_cache|]. intros dev.
  eapply triple_bind; [apply step; keeps_auto solve_cache|]. intros u2.
  eapply triple_bind; [apply step; keeps_auto solve_cache|]. intros prev_mode.
  eapply triple_bind.
  { eapply triple_conseq;
      [ apply (triple_conj _ _ _ _ _ _
                 (validate_images_cache p x l t1 t1c t2 fla)
                 (validate_images_keeps_cache p x l t1 t1c t2 fla))
      | auto | intros a s H; exact H | intros s [_ H]; apply HX; exact H ]. }
  intros images. cbv beta.
  eapply triple_conseq with
    (P := fun s => cache p x l s /\
            map AuroraInferer.is_not_none images =
            map AuroraInferer.is_not_none [t1; t1c; t2; fla])
    (Q := fun _ _ => True) (X := X).
  2: { intros s ((H & Hm) & _). auto. }
  2: { auto. }
  2: { auto. }
  apply triple_assume. intros Hpres. cbn [map] in Hpres.
  eapply triple_bind; [apply step; keeps_auto solve_cache|]. intros u3.
  eapply triple_bind.
  { eapply triple_conseq;
      [ apply (triple_conj _ _ _ _ _ _
                 (determine_mode_cache p x l images _ _ _ _ Hpres)
                 (determine_mode_keeps_cache p x l images))
      | auto | intros a s H; exact H | intros s [_ H]; apply HX; exact H ]. }
  intros imode. cbv beta.
  eapply triple_conseq with
    (P := fun s => cache p x l s /\ resolved = Some imode)
    (Q := fun _ _ => True) (X := X).
  2: { intros s ((H & Hm) & _). auto. }
  2: { auto. }
  2: { auto. }
  apply triple_assume. intros Hmode.
  assert (HX1 : forall s, cache (Some imode) x l s -> X s).
  { intros s (H1 & H2 & H3). left. split; [exact H2|]. split; [exact H3|].
    right. exists imode. auto. }
  assert (HX2 : forall s x' path, cache (Some imode) x' (l ++ [path]) s -> X s).
  { intros s x' path (H1 & H2 & H3). right. exists path. exact H3. }
  eapply triple_bind with (R := fun _ => cache (Some imode) x l).
  { apply triple_modify. intros [o wd] (H1 & H2 & H3).
    unfold cache in *. cbn in *. auto. }
  intros u4.
  eapply triple_bind with
    (R := fun _ s => exists x' l',
            cache (Some imode) x' l' s /\
            ((x' = x /\ l' = l) \/ exists path, l' = l ++ [path])).
  { destruct (negb _).
    - eapply triple_bind;
        [apply keeps_triple; [keeps_auto solve_cache | exact HX1]|].
      intros u5.
      eapply triple_bind.
      { eapply triple_conseq;
          [ apply (get_model_cache_raise (Some imode) x l)
          | auto | intros a s H; exact H |].
        intros s [H | (path & H)]; [apply HX1; exact H | eapply HX2; exact H]. }
      intros m. apply triple_exists. intros path.
      apply triple_modify. intros [o wd] (H1 & H2 & H3).
      exists (Some m), (l ++ [path]). unfold cache in *. cbn in *.
      split; [auto|]. right. exists path. reflexivity.
    - eapply triple_conseq with (Q := fun _ => cache (Some imode) x l)
        (X := X);
        [apply keeps_triple; [keeps_auto solve_cache | exact HX1]
        | auto | | auto].
      intros _ s Hs. exists x, l. split; [exact Hs|]. left. auto. }
  intros u6. apply triple_exists. intros x'. apply triple_exists. intros l'.
  apply triple_assume. intros Hcase.
  assert (HX3 : forall s, cache (Some imode) x' l' s -> X s).
  { intros s Hs. destruct Hcase as [[-> ->] | (path & ->)].
    - apply HX1. exact Hs.
    - eapply HX2. exact Hs. }
  assert (step' : forall A (c : Py A), keeps (cache (Some imode) x' l') c ->
            triple (cache (Some imode) x' l') c
              (fun _ => cache (Some imode) x' l') X).
  { intros A c Hc. apply keeps_triple; assumption. }
  eapply triple_bind; [apply step'; keeps_auto solve_cache|]. intros u7.
  eapply triple_bind; [apply step'; keeps_auto solve_cache|]. intros dl.
  eapply triple_bind; [apply step'; keeps_auto solve_cache|]. intros u8.
  eapply triple_bind; [apply step'; keeps_auto solve_cache|]. intros cfg.
  eapply triple_bind; [apply step'; keeps_auto solve_cache|]. intros u9.
  eapply triple_conseq;
    [apply step'; apply sliding_window_inference_cache | auto | auto | auto].
Qed.

End FailedCalls.

(** A call that raises without having handed an archive to [torch.load]
    leaves the model handle alone, but the mode it resolved may already be
    recorded; a following call that resolves to the recorded mode and
    returns has then run with the handle from before the failed call, and
    has loaded nothing. *)
Theorem stale_model_after_failed_call {E : Externals} (c1 c2 : Call)
  (s0 s1 s2 : St) (e : Exn) (r : option PostProc) :
  run_call c1 s0 = (s1, Raise e) ->
  torch_loads (snd s1) = torch_loads (snd s0) ->
  resolved_mode c2 = inference_mode (fst s1) ->
  run_call c2 s1 = (s2, Ok r) ->
  model (fst s1) = model (fst s0) /\
  (inference_mode (fst s1) = inference_mode (fst s0) \/
   inference_mode (fst s1) = resolved_mode c1) /\
  model (fst s2) = model (fst s0) /\
  torch_loads (snd s2) = torch_loads (snd s0).
Proof.
  intros Hrun1 Hloads Hmode Hrun2.
  pose proof (infer_cache_raise (inference_mode (fst s0)) (model (fst s0))
                (torch_loads (snd s0)) (call_t1 c1) (call_t1c c1)
                (call_t2 c1) (call_fla c1) (call_segmentation_file c1)
                (call_whole_network_file c1)
                (call_metastasis_network_file c1) s0
                (conj eq_refl (conj eq_refl eq_refl))) as H1.
  unfold run_call in Hrun1, Hrun2. rewrite Hrun1 in H1. cbn [fst snd] in H1.
  destruct H1 as [(Hx & _ & Hm) | (path & Hp)].
  2: { rewrite Hloads in Hp. apply (f_equal (@length string)) in Hp.
       rewrite length_app in Hp. cbn in Hp. lia. }
  pose proof (infer_cache (inference_mode (fst s1)) (model (fst s1))
                (torch_loads (snd s1)) (call_t1 c2) (call_t1c c2)
                (call_t2 c2) (call_fla c2) (call_segmentation_file c2)
                (call_whole_network_file c2)
                (call_metastasis_network_file c2) s1
                (conj eq_refl (conj eq_refl eq_refl))) as H2.
  rewrite Hrun2 in H2. cbn [fst snd] in H2.
  destruct H2 as (m & Hm2 & _ & Hcase).
  split; [exact Hx|]. split.
  { destruct Hm as [Hm | (m' & Hr & Hm')]; [left; exact Hm|].
    right. unfold resolved_mode. congruence. }
  destruct Hcase as [(_ & Hx2 & Hl2) | (Hne & _)].
  - split; congruence.
  - exfalso. apply Hne. unfold resolved_mode in Hmode. congruence.
Qed.

(** ** What a call returns *)

Ltac solve_configured := intros; unfold configured in *; cbn in *; assumption.

Ltac solve_without_volumes :=
  intros; unfold without_volumes in *; cbn in *;
  repeat match goal with
         | Hc : _ /\ _ |- _ => destruct Hc
         end;
  repeat split;
  first [ assumption
        | apply grows_by_cons; [exact I | assumption] ].

Section ReturnValue.

Context {E : Externals}.

Variable cfg0 : AuroraInfererConfig.

Lemma get_config_configured :
  triple (configured cfg0) (self_get config)
    (fun cfg s => configured cfg0 s /\ cfg = cfg0) (fun _ => True).
Proof. intros s Hs. cbn. split; [exact Hs | exact Hs]. Qed.

Lemma save_as_nifti_configured post :
  keeps (configured cfg0) (AuroraInferer._save_as_nifti post).
Proof. keeps_auto solve_configured. Qed.

Lemma route_outputs_returned (post : PostProc) :
  (exists seg whole enh,
     post = [ (SEGMENTATION, seg); (WHOLE_NETWORK, whole);
              (METASTASIS_NETWORK, enh) ] /\
     Forall is_label (data seg) /\ is_binary whole /\ is_binary enh) ->
  triple (configured cfg0) (AuroraInferer.route_outputs cfg0 post)
    (fun r _ => returned cfg0 r) (fun _ => True).
Proof.
  intros (seg & whole & enh & -> & Hs & Hw & He).
  unfold AuroraInferer.route_outputs, returned.
  destruct (output_mode cfg0); cbn [DataMode_eqb].
  - eapply triple_bind;
      [apply keeps_triple; [apply save_as_nifti_configured | intros; exact I]|].
    intros u. apply triple_ret. reflexivity.
  - intros s _.
    destruct (include_whole_network_in_numpy_output_mode cfg0),
      (include_metastasis_network_in_numpy_output_mode cfg0); cbn;
      exists seg, whole, enh; auto.
Qed.

Lemma sliding_window_inference_returned :
  triple (configured cfg0) AuroraInferer._sliding_window_inference
    (fun r _ => returned cfg0 r) (fun _ => True).
Proof.
  unfold AuroraInferer._sliding_window_inference.
  eapply triple_bind; [apply get_config_configured|].
  intros cfg. apply triple_assume. intros ->.
  do 7 inv_step solve_configured.
  eapply triple_bind;
    [eapply triple_weaken_raise; apply triple_lift_result|].
  intros post. apply triple_assume. intros Hpost.
  apply route_outputs_returned.
  apply (post_process_ok _ _ _ Hpost).
Qed.

Lemma infer_returned (t1 t1c t2 fla : option Image)
  (segmentation_file whole_network_file metastasis_network_file
     : option string) :
  triple (configured cfg0)
    (AuroraInferer.infer t1 t1c t2 fla segmentation_file whole_network_file
       metastasis_network_file)
    (fun r _ => returned cfg0 r) (fun _ => True).
Proof.
  unfold AuroraInferer.infer.
  do 15 inv_step solve_configured.
  apply sliding_window_inference_returned.
Qed.

End ReturnValue.

(** A call that returns: in file output mode it returns nothing; in array
    output mode it returns the segmentation, with labels 0, 1 and 2 only,
    and each of the two masks, with 0 and 1 only, exactly when the
    configuration includes it. *)
Theorem infer_return_value {E : Externals} (t1 t1c t2 fla : option Image)
  (segmentation_file whole_network_file metastasis_network_file
     : option string) (s : St) (r : option PostProc) :
  snd (AuroraInferer.infer t1 t1c t2 fla segmentation_file whole_network_file
         metastasis_network_file s) = Ok r ->
  returned (config (fst s)) r.
Proof.
  intros Hr.
  pose proof (infer_returned (config (fst s)) t1 t1c t2 fla segmentation_file
                whole_network_file metastasis_network_file s eq_refl) as H.
  rewrite Hr in H. exact H.
Qed.

(** ** Array output *)

Section ArrayOutput.

Context {E : Externals}.

Variable fs0 : list (string * FileContent).
Variable cfg0 : AuroraInfererConfig.
Hypothesis array_mode : output_mode cfg0 = NUMPY.

Lemma without_volumes_config (X : St -> Prop) :
  triple (without_volumes fs0 cfg0) (self_get config)
    (fun cfg s => without_volumes fs0 cfg0 s /\ cfg = cfg0) X.
Proof. intros s Hs. cbn. split; [exact Hs | apply Hs]. Qed.

Lemma route_outputs_without_volumes post :
  keeps (without_volumes fs0 cfg0) (AuroraInferer.route_outputs cfg0 post).
Proof.
  unfold AuroraInferer.route_outputs. rewrite array_mode. cbn [DataMode_eqb].
  keeps_auto solve_without_volumes.
Qed.

Lemma sliding_window_inference_without_volumes :
  keeps (without_volumes fs0 cfg0) AuroraInferer._sliding_window_inference.
Proof.
  unfold AuroraInferer._sliding_window_inference.
  eapply triple_bind; [apply without_volumes_config|].
  intros cfg. apply triple_assume. intros ->.
  apply keeps_bind; [keeps_auto solve_without_volumes|]. intros dev.
  apply keeps_bind; [keeps_auto solve_without_volumes|]. intros m.
  apply keeps_bind; [keeps_auto solve_without_volumes|]. intros u.
  apply keeps_bind; [keeps_auto solve_without_volumes|]. intros dl.
  apply keeps_bind; [keeps_auto solve_without_volumes|]. intros images.
  apply keeps_bind; [keeps_auto solve_without_volumes|]. intros outputs.
  apply keeps_bind; [keeps_auto solve_without_volumes|]. intros self.
  apply keeps_bind; [keeps_auto solve_without_volumes|]. intros post.
  apply route_outputs_without_volumes.
Qed.

Lemma infer_without_volumes (t1 t1c t2 fla : option Image)
  (segmentation_file whole_network_file metastasis_network_file
     : option string) :
  keeps (without_volumes fs0 cfg0)
    (AuroraInferer.infer t1 t1c t2 fla segmentation_file whole_network_file
       metastasis_network_file).
Proof.
  unfold AuroraInferer.infer.
  do 15 (apply keeps_bind; [keeps_auto solve_without_volumes | intros ?]).
  apply sliding_window_inference_without_volumes.
Qed.

End ArrayOutput.

(** In array output mode a call adds no volume to the file system, however
    it ends: what it adds are the directory of the log file and the log
    file. *)
Theorem array_output_writes_no_volume {E : Externals}
  (t1 t1c t2 fla : option Image)
  (segmentation_file whole_network_file metastasis_network_file
     : option string) (s : St) :
  output_mode (config (fst s)) = NUMPY ->
  grows_by not_a_volume (files (snd s))
    (files (snd (fst (AuroraInferer.infer t1 t1c t2 fla segmentation_file
                        whole_network_file metastasis_network_file s)))).
Proof.
  intros Hmode.
  pose proof (infer_without_volumes (files (snd s)) (config (fst s)) Hmode
                t1 t1c t2 fla segmentation_file whole_network_file
                metastasis_network_file s
                (conj (grows_by_refl _ _) eq_refl)) as H.
  destruct (snd _); apply H.
Qed.

(** ** The number of forward passes *)

Ltac solve_passes := intros; unfold passes in *; cbn in *; assumption.

Section ForwardPasses.

Context {E : Externals}.

Variable cfg0 : AuroraInfererConfig.

Lemma call_inferer_passes n inferer x :
  triple (passes n cfg0) (AuroraInferer.call_inferer inferer x)
    (fun _ => passes (n + 1) cfg0) (fun _ => True).
Proof.
  unfold AuroraInferer.call_inferer.
  inv_step solve_passes.
  eapply triple_bind with (R := fun _ => passes (n + 1) cfg0).
  { apply triple_modify. intros [o w] [Hn Hc]. unfold passes in *. cbn in *.
    split; [|exact Hc]. rewrite length_app, Hn. reflexivity. }
  intros u. apply triple_ret. auto.
Qed.

Lemma tta_flip_pass_passes n inferer img dims acc :
  triple (passes n cfg0) (AuroraInferer.tta_flip_pass inferer img dims acc)
    (fun _ => passes (n + 1) cfg0) (fun _ => True).
Proof.
  destruct acc as [outputs k]. unfold AuroraInferer.tta_flip_pass.
  inv_step solve_passes.
  eapply triple_bind; [apply call_inferer_passes|]. intros flip_pred.
  apply keeps_triple; [keeps_auto solve_passes | intros; exact I].
Qed.

Lemma tta_round_passes n inferer images acc :
  triple (passes n cfg0) (AuroraInferer.tta_round inferer images acc)
    (fun _ => passes (n + 3) cfg0) (fun _ => True).
Proof.
  destruct acc as [outputs k]. unfold AuroraInferer.tta_round.
  named_step solve_passes as img.
  eapply triple_bind; [apply call_inferer_passes|]. intros output.
  named_step solve_passes as outputs'.
  eapply triple_conseq;
    [ apply (triple_for_each_count (fun m => passes m cfg0) 1 [[2]; [3]]
               (AuroraInferer.tta_flip_pass inferer img)
               (fun dims acc m => tta_flip_pass_passes m inferer img dims acc)
               (outputs', fadd k (Fin 1)) (n + 1))
    | auto | | auto ].
  intros u s Hs. cbn [length] in Hs.
    replace (n + 3) with (n + 1 + 1 * 2) by lia. exact Hs.
Qed.

Lemma raw_outputs_passes n inferer images :
  triple (passes n cfg0) (AuroraInferer.raw_outputs cfg0 inferer images)
    (fun _ => passes (n + (if tta cfg0 then 13 else 1)) cfg0) (fun _ => True).
Proof.
  unfold AuroraInferer.raw_outputs.
  eapply triple_bind; [apply call_inferer_passes|]. intros outputs.
  destruct (tta cfg0).
  - inv_step solve_passes.
    unfold AuroraInferer._apply_test_time_augmentations.
    eapply triple_bind.
    { apply (triple_for_each_count (fun m => passes m cfg0) 3 (seq 0 4)
               (fun _ => AuroraInferer.tta_round inferer images)
               (fun i acc m => tta_round_passes m inferer images acc)
               (outputs, Fin 1) (n + 1)). }
    intros [outputs' k]. apply triple_ret. intros s Hs.
    rewrite length_seq in Hs.
    replace (n + 13) with (n + 1 + 3 * 4) by lia. exact Hs.
  - apply triple_ret. auto.
Qed.

Lemma passes_config n (X : St -> Prop) :
  triple (passes n cfg0) (self_get config)
    (fun cfg s => passes n cfg0 s /\ cfg = cfg0) X.
Proof. intros s Hs. cbn. split; [exact Hs | apply Hs]. Qed.

Lemma sliding_window_inference_passes n :
  triple (passes n cfg0) AuroraInferer._sliding_window_inference
    (fun _ => passes (n + (if tta cfg0 then 13 else 1)) cfg0) (fun _ => True).
Proof.
  unfold AuroraInferer._sliding_window_inference.
  eapply triple_bind; [apply passes_config|].
  intros cfg. apply triple_assume. intros ->.
  do 5 inv_step solve_passes.
  eapply triple_bind; [apply raw_outputs_passes|]. intros outputs.
  apply keeps_triple; [keeps_auto solve_passes | intros; exact I].
Qed.

Lemma infer_passes n (t1 t1c t2 fla : option Image)
  (segmentation_file whole_network_file metastasis_network_file
     : option string) :
  triple (passes n cfg0)
    (AuroraInferer.infer t1 t1c t2 fla segmentation_file whole_network_file
       metastasis_network_file)
    (fun _ => passes (n + (if tta cfg0 then 13 else 1)) cfg0) (fun _ => True).
Proof.
  unfold AuroraInferer.infer.
  do 15 inv_step solve_passes.
  apply sliding_window_inference_passes.
Qed.

End ForwardPasses.

(** A call that returns has invoked the sliding-window inferer once
    without test-time augmentation and thirteen times with it. *)
Theorem infer_forward_passes {E : Externals} (t1 t1c t2 fla : option Image)
  (segmentation_file whole_network_file metastasis_network_file
     : option string) (s s' : St) (r : option PostProc) :
  AuroraInferer.infer t1 t1c t2 fla segmentation_file whole_network_file
    metastasis_network_file s = (s', Ok r) ->
  length (sw_calls (snd s')) =
  length (sw_calls (snd s)) + (if tta (config (fst s)) then 13 else 1).
Proof.
  intros Hr.
  pose proof (infer_passes (config (fst s)) (length (sw_calls (snd s)))
                t1 t1c t2 fla segmentation_file whole_network_file
                metastasis_network_file s (conj eq_refl eq_refl)) as H.
  rewrite Hr in H. apply H.
Qed.

(** ** The entropy source without test-time augmentation *)

Ltac solve_undrawn := intros; unfold undrawn in *; cbn in *; assumption.

Section EntropySource.

Context {E : Externals}.

Variable g : Rng.
Variable cfg0 : AuroraInfererConfig.
Hypothesis tta_off : tta cfg0 = false.

Lemma undrawn_config (X : St -> Prop) :
  triple (undrawn g cfg0) (self_get config)
    (fun cfg s => undrawn g cfg0 s /\ cfg = cfg0) X.
Proof. intros s Hs. cbn. split; [exact Hs | apply Hs]. Qed.

Lemma raw_outputs_undrawn inferer images :
  keeps (undrawn g cfg0) (AuroraInferer.raw_outputs cfg0 inferer images).
Proof.
  unfold AuroraInferer.raw_outputs. rewrite tta_off.
  keeps_auto solve_undrawn.
Qed.

Lemma sliding_window_inference_undrawn :
  keeps (undrawn g cfg0) AuroraInferer._sliding_window_inference.
Proof.
  unfold AuroraInferer._sliding_window_inference.
  eapply triple_bind; [apply undrawn_config|].
  intros cfg. apply triple_assume. intros ->.
  do 5 (apply keeps_bind; [keeps_auto solve_undrawn | intros ?]).
  apply keeps_bind; [apply raw_outputs_undrawn | intros outputs].
  keeps_auto solve_undrawn.
Qed.

Lemma infer_undrawn (t1 t1c t2 fla : option Image)
  (segmentation_file whole_network_file metastasis_network_file
     : option string) :
  keeps (undrawn g cfg0)
    (AuroraInferer.infer t1 t1c t2 fla segmentation_file whole_network_file
       metastasis_network_file).
Proof.
  unfold AuroraInferer.infer.
  do 15 (apply keeps_bind; [keeps_auto solve_undrawn | intros ?]).
  apply sliding_window_inference_undrawn.
Qed.

End EntropySource.

(** Without test-time augmentation a call leaves the entropy source as it
    found it, however it ends: no noise is drawn. *)
Theorem infer_draws_nothing_without_tta {E : Externals}
  (t1 t1c t2 fla : option Image)
  (segmentation_file whole_network_file metastasis_network_file
     : option string) (s : St) :
  tta (config (fst s)) = false ->
  rng (snd (fst (AuroraInferer.infer t1 t1c t2 fla segmentation_file
                   whole_network_file metastasis_network_file s))) =
  rng (snd s).
Proof.
  intros Htta.
  pose proof (infer_undrawn (rng (snd s)) (config (fst s)) Htta
                t1 t1c t2 fla segmentation_file whole_network_file
                metastasis_network_file s (conj eq_refl eq_refl)) as H.
  destruct (snd _); apply H.
Qed.

(** ** File output *)

Ltac solve_mapped := intros; unfold mapped in *; cbn in *; assumption.

Lemma is_binary_labels (a : ndarray Z) :
  is_binary a -> Forall is_label (data a).
Proof.
  unfold is_binary, is_label. apply Forall_impl. intros v [H | H]; auto.
Qed.

Section FileOutput.

Context {E : Externals}.

Variable cfg0 : AuroraInfererConfig.
Hypothesis file_mode : output_mode cfg0 = NIFTI_FILE.

Variable mapping : OutputFileMapping.

(** What the loop of [_save_as_nifti] over the three volumes of
    post-processing establishes. *)
Variable Q : St -> Prop.
Hypothesis save_loop :
  forall geometry seg whole enh,
    Forall is_label (data seg) -> is_binary whole -> is_binary enh ->
    triple (mapped cfg0 mapping)
      (for_each [ (SEGMENTATION, seg); (WHOLE_NETWORK, whole);
                  (METASTASIS_NETWORK, enh) ]
         (fun item _ => AuroraInferer.save_output geometry item) tt)
      (fun _ => Q) (fun _ => True).

Lemma mapped_config (X : St -> Prop) :
  triple (mapped cfg0 mapping) (self_get config)
    (fun cfg s => mapped cfg0 mapping s /\ cfg = cfg0) X.
Proof. intros s Hs. cbn. split; [exact Hs | apply Hs]. Qed.

Lemma sliding_window_inference_saves :
  triple (mapped cfg0 mapping) AuroraInferer._sliding_window_inference
    (fun _ => Q) (fun _ => True).
Proof.
  unfold AuroraInferer._sliding_window_inference.
  eapply triple_bind; [apply mapped_config|].
  intros cfg. apply triple_assume. intros ->.
  do 7 inv_step solve_mapped.
  eapply triple_bind;
    [eapply triple_weaken_raise; apply triple_lift_result|].
  intros post. apply triple_assume. intros Hpost.
  destruct (post_process_ok _ _ _ Hpost)
    as (seg & whole & enh & -> & Hs & Hw & He).
  unfold AuroraInferer.route_outputs. rewrite file_mode. cbn [DataMode_eqb].
  eapply triple_bind with (R := fun _ => Q); [|intros u; apply triple_ret; auto].
  unfold AuroraInferer._save_as_nifti.
  inv_step solve_mapped.
  apply save_loop; assumption.
Qed.

Lemma infer_saves (t1 t1c t2 fla : option Image)
  (segmentation_file whole_network_file metastasis_network_file
     : option string) :
  mapping = destinations segmentation_file whole_network_file
              metastasis_network_file ->
  triple (configured cfg0)
    (AuroraInferer.infer t1 t1c t2 fla segmentation_file whole_network_file
       metastasis_network_file)
    (fun _ => Q) (fun _ => True).
Proof.
  intros Hmap. unfold AuroraInferer.infer.
  do 13 inv_step solve_configured.
  eapply triple_bind; [apply get_config_configured|].
  intros cfg. apply triple_assume. intros ->.
  rewrite file_mode. cbn [DataMode_eqb].
  eapply triple_bind; [|intros u; apply sliding_window_inference_saves].
  inv_step solve_configured.
  apply triple_modify. intros [o w] Hc. unfold mapped, configured in *.
  cbn in *. split; [exact Hc|]. rewrite Hmap. reflexivity.
Qed.

End FileOutput.

Section SaveLoop.

Context {E : Externals}.

Variable cfg0 : AuroraInfererConfig.
Variable mapping : OutputFileMapping.

Lemma makedirs_saved (f name : string) : keeps (saved cfg0 mapping f) (os_makedirs name).
Proof.
  intros [o w] HK. unfold os_makedirs.
  destruct (String.eqb name EmptyString); [exact HK|].
  run_py.
  destruct (lookup_file (files w) name) as [[| | |]|] eqn:Hl; cbn;
    try exact HK.
  destruct HK as [Hm (img & d & Hf & Hd & Hlab)]. split; [exact Hm|].
  exists img, d. cbn in *. split; [|auto].
  destruct (String.eqb name f) eqn:Heq; [|exact Hf].
  apply String.eqb_eq in Heq. subst name. congruence.
Qed.

Lemma nib_save_saved (f path : string) (d : ndarray Z) (aff : ndarray float)
  (hdr : option Header) :
  Forall is_label (data d) ->
  keeps (saved cfg0 mapping f) (nib_save (Nifti1Image d aff hdr) path).
Proof.
  intros Hlab [o w] HK. unfold nib_save. run_py.
  assert (Hgoal : saved cfg0 mapping f
            (o, with_files w ((path, NiftiFile (Nifti1Image d aff hdr))
                                :: files w))).
  { destruct HK as [Hm (img & d' & Hf & Hd & Hlab')]. split; [exact Hm|].
    cbn in *. destruct (String.eqb path f) eqn:Heq.
    - exists (Nifti1Image d aff hdr), d. cbn. rewrite Heq. auto.
    - exists img, d'. cbn. rewrite Heq. auto. }
  destruct (lookup_file (files w) path) as [[| | |]|]; cbn;
    first [exact Hgoal | exact HK].
Qed.

Lemma save_output_saved (f : string) geometry (key : Output) (d : ndarray Z) :
  Forall is_label (data d) ->
  keeps (saved cfg0 mapping f) (AuroraInferer.save_output geometry (key, d)).
Proof.
  intros Hlab. destruct geometry as [aff hdr].
  unfold AuroraInferer.save_output.
  apply keeps_bind; [apply keeps_getattr|]. intros m.
  destruct (dict_get Output_eqb m key) as [output_file|];
    [|apply keeps_raise].
  destruct (truthy output_file); [|apply keeps_ret].
  destruct output_file as [f'|]; [|apply keeps_ret].
  apply keeps_bind; [apply makedirs_saved|]. intros u.
  apply keeps_bind; [apply nib_save_saved; exact Hlab|]. intros u'.
  apply keeps_log. intros o w [Hm Hh]. split; [exact Hm | exact Hh].
Qed.

Lemma getattr_mapping :
  triple (mapped cfg0 mapping)
    (getattr "output_file_mapping" output_file_mapping)
    (fun m s => mapped cfg0 mapping s /\ m = mapping) (fun _ => True).
Proof.
  eapply triple_conseq;
    [apply (triple_getattr (mapped cfg0 mapping)) | auto | | auto].
  intros m s H. cbv beta in H. destruct H as [[Hc Hm] Hm'].
  split; [split; assumption | congruence].
Qed.

Lemma nib_save_writes (f : string) (d : ndarray Z) (aff : ndarray float)
  (hdr : option Header) :
  Forall is_label (data d) ->
  triple (mapped cfg0 mapping) (nib_save (Nifti1Image d aff hdr) f)
    (fun _ => saved cfg0 mapping f) (fun _ => True).
Proof.
  intros Hlab [o w] HM. unfold nib_save. run_py.
  destruct (lookup_file (files w) f) as [[| | |]|]; cbn; try exact I;
    (split; [exact HM|]; exists (Nifti1Image d aff hdr), d; cbn;
     rewrite String.eqb_refl; auto).
Qed.

(** The first volume written to a destination. *)
Lemma save_output_writes (f : string) geometry (key : Output)
  (d : ndarray Z) :
  dict_get Output_eqb mapping key = Some (Some f) ->
  f <> EmptyString ->
  Forall is_label (data d) ->
  triple (mapped cfg0 mapping) (AuroraInferer.save_output geometry (key, d))
    (fun _ => saved cfg0 mapping f) (fun _ => True).
Proof.
  intros Hkey Hf Hlab. destruct geometry as [aff hdr].
  unfold AuroraInferer.save_output.
  eapply triple_bind; [apply getattr_mapping|].
  intros m. apply triple_assume. intros ->. rewrite Hkey.
  unfold truthy. destruct (String.eqb f EmptyString) eqn:He;
    [apply String.eqb_eq in He; contradiction|].
  cbn [negb].
  inv_step solve_mapped.
  eapply triple_bind; [apply nib_save_writes; exact Hlab|]. intros u.
  apply keeps_triple; [|intros; exact I].
  apply keeps_log. intros o w [Hm Hh]. split; [exact Hm | exact Hh].
Qed.

(** A destination without a directory part ends the loop. *)
Lemma save_output_without_directory (f : string) geometry (key : Output)
  (d : ndarray Z) :
  dict_get Output_eqb mapping key = Some (Some f) ->
  f <> EmptyString ->
  contains_char "/"%char f = false ->
  triple (mapped cfg0 mapping) (AuroraInferer.save_output geometry (key, d))
    (fun _ _ => False) (fun _ => True).
Proof.
  intros Hkey Hf Hs. destruct geometry as [aff hdr].
  unfold AuroraInferer.save_output.
  eapply triple_bind; [apply getattr_mapping|].
  intros m. apply triple_assume. intros ->. rewrite Hkey.
  unfold truthy. destruct (String.eqb f EmptyString) eqn:He;
    [apply String.eqb_eq in He; contradiction|].
  cbn [negb]. rewrite (os_path_dirname_no_slash f Hs).
  intros s _. reflexivity.
Qed.

Lemma save_output_mapped geometry item :
  keeps (mapped cfg0 mapping) (AuroraInferer.save_output geometry item).
Proof. keeps_auto solve_mapped. Qed.

(** The loop over the three volumes writes the segmentation first, and
    nothing that follows removes it. *)
Lemma save_loop_writes (f : string) geometry (seg whole enh : ndarray Z) :
  dict_get Output_eqb mapping SEGMENTATION = Some (Some f) ->
  f <> EmptyString ->
  Forall is_label (data seg) -> is_binary whole -> is_binary enh ->
  triple (mapped cfg0 mapping)
    (for_each [ (SEGMENTATION, seg); (WHOLE_NETWORK, whole);
                (METASTASIS_NETWORK, enh) ]
       (fun item _ => AuroraInferer.save_output geometry item) tt)
    (fun _ => holds_labels f) (fun _ => True).
Proof.
  intros Hseg Hf Hs Hw He. cbn [for_each].
  eapply triple_bind;
    [apply (save_output_writes f geometry SEGMENTATION seg Hseg Hf Hs)|].
  intros u.
  eapply triple_conseq with (Q := fun _ => saved cfg0 mapping f);
    [ apply keeps_triple; [|intros; exact I]
    | auto | intros ? ? [_ Hh]; exact Hh | auto ].
  apply keeps_bind;
    [apply save_output_saved; apply is_binary_labels; exact Hw|].
  intros u'.
  apply keeps_bind;
    [apply save_output_saved; apply is_binary_labels; exact He|].
  intros u''. apply keeps_ret.
Qed.

(** The loop does not get past a mask whose destination has no directory
    part. *)
Lemma save_loop_without_directory (g : string) geometry
  (seg whole enh : ndarray Z) :
  dict_get Output_eqb mapping WHOLE_NETWORK = Some (Some g) \/
  dict_get Output_eqb mapping METASTASIS_NETWORK = Some (Some g) ->
  g <> EmptyString ->
  contains_char "/"%char g = false ->
  triple (mapped cfg0 mapping)
    (for_each [ (SEGMENTATION, seg); (WHOLE_NETWORK, whole);
                (METASTASIS_NETWORK, enh) ]
       (fun item _ => AuroraInferer.save_output geometry item) tt)
    (fun _ _ => False) (fun _ => True).
Proof.
  intros Hg Hne Hs. cbn [for_each].
  eapply triple_bind;
    [apply keeps_triple; [apply save_output_mapped | intros; exact I]|].
  intros u. destruct Hg as [Hg | Hg].
  - eapply triple_bind;
      [apply (save_output_without_directory g geometry WHOLE_NETWORK whole
                Hg Hne Hs)|].
    intros ? ? [].
  - eapply triple_bind;
      [apply keeps_triple; [apply save_output_mapped | intros; exact I]|].
    intros u'.
    eapply triple_bind;
      [apply (save_output_without_directory g geometry METASTASIS_NETWORK
                enh Hg Hne Hs)|].
    intros ? ? [].
Qed.

End SaveLoop.

(** In file output mode a call that returns has left a volume at the
    destination of the segmentation, and the volume holds the labels 0, 1
    and 2 only. *)
Theorem infer_writes_segmentation {E : Externals}
  (t1 t1c t2 fla : option Image) (f : string)
  (whole_network_file metastasis_network_file : option string)
  (s s' : St) (r : option PostProc) :
  output_mode (config (fst s)) = NIFTI_FILE ->
  f <> EmptyString ->
  AuroraInferer.infer t1 t1c t2 fla (Some f) whole_network_file
    metastasis_network_file s = (s', Ok r) ->
  exists img d,
    lookup_file (files (snd s')) f = Some (NiftiFile img) /\
    dataobj img = UInt8 d /\ Forall is_label (data d).
Proof.
  intros Hmode Hf Hrun.
  set (mapping := destinations (Some f) whole_network_file
                    metastasis_network_file).
  assert (Hseg : dict_get Output_eqb mapping SEGMENTATION = Some (Some f)).
  { unfold mapping, destinations, truthy.
    destruct (String.eqb f EmptyString) eqn:He;
      [apply String.eqb_eq in He; contradiction | reflexivity]. }
  pose proof (infer_saves (config (fst s)) Hmode mapping (holds_labels f)
                (fun geometry seg whole enh =>
                   save_loop_writes (config (fst s)) mapping f geometry seg
                     whole enh Hseg Hf)
                t1 t1c t2 fla (Some f) whole_network_file
                metastasis_network_file eq_refl s eq_refl) as H.
  rewrite Hrun in H. exact H.
Qed.

(** In file output mode a destination without a directory part for one of
    the two masks keeps the call from returning: at the latest the loop
    that saves the volumes ends in the [FileNotFoundError] of
    [os.makedirs]. *)
Theorem infer_network_file_without_directory {E : Externals}
  (t1 t1c t2 fla : option Image)
  (segmentation_file whole_network_file metastasis_network_file
     : option string) (g : string) (s : St) :
  output_mode (config (fst s)) = NIFTI_FILE ->
  whole_network_file = Some g \/ metastasis_network_file = Some g ->
  g <> EmptyString ->
  contains_char "/"%char g = false ->
  exists e,
    snd (AuroraInferer.infer t1 t1c t2 fla segmentation_file
           whole_network_file metastasis_network_file s) = Raise e.
Proof.
  intros Hmode Hg Hne Hs.
  set (mapping := destinations segmentation_file whole_network_file
                    metastasis_network_file).
  assert (Hmap : dict_get Output_eqb mapping WHOLE_NETWORK = Some (Some g) \/
                 dict_get Output_eqb mapping METASTASIS_NETWORK
                 = Some (Some g)).
  { unfold mapping, destinations. cbn.
    destruct Hg as [-> | ->]; [left | right]; reflexivity. }
  pose proof (infer_saves (config (fst s)) Hmode mapping (fun _ => False)
                (fun geometry seg whole enh _ _ _ =>
                   save_loop_without_directory (config (fst s)) mapping g
                     geometry seg whole enh Hmap Hne Hs)
                t1 t1c t2 fla segmentation_file whole_network_file
                metastasis_network_file eq_refl s eq_refl) as H.
  destruct (snd _) as [r|e]; [contradiction | exists e; reflexivity].
Qed.

(** ** Validation of the inputs *)

Section Validation.

Context {E : Externals}.

Lemma validate_image_passes (d : option Image) (o : Inferer) (w : World) :
  passes_validation (files w) d ->
  AuroraInferer._validate_image d (o, w) =
  ((input_mode_after d o, w), Ok (validated d)).
Proof.
  destruct d as [[p|a]|]; cbn [passes_validation]; intros H;
    [|reflexivity..].
  destruct H as [Hex Hsuf].
  unfold AuroraInferer._validate_image, os_path_exists. run_py.
  destruct (lookup_file (files w) p); [|contradiction].
  cbn [negb]. rewrite Hsuf. reflexivity.
Qed.

Lemma map_M_validate_image (l : list (option Image)) (o : Inferer)
  (w : World) :
  Forall (passes_validation (files w)) l ->
  map_M AuroraInferer._validate_image l (o, w) =
  ((fold_left (fun o d => input_mode_after d o) l o, w),
   Ok (map validated l)).
Proof.
  intros H. revert o. induction H as [|d l Hd Hl IH]; intros o.
  - reflexivity.
  - cbn [map_M fold_left map]. unfold bind at 1.
    rewrite (validate_image_passes d o w Hd).
    unfold bind at 1. rewrite IH. reflexivity.
Qed.

(** Inputs that pass, of one type and not all absent: the validation
    returns them in their positions, the paths through [turbo_path],
    records the type as the input mode and logs once. *)
Theorem validate_images_accepts (t1 t1c t2 fla : option Image)
  (ty : DataMode) (s : St) :
  Forall (passes_validation (files (snd s))) [t1; t1c; t2; fla] ->
  Forall (of_type ty) [t1; t1c; t2; fla] ->
  not_none [t1; t1c; t2; fla] <> [] ->
  exists msg,
    AuroraInferer._validate_images t1 t1c t2 fla s =
    ((set_input_mode (Some ty) (fst s),
      with_log_records (snd s) (log_records (snd s) ++ [(INFO, msg)])),
     Ok (map validated [t1; t1c; t2; fla])).
Proof.
  destruct s as [o w]. cbn [fst snd]. intros Hpass Hty Hne. eexists.
  unfold AuroraInferer._validate_images. unfold bind at 1.
  rewrite (map_M_validate_image _ o w Hpass).
  inversion Hty as [|? ? H1 Hty1]; subst.
  inversion Hty1 as [|? ? H2 Hty2]; subst.
  inversion Hty2 as [|? ? H3 Hty3]; subst.
  inversion Hty3 as [|? ? H4 _]; subst.
  destruct t1 as [[?|?]|], t1c as [[?|?]|], t2 as [[?|?]|],
    fla as [[?|?]|];
    cbn in H1, H2, H3, H4; subst;
    try discriminate; try (exfalso; apply Hne; reflexivity);
    reflexivity.
Qed.

Lemma not_none_In {A} (x : A) (l : list (option A)) :
  In (Some x) l -> In x (not_none l).
Proof.
  unfold not_none. intros H. apply in_flat_map.
  exists (Some x). split; [exact H | left; reflexivity].
Qed.

(** An array together with a path: the assertion on the types fails, after
    every input has been looked at; the world is as before. *)
Theorem validate_images_mixed_types (t1 t1c t2 fla : option Image)
  (a : ndarray float) (p : string) (s : St) :
  Forall (passes_validation (files (snd s))) [t1; t1c; t2; fla] ->
  In (Some (Arr a)) [t1; t1c; t2; fla] ->
  In (Some (File p)) [t1; t1c; t2; fla] ->
  snd (AuroraInferer._validate_images t1 t1c t2 fla s) =
    Raise (AssertionError "All passed images must be of the same type!") /\
  snd (fst (AuroraInferer._validate_images t1 t1c t2 fla s)) = snd s.
Proof.
  destruct s as [o w]. cbn [fst snd]. intros Hpass Ha Hp.
  unfold AuroraInferer._validate_images. unfold bind at 1 3.
  rewrite (map_M_validate_image _ o w Hpass).
  set (images := map validated [t1; t1c; t2; fla]).
  assert (Hia : In (Arr a) (not_none images)).
  { apply not_none_In. unfold images.
    change (Some (Arr a)) with (validated (Some (Arr a))).
    apply in_map. exact Ha. }
  assert (Hip : In (File (turbo_path p)) (not_none images)).
  { apply not_none_In. unfold images.
    change (Some (File (turbo_path p))) with (validated (Some (File p))).
    apply in_map. exact Hp. }
  assert (Hlen : (0 <? length (not_none images)) = true).
  { destruct (not_none images); [contradiction | reflexivity]. }
  assert (Hcount : AuroraInferer.count_unique_types (not_none images) = 2).
  { unfold AuroraInferer.count_unique_types.
    assert (H1 : existsb (fun i => DataMode_eqb (type_of i) NIFTI_FILE)
                   (not_none images) = true).
    { apply existsb_exists. eexists. split; [exact Hip | reflexivity]. }
    assert (H2 : existsb (fun i => DataMode_eqb (type_of i) NUMPY)
                   (not_none images) = true).
    { apply existsb_exists. eexists. split; [exact Hia | reflexivity]. }
    rewrite H1, H2. reflexivity. }
  cbv zeta. rewrite Hlen, Hcount. split; reflexivity.
Qed.

(** A path that exists but does not end in [.nii.gz] or [.nii]: a
    [ValueError] that names it, before any later input is looked at. *)
Theorem validate_images_wrong_extension (p : string)
  (t1c t2 fla : option Image) (s : St) :
  lookup_file (files (snd s)) p <> None ->
  (endswith p ".nii.gz" || endswith p ".nii") = false ->
  AuroraInferer._validate_images (Some (File p)) t1c t2 fla s =
  (s, Raise (ValueError
               (String.append "File "
                  (String.append p
                     " must be a nifti file with extension .nii or .nii.gz")))).
Proof.
  intros Hex Hsuf. destruct s as [o w]. cbn [snd] in Hex.
  unfold AuroraInferer._validate_images, AuroraInferer._validate_image.
  cbn [map_M]. unfold os_path_exists. run_py.
  destruct (lookup_file (files w) p); [|contradiction].
  cbn [negb]. rewrite Hsuf. reflexivity.
Qed.

End Validation.

(** ** The batch of a call with arrays *)

Section Batch.

Context {E : Externals}.

Lemma map_M_arrays (arrays : list (ndarray float)) (s : St) :
  map_M (fun i : Image => match i with
                          | Arr a => ret a
                          | File _ => raise TypeError
                          end) (map Arr arrays) s = (s, Ok arrays).
Proof.
  induction arrays as [|a l IH]; [reflexivity|].
  cbn [map map_M]. unfold bind at 1. unfold ret at 1.
  unfold bind at 1. rewrite IH. reflexivity.
Qed.

Lemma np_stack_same_shape (arrays : list (ndarray float)) (sh : list nat) :
  arrays <> [] ->
  Forall (fun a => shape a = sh) arrays ->
  np_stack arrays =
  Ok (mk_ndarray (length arrays :: sh) (concat (map (@data float) arrays))).
Proof.
  intros Hne Hsh. unfold np_stack.
  destruct arrays as [|a l]; [contradiction|].
  assert (Ha : shape a = sh) by (inversion Hsh; assumption).
  assert (Hall : forallb (fun b => shape_eqb (shape a) (shape b)) (a :: l)
                 = true).
  { apply forallb_forall. intros b Hb. rewrite Forall_forall in Hsh.
    rewrite (Hsh b Hb), Ha. apply shape_eqb_refl. }
  rewrite Hall, Ha. reflexivity.
Qed.

(** Two or more validated arrays of one shape: the loader has the
    replacement, the rescaling and the conversion as its transforms, and
    the batch it yields is the stack of the arrays in their order, with
    the non-finite values replaced, rescaled, under a batch axis. *)
Theorem batch_of_arrays (s : St) (imgs : list (option Image))
  (arrays : list (ndarray float)) (sh : list nat) :
  input_mode (fst s) = Some NUMPY ->
  validated_images (fst s) = Some imgs ->
  not_none imgs = map Arr arrays ->
  2 <= length arrays ->
  Forall (fun a => shape a = sh) arrays ->
  exists dl,
    AuroraInferer._get_data_loader s = (s, Ok dl) /\
    transforms dl =
      [Lambdad_nan_to_num; ScaleIntensityRangePercentilesd; ToTensord] /\
    AuroraInferer.next_batch dl s =
    (s, Ok (expand_dims0
              (ScaleIntensityRangePercentiles
                 (nd_map nan_to_num
                    (mk_ndarray (length arrays :: sh)
                       (concat (map (@data float) arrays))))))).
Proof.
  destruct s as [o w]. cbn [fst snd]. intros Him Hv Hn Hlen Hsh.
  assert (H1 : (length (map Arr arrays) =? 1) = false).
  { rewrite length_map. apply Nat.eqb_neq. lia. }
  assert (Hne : arrays <> []) by (destruct arrays; [cbn in Hlen; lia | discriminate]).
  eexists. split; [|split].
  - unfold AuroraInferer._get_data_loader, AuroraInferer._get_not_none_files.
    run_rw ltac:(rewrite ?Him, ?Hv, ?Hn, ?H1; cbn [DataMode_eqb]).
    reflexivity.
  - reflexivity.
  - unfold AuroraInferer.next_batch. cbn [transforms dataset not_none flat_map app].
    cbn [for_each]. unfold bind at 1. unfold bind at 1.
    unfold AuroraInferer.apply_transform at 1.
    unfold bind at 1. rewrite map_M_arrays.
    rewrite (np_stack_same_shape arrays sh Hne Hsh).
    reflexivity.
Qed.

End Batch.

(** ** The duplicating standard error object *)

Section Duplicating.

Import DualStdErrOutput.

Lemma dual_write_run (self : t) (io : Streams) (text : string) :
  closed io (stderr self) = false ->
  (forall f, file_handler_stream self = Some f -> closed io f = false) ->
  exists io',
    write text (self, io) = ((self, io'), Ok tt) /\
    closed io' = closed io /\
    flushes io' = flushes io /\
    forall k, written io' k =
              written io k ++ tee (stderr self) (file_handler_stream self) k
                                [text].
Proof.
  intros He Hf. unfold write, stream_write, bind, get. cbn [fst snd].
  rewrite He. cbn [fst snd closed].
  destruct (file_handler_stream self) as [f|] eqn:Hfile.
  - cbn [fst snd closed]. rewrite (Hf f eq_refl). eexists.
    split; [reflexivity|].
    cbn [closed flushes written]. repeat split.
    intros k. unfold tee. cbn [flat_map]. rewrite app_nil_r.
    destruct (k =? stderr self), (k =? f); cbn;
      rewrite <- ?app_assoc, ?app_nil_r; reflexivity.
  - eexists. split; [reflexivity|].
    cbn [closed flushes written]. repeat split.
    intros k. unfold tee. cbn [flat_map]. rewrite !app_nil_r.
    destruct (k =? stderr self); cbn; rewrite ?app_nil_r; reflexivity.
Qed.

Lemma tee_cons err file k text texts :
  tee err file k (text :: texts) = tee err file k [text] ++ tee err file k texts.
Proof. unfold tee. cbn [flat_map]. rewrite app_nil_r. reflexivity. Qed.

(** Every text written to the duplicating object reaches the standard
    error stream and, when one is attached, the stream of the log file,
    once each and in the order of the writes; no other stream receives
    anything, nothing is flushed or closed, and the object keeps its
    streams. *)
Theorem dual_write_tees (self : t) (io : Streams) (texts : list string) :
  closed io (stderr self) = false ->
  (forall f, file_handler_stream self = Some f -> closed io f = false) ->
  exists io',
    for_each texts (fun text _ => write text) tt (self, io)
      = ((self, io'), Ok tt) /\
    closed io' = closed io /\
    flushes io' = flushes io /\
    forall k, written io' k =
              written io k ++ tee (stderr self) (file_handler_stream self) k
                                texts.
Proof.
  revert io. induction texts as [|text texts IH]; intros io He Hf.
  - exists io. split; [reflexivity|]. repeat split.
    intros k. cbn. symmetry. apply app_nil_r.
  - destruct (dual_write_run self io text He Hf) as (io1 & Hrun & Hc & Hfl & Hw).
    destruct (IH io1) as (io' & Hrun' & Hc' & Hfl' & Hw').
    { rewrite Hc. exact He. }
    { intros f Hfile. rewrite Hc. apply Hf. exact Hfile. }
    exists io'. cbn [for_each]. unfold bind at 1. rewrite Hrun.
    split; [exact Hrun'|]. split; [congruence|]. split; [congruence|].
    intros k. rewrite (tee_cons _ _ k text texts), Hw', Hw, app_assoc.
    reflexivity.
Qed.

End Duplicating.

(** ** Scenarios with the test double *)


(** The constant outputs on a batch of four channels and two voxels. *)
Lemma constant_outputs_give_label_2_witness :
  @AuroraInferer._post_process Mock.externals (fst (Mock.fresh Mock.default_config))
    (Mock.const_forward (Fin (6 / 10)) (Fin (3 / 10))
       (mk_ndarray [1; 4; 1; 1; 2] (repeat (Fin 0) 8))) =
  Ok [ (SEGMENTATION, nd_full [1; 1; 2] 2%Z);
       (WHOLE_NETWORK, nd_full [1; 1; 2] 1%Z);
       (METASTASIS_NETWORK, nd_full [1; 1; 2] 1%Z) ].
Proof.
  apply (@constant_outputs_give_label_2 Mock.externals (fst (Mock.fresh Mock.default_config))
           0 4 1 1 2).
  - reflexivity.
  - reflexivity.
Defined.

(** C5, as stated, fails: with all four channels as arrays, no test-time
    augmentation, the constant forward pass 0.6 and 0.3 and the threshold
    0.5, the call returns the label 2 at both voxels, not the label 1. *)
Lemma constant_scenario_yields_label_2 :
  exists seg,
    snd (@run_call Mock.externals Mock.arrays_call
           (Mock.fresh Mock.array_config)) =
      Ok (Some [(SEGMENTATION, seg)]) /\
    data seg = [2; 2]%Z /\
    ~ Forall (fun v => v = 1%Z) (data seg).
Proof.
  eexists. split.
  - cbn. pose proof sigmoid_margin_small as Hm.
    rewrite !binarize_sigmoid_above by lra. cbn. reflexivity.
  - cbn. split; [reflexivity|]. intros H. inversion H. discriminate.
Qed.

(** C4, as stated, fails: with all four channels as files, T1C among them,
    the segmentation written by the call carries the header of the T1 file,
    which is not the header of the T1C file. *)
Lemma reference_is_first_present_not_t1c :
  exists img,
    lookup_file
      (files (snd (fst (@run_call Mock.externals Mock.files_call
                          (Mock.fresh Mock.file_config)))))
      "out/seg.nii.gz" = Some (NiftiFile img) /\
    call_t1c Mock.files_call = Some (File "/data/t1c.nii.gz") /\
    lookup_file (files Mock.world) "/data/t1c.nii.gz"
      = Some (NiftiFile (Mock.scan 3 4 "t1c")) /\
    header img = Some "t1" /\
    header img <> header (Mock.scan 3 4 "t1c").
Proof.
  eexists. split; [cbn; reflexivity|].
  cbn. repeat split. discriminate.
Qed.

(** The mode of T1C alone, for which the mock world holds no archive. *)
Lemma get_model_missing_weights_witness :
  AuroraInferer._get_model Mock.resolved_t1c =
  (Mock.resolved_t1c, Raise (AttributeError "mode")).
Proof.
  apply (get_model_missing_weights Mock.resolved_t1c
           [None; Some (Arr (Mock.volume 3 4)); None; None] "t1c-o").
  - reflexivity.
  - reflexivity.
  - reflexivity.
Defined.

(** The same through [infer]: the call with T1C alone ends in the
    [AttributeError]. *)
Lemma missing_weights_end_to_end :
  snd (@run_call Mock.externals Mock.t1c_call (Mock.fresh Mock.file_config))
  = Raise (AttributeError "mode").
Proof. reflexivity. Qed.

(** The ensemble over the constant forward pass, on a batch of one channel
    and two voxels. *)
Lemma tta_ensemble_of_thirteen_witness :
  let inferer := AuroraInferer.make_inferer Mock.default_config CPU in
  let net := Mock.const_forward (Fin (6 / 10)) (Fin (3 / 10)) in
  exists out s',
    @AuroraInferer.raw_outputs Mock.externals Mock.default_config inferer
      Mock.batch Mock.loaded = (s', Ok out) /\
    @spec_ensemble Mock.externals inferer net (rng (snd Mock.loaded))
      Mock.batch = Ok out /\
    length (@spec_members Mock.externals inferer net (rng (snd Mock.loaded))
              Mock.batch) = 13 /\
    sw_calls (snd s') =
      sw_calls (snd Mock.loaded)
      ++ @spec_inputs Mock.externals (rng (snd Mock.loaded)) Mock.batch /\
    length (@spec_inputs Mock.externals (rng (snd Mock.loaded)) Mock.batch)
    = 13.
Proof.
  apply (@tta_ensemble_of_thirteen Mock.externals
           (AuroraInferer.make_inferer Mock.default_config CPU)
           (Mock.const_forward (Fin (6 / 10)) (Fin (3 / 10)))
           Mock.batch 1 1 1 1 2).
  - reflexivity.
  - intros g y. reflexivity.
  - intros y Hy. cbn. unfold Mock.const_forward. rewrite Hy. reflexivity.
  - reflexivity.
  - reflexivity.
Defined.

(** A call with T1 alone on a new inferer, then two calls with all four
    channels: the first and the second call load the archive of their mode
    and store its network, the third loads none and keeps the model. *)
Lemma model_reuse_between_calls_witness :
  (torch_loads (snd Mock.after_first) =
     torch_loads (snd (Mock.fresh Mock.file_config)) ++
     ["/weights/t1-o/best.tar"] /\
   exists net,
     archive_network (files (snd (Mock.fresh Mock.file_config)))
       "/weights/t1-o/best.tar" = Some net /\
     model (fst Mock.after_first) = Some net) /\
  (torch_loads (snd Mock.after_second) =
     torch_loads (snd Mock.after_first) ++
     ["/weights/t1-t1c-t2-fla/best.tar"] /\
   exists net,
     archive_network (files (snd Mock.after_first))
       "/weights/t1-t1c-t2-fla/best.tar" = Some net /\
     model (fst Mock.after_second) = Some net) /\
  model (fst Mock.after_third) = model (fst Mock.after_second) /\
  torch_loads (snd Mock.after_third) = torch_loads (snd Mock.after_second).
Proof.
  destruct (@model_reuse_between_calls Mock.externals Mock.t1_call
              Mock.arrays_call (Mock.fresh Mock.file_config) Mock.after_first
              Mock.after_second None None)
    as (m1 & m2 & Hm1 & Hm2 & _ & _ & _ & Hdiff & Hfirst).
  { unfold Mock.after_first.
    rewrite (surjective_pairing
               (@run_call Mock.externals Mock.t1_call
                  (Mock.fresh Mock.file_config))) at 1.
    f_equal. }
  { unfold Mock.after_second.
    rewrite (surjective_pairing
               (@run_call Mock.externals Mock.arrays_call Mock.after_first))
      at 1.
    f_equal. }
  destruct (@model_reuse_between_calls Mock.externals Mock.arrays_call
              Mock.arrays_call Mock.after_first Mock.after_second
              Mock.after_third None None)
    as (n1 & n2 & Hn1 & Hn2 & _ & _ & Hsame & _).
  { unfold Mock.after_second.
    rewrite (surjective_pairing
               (@run_call Mock.externals Mock.arrays_call Mock.after_first))
      at 1.
    f_equal. }
  { unfold Mock.after_third.
    rewrite (surjective_pairing
               (@run_call Mock.externals Mock.arrays_call Mock.after_second))
      at 1.
    f_equal. }
  cbv in Hm1, Hm2, Hn1, Hn2.
  injection Hm1 as <-. injection Hm2 as <-.
  injection Hn1 as <-. injection Hn2 as <-.
  assert (Hfolder : model_weights_folder (fst Mock.after_first) = "/weights")
    by reflexivity.
  assert (Hconfig : config (fst Mock.after_first) = Mock.file_config)
    by reflexivity.
  rewrite Hfolder, Hconfig in Hdiff.
  split; [apply Hfirst; discriminate|].
  split; [apply Hdiff; discriminate|].
  apply Hsame. reflexivity.
Defined.

(** C3, as stated, fails when a call raises.  After the call with T1
    alone, a call with all four channels and no destination raises before
    it resolves its mode and leaves the inferer as it was; the next call,
    with the same four channels, resolves the same mode as the call before
    it and yet loads an archive and replaces the model handle. *)
Lemma reload_after_failed_call_of_same_mode :
  @resolved_mode Mock.externals Cases.arrays_call_without_file =
  @resolved_mode Mock.externals Mock.arrays_call /\
  @run_call Mock.externals Cases.arrays_call_without_file Mock.after_first =
  (Mock.after_first,
   Raise (FileNotFoundError "[Errno 2] No such file or directory: ''")) /\
  snd (@run_call Mock.externals Mock.arrays_call Mock.after_first) = Ok None /\
  torch_loads (snd Mock.after_first) = ["/weights/t1-o/best.tar"] /\
  torch_loads (snd Mock.after_second) =
  ["/weights/t1-o/best.tar"; "/weights/t1-t1c-t2-fla/best.tar"] /\
  model (fst Mock.after_second) <> model (fst Mock.after_first).
Proof.
  do 5 (split; [reflexivity|]).
  intros H.
  assert (Hm : model (fst Mock.after_second) =
               Some (Mock.const_forward (Fin (6 / 10)) (Fin (3 / 10))))
    by reflexivity.
  assert (Hn : model (fst Mock.after_first) =
               Some (Mock.const_forward (Fin (6 / 10)) (Fin (- (3 / 10)))))
    by reflexivity.
  rewrite Hm, Hn in H. injection H as H.
  apply (f_equal (fun net => data (net (mk_ndarray [1; 1; 1; 1; 1] [Fin 0]))))
    in H.
  cbn in H. injection H as H. lra.
Qed.

(** The call with T1 alone as an array, in file output mode: what it adds
    to the file system has the identity as affine and no header, and it
    logs the warning. *)
Lemma numpy_inputs_identity_geometry_witness :
  grows_by (written_with np_eye4 None) (files Mock.world)
    (files (snd (fst (@run_call Mock.externals Mock.t1_call
                        (Mock.fresh Mock.file_config)))))
  /\ exists l,
       log_records (snd (fst (@run_call Mock.externals Mock.t1_call
                                (Mock.fresh Mock.file_config))))
       = log_records Mock.world ++ l
       /\ In numpy_warning l.
Proof.
  destruct (@numpy_inputs_identity_geometry Mock.externals
              (call_t1 Mock.t1_call) None None None
              (Some "out/t1/seg.nii.gz") None None
              (Mock.fresh Mock.file_config) I I I I) as [Hg Hw].
  split; [exact Hg|].
  apply (Hw eq_refl None). reflexivity.
Defined.

(** The same scenario evaluated: the call returns, the segmentation file
    exists and carries the identity and no header. *)
Lemma numpy_scenario_written_file :
  exists img,
    snd (@run_call Mock.externals Mock.t1_call (Mock.fresh Mock.file_config))
      = Ok None /\
    lookup_file
      (files (snd (fst (@run_call Mock.externals Mock.t1_call
                          (Mock.fresh Mock.file_config)))))
      "out/t1/seg.nii.gz" = Some (NiftiFile img) /\
    affine img = np_eye4 /\ header img = None.
Proof.
  eexists. split; [reflexivity|]. split; [cbn; reflexivity|].
  split; reflexivity.
Qed.

(** The loader of a validated call, and the replacement on its own. *)
Lemma nan_to_num_then_rescaling_witness :
  exists dl,
    AuroraInferer._get_data_loader Mock.resolved_t1c
      = (Mock.resolved_t1c, Ok dl) /\
    (exists pre,
       transforms dl =
         pre ++ [Lambdad_nan_to_num; ScaleIntensityRangePercentilesd;
                 ToTensord]
       /\ ~ In ScaleIntensityRangePercentilesd pre) /\
    nan_to_num PInf = Fin FLT_MAX.
Proof.
  eexists. split; [cbn; reflexivity|].
  destruct (@nan_to_num_then_rescaling Mock.externals Mock.resolved_t1c _ _
              eq_refl) as ((_ & Hinf & _) & Hpre & _).
  split; [exact Hpre | exact Hinf].
Defined.

(** The saving of a segmentation after the validation of four files: what
    is added carries the affine and the header of the T1 scan. *)
Lemma reference_channel_priority_witness :
  grows_by
    (written_with (affine (Mock.scan 1 2 "t1")) (header (Mock.scan 1 2 "t1")))
    (files Mock.world)
    (files (snd (fst (AuroraInferer._save_as_nifti
                        [(SEGMENTATION, nd_full [1; 1; 2] 2%Z)]
                        Mock.validated_files)))).
Proof.
  apply (reference_channel_priority Mock.validated_files
           [(SEGMENTATION, nd_full [1; 1; 2] 2%Z)]
           [Some (File "/data/t1.nii.gz"); Some (File "/data/t1c.nii.gz");
            Some (File "/data/t2.nii.gz"); Some (File "/data/fla.nii.gz")]
           "/data/t1.nii.gz"
           [File "/data/t1c.nii.gz"; File "/data/t2.nii.gz";
            File "/data/fla.nii.gz"]
           (Mock.scan 1 2 "t1")); reflexivity.
Defined.

(** Two worlds that differ in the entropy source and in the log. *)
Lemma infer_deterministic_without_tta_witness :
  let s1 := Mock.fresh Mock.array_config in
  let s2 := (fst s1, Mock.other_world) in
  snd (@run_call Mock.externals Mock.arrays_call s1)
    = snd (@run_call Mock.externals Mock.arrays_call s2) /\
  fst (fst (@run_call Mock.externals Mock.arrays_call s1))
    = fst (fst (@run_call Mock.externals Mock.arrays_call s2)) /\
  files (snd (fst (@run_call Mock.externals Mock.arrays_call s1)))
    = files (snd (fst (@run_call Mock.externals Mock.arrays_call s2))).
Proof.
  apply (@infer_deterministic_without_tta Mock.externals Mock.arrays_call
           (Mock.fresh Mock.array_config)
           (fst (Mock.fresh Mock.array_config), Mock.other_world));
    reflexivity.
Defined.

(** A path that the mock world does not hold. *)
Lemma validate_images_missing_file_witness :
  @AuroraInferer._validate_images Mock.externals
    (Some (File "/data/none.nii.gz")) None None None
    (Mock.fresh Mock.file_config) =
  (Mock.fresh Mock.file_config,
   Raise (FileNotFoundError "File /data/none.nii.gz not found")).
Proof.
  apply (@validate_images_missing_file Mock.externals "/data/none.nii.gz"
           None None None (Mock.fresh Mock.file_config)).
  reflexivity.
Defined.

(** T2 alone, which the example table does not list. *)
Lemma determine_inference_mode_unsupported_witness :
  snd (@AuroraInferer._determine_inference_mode Mock.externals
         [None; None; Some (Arr (Mock.volume 5 6)); None]
         (Mock.fresh Mock.file_config)) =
  Raise (NotImplementedError
           "No model implemented for this combination of images").
Proof.
  apply (@determine_inference_mode_unsupported Mock.externals None None
           (Some (Arr (Mock.volume 5 6))) None (Mock.fresh Mock.file_config)).
  reflexivity.
Defined.

(** Array output without the outputs of the two networks. *)
Lemma numpy_output_selection_witness :
  AuroraInferer.route_outputs Mock.array_config
    [(SEGMENTATION, nd_full [1; 1; 2] 2%Z);
     (WHOLE_NETWORK, nd_full [1; 1; 2] 1%Z);
     (METASTASIS_NETWORK, nd_full [1; 1; 2] 1%Z)]
    (Mock.fresh Mock.array_config) =
  (Mock.fresh Mock.array_config,
   Ok (Some [(SEGMENTATION, nd_full [1; 1; 2] 2%Z)])).
Proof.
  apply (numpy_output_selection Mock.array_config
           (nd_full [1; 1; 2] 2%Z) (nd_full [1; 1; 2] 1%Z)
           (nd_full [1; 1; 2] 1%Z) (Mock.fresh Mock.array_config)).
  reflexivity.
Defined.

(** The constants 0.6 and -0.3 on a batch of two voxels. *)
Lemma constant_outputs_give_label_1_witness :
  @AuroraInferer._post_process Mock.externals
    (fst (Mock.fresh Mock.default_config))
    (Mock.const_forward (Fin (6 / 10)) (Fin (- (3 / 10)))
       (mk_ndarray [1; 1; 1; 1; 2] [Fin 1; Fin 2])) =
  Ok [ (SEGMENTATION, nd_full [1; 1; 2] 1%Z);
       (WHOLE_NETWORK, nd_full [1; 1; 2] 1%Z);
       (METASTASIS_NETWORK, nd_full [1; 1; 2] 0%Z) ].
Proof.
  apply (constant_outputs_give_label_1
           (fst (Mock.fresh Mock.default_config)) 0 1 1 1 2
           (mk_ndarray [1; 1; 1; 1; 2] [Fin 1; Fin 2])
           (6 / 10) (- (3 / 10))).
  - reflexivity.
  - reflexivity.
  - unfold sigmoid_margin. lra.
  - unfold sigmoid_margin. lra.
Defined.

(** The older module, with T1C alone and the mock world. *)
Lemma legacy_get_model_missing_weights_witness :
  Legacy._get_model "/weights"
    {| Legacy.t1_file := None; Legacy.t1c_file := Some "/data/t1c.nii.gz";
       Legacy.t2_file := None; Legacy.fla_file := None;
       Legacy.mode := "t1c-o"; Legacy.model_selection := "best" |}
    Mock.world =
  (Mock.world, Raise (NameError "mode")).
Proof.
  apply (legacy_get_model_missing_weights "/weights"
           {| Legacy.t1_file := None;
              Legacy.t1c_file := Some "/data/t1c.nii.gz";
              Legacy.t2_file := None; Legacy.fla_file := None;
              Legacy.mode := "t1c-o"; Legacy.model_selection := "best" |}
           Mock.world).
  reflexivity.
Defined.

(** A segmentation file in the working directory. *)
Lemma infer_segmentation_file_without_directory_witness :
  @AuroraInferer.infer Mock.externals (Some (Arr (Mock.volume 1 2))) None
    None None (Some "seg.nii.gz") None None (Mock.fresh Mock.array_config) =
  (Mock.fresh Mock.array_config,
   Raise (FileNotFoundError "[Errno 2] No such file or directory: ''")).
Proof.
  apply (@infer_segmentation_file_without_directory Mock.externals
           (Some (Arr (Mock.volume 1 2))) None None None "seg.nii.gz" None
           None (Mock.fresh Mock.array_config)).
  - reflexivity.
  - discriminate.
Defined.

(** Raw outputs with one channel. *)
Lemma post_process_index_error_witness :
  @AuroraInferer._post_process Mock.externals (fst (Mock.fresh Mock.default_config))
    (mk_ndarray [1; 1; 1; 1; 2] [Fin 1; Fin 2]) = Raise IndexError.
Proof.
  apply (post_process_index_error (fst (Mock.fresh Mock.default_config))
           (mk_ndarray [1; 1; 1; 1; 2] [Fin 1; Fin 2])).
  intros b c sh H. discriminate H.
Defined.

(** Raw outputs with one batch element, two channels and two voxels. *)
Lemma post_process_volumes_witness :
  exists seg whole enh,
    @AuroraInferer._post_process Mock.externals (fst (Mock.fresh Mock.default_config))
      Cases.raw =
    Ok [ (SEGMENTATION, seg); (WHOLE_NETWORK, whole);
         (METASTASIS_NETWORK, enh) ] /\
    shape seg = [1; 1; 2] /\ shape whole = [1; 1; 2] /\
    shape enh = [1; 1; 2] /\
    nd_wf seg /\ nd_wf whole /\ nd_wf enh /\
    forall i, i < size_of [1; 1; 2] ->
      exists v0 v1,
        nth_error (data Cases.raw) i = Some v0 /\
        nth_error (data Cases.raw) (size_of [1; 1; 2] + i) = Some v1 /\
        nth_error (data whole) i =
          Some (@activated_bit Mock.externals (fst (Mock.fresh Mock.default_config)) v0) /\
        nth_error (data enh) i =
          Some (@activated_bit Mock.externals (fst (Mock.fresh Mock.default_config)) v1) /\
        nth_error (data seg) i =
          Some (if (@activated_bit Mock.externals (fst (Mock.fresh Mock.default_config)) v1
                    =? 1)%Z
                then 2%Z
                else @activated_bit Mock.externals (fst (Mock.fresh Mock.default_config)) v0).
Proof.
  apply (post_process_volumes (fst (Mock.fresh Mock.default_config))
           Cases.raw 0 0 [1; 1; 2]).
  - reflexivity.
  - cbn. lia.
  - exact eq_refl.
Defined.

(** The failed call with T1C alone after the call with T1 alone, and the
    same call again: it runs with the model of the call with T1 alone. *)
Lemma stale_model_after_failed_call_witness :
  model (fst Cases.after_failed) = model (fst Mock.after_first) /\
  (inference_mode (fst Cases.after_failed)
   = inference_mode (fst Mock.after_first) \/
   inference_mode (fst Cases.after_failed)
   = @resolved_mode Mock.externals Mock.t1c_call) /\
  model (fst Cases.after_retry) = model (fst Mock.after_first) /\
  torch_loads (snd Cases.after_retry) = torch_loads (snd Mock.after_first).
Proof.
  apply (@stale_model_after_failed_call Mock.externals Mock.t1c_call
           Mock.t1c_call Mock.after_first Cases.after_failed
           Cases.after_retry (AttributeError "mode") None).
  - unfold Cases.after_failed.
    rewrite (surjective_pairing
               (@run_call Mock.externals Mock.t1c_call Mock.after_first))
      at 1.
    f_equal.
  - transitivity ["/weights/t1-o/best.tar"]; reflexivity.
  - transitivity (Some "t1c-o"); reflexivity.
  - unfold Cases.after_retry.
    rewrite (surjective_pairing
               (@run_call Mock.externals Mock.t1c_call Cases.after_failed))
      at 1.
    f_equal.
Defined.

(** In that scenario the failed call has replaced the recorded mode. *)
Lemma failed_call_records_mode :
  inference_mode (fst Mock.after_first) = Some "t1-o" /\
  inference_mode (fst Cases.after_failed) = Some "t1c-o" /\
  snd (@run_call Mock.externals Mock.t1c_call Cases.after_failed) = Ok None.
Proof. repeat split. Qed.

(** All four channels as arrays, in array output mode. *)
Lemma array_output_writes_no_volume_witness :
  grows_by not_a_volume (files Mock.world)
    (files (snd (fst (@run_call Mock.externals Mock.arrays_call
                        (Mock.fresh Mock.array_config))))).
Proof.
  apply (@array_output_writes_no_volume Mock.externals
           (call_t1 Mock.arrays_call) (call_t1c Mock.arrays_call)
           (call_t2 Mock.arrays_call) (call_fla Mock.arrays_call)
           (Some "out/seg.nii.gz") None None (Mock.fresh Mock.array_config)).
  reflexivity.
Defined.

(** The same call: it returns the segmentation alone. *)
Lemma infer_return_value_witness :
  exists r,
    snd (@run_call Mock.externals Mock.arrays_call
           (Mock.fresh Mock.array_config)) = Ok r /\
    returned Mock.array_config r.
Proof.
  eexists. split.
  - cbn. reflexivity.
  - apply (@infer_return_value Mock.externals
             (call_t1 Mock.arrays_call) (call_t1c Mock.arrays_call)
             (call_t2 Mock.arrays_call) (call_fla Mock.arrays_call)
             (Some "out/seg.nii.gz") None None
             (Mock.fresh Mock.array_config)).
    cbn. reflexivity.
Defined.

(** All four channels as arrays, with test-time augmentation. *)
Lemma infer_forward_passes_witness :
  length (sw_calls (snd (fst (@run_call Mock.externals Mock.arrays_call
                                (Mock.fresh Mock.default_config))))) =
  length (sw_calls (snd (Mock.fresh Mock.default_config))) + 13.
Proof.
  unfold run_call.
  apply (@infer_forward_passes Mock.externals
           (call_t1 Mock.arrays_call) (call_t1c Mock.arrays_call)
           (call_t2 Mock.arrays_call) (call_fla Mock.arrays_call)
           (call_segmentation_file Mock.arrays_call)
           (call_whole_network_file Mock.arrays_call)
           (call_metastasis_network_file Mock.arrays_call)
           (Mock.fresh Mock.default_config) _ None).
  rewrite (surjective_pairing
             (@AuroraInferer.infer Mock.externals
                (call_t1 Mock.arrays_call) (call_t1c Mock.arrays_call)
                (call_t2 Mock.arrays_call) (call_fla Mock.arrays_call)
                (call_segmentation_file Mock.arrays_call)
                (call_whole_network_file Mock.arrays_call)
                (call_metastasis_network_file Mock.arrays_call)
                (Mock.fresh Mock.default_config))) at 1.
  f_equal.
Defined.

(** The call with T1 alone as an array, in file output mode. *)
Lemma infer_writes_segmentation_witness :
  exists img d,
    lookup_file
      (files (snd (fst (@run_call Mock.externals Mock.t1_call
                          (Mock.fresh Mock.file_config)))))
      "out/t1/seg.nii.gz" = Some (NiftiFile img) /\
    dataobj img = UInt8 d /\ Forall is_label (data d).
Proof.
  unfold run_call.
  apply (@infer_writes_segmentation Mock.externals
           (call_t1 Mock.t1_call) (call_t1c Mock.t1_call)
           (call_t2 Mock.t1_call) (call_fla Mock.t1_call)
           "out/t1/seg.nii.gz"
           (call_whole_network_file Mock.t1_call)
           (call_metastasis_network_file Mock.t1_call)
           (Mock.fresh Mock.file_config) _ None).
  - reflexivity.
  - discriminate.
  - rewrite (surjective_pairing
               (@AuroraInferer.infer Mock.externals
                  (call_t1 Mock.t1_call) (call_t1c Mock.t1_call)
                  (call_t2 Mock.t1_call) (call_fla Mock.t1_call)
                  (Some "out/t1/seg.nii.gz")
                  (call_whole_network_file Mock.t1_call)
                  (call_metastasis_network_file Mock.t1_call)
                  (Mock.fresh Mock.file_config))) at 1.
    f_equal.
Defined.

(** The call with a destination in the working directory for the
    whole-lesion mask. *)
Lemma infer_network_file_without_directory_witness :
  exists e,
    snd (@run_call Mock.externals Cases.masks_call
           (Mock.fresh Mock.file_config)) = Raise e.
Proof.
  apply (@infer_network_file_without_directory Mock.externals
           (call_t1 Cases.masks_call) None None None
           (Some "out/t1/seg.nii.gz") (Some "whole.nii.gz") None
           "whole.nii.gz" (Mock.fresh Mock.file_config)).
  - reflexivity.
  - left. reflexivity.
  - discriminate.
  - reflexivity.
Defined.

(** In that scenario the segmentation is written before the call ends in
    the [FileNotFoundError]. *)
Lemma network_file_scenario :
  snd (@run_call Mock.externals Cases.masks_call
         (Mock.fresh Mock.file_config)) =
    Raise (FileNotFoundError "[Errno 2] No such file or directory: ''") /\
  exists img,
    lookup_file
      (files (snd (fst (@run_call Mock.externals Cases.masks_call
                          (Mock.fresh Mock.file_config)))))
      "out/t1/seg.nii.gz" = Some (NiftiFile img).
Proof. split; [reflexivity|]. eexists. cbn. reflexivity. Qed.

(** The four arrays of the scenarios. *)
Lemma validate_images_accepts_witness :
  exists msg,
    @AuroraInferer._validate_images Mock.externals
      (Some (Arr (Mock.volume 1 2))) (Some (Arr (Mock.volume 3 4)))
      (Some (Arr (Mock.volume 5 6))) (Some (Arr (Mock.volume 7 8)))
      (Mock.fresh Mock.array_config) =
    ((set_input_mode (Some NUMPY) (fst (Mock.fresh Mock.array_config)),
      with_log_records (snd (Mock.fresh Mock.array_config))
        (log_records (snd (Mock.fresh Mock.array_config)) ++ [(INFO, msg)])),
     Ok (map (@validated Mock.externals)
           [Some (Arr (Mock.volume 1 2)); Some (Arr (Mock.volume 3 4));
            Some (Arr (Mock.volume 5 6)); Some (Arr (Mock.volume 7 8))])).
Proof.
  apply (@validate_images_accepts Mock.externals
           (Some (Arr (Mock.volume 1 2))) (Some (Arr (Mock.volume 3 4)))
           (Some (Arr (Mock.volume 5 6))) (Some (Arr (Mock.volume 7 8)))
           NUMPY (Mock.fresh Mock.array_config)).
  - repeat constructor.
  - repeat constructor.
  - discriminate.
Defined.

(** An array as T1 and a scan of the mock world as T1C. *)
Lemma validate_images_mixed_types_witness :
  snd (@AuroraInferer._validate_images Mock.externals
         (Some (Arr (Mock.volume 1 2))) (Some (File "/data/t1c.nii.gz"))
         None None (Mock.fresh Mock.file_config)) =
    Raise (AssertionError "All passed images must be of the same type!") /\
  snd (fst (@AuroraInferer._validate_images Mock.externals
              (Some (Arr (Mock.volume 1 2)))
              (Some (File "/data/t1c.nii.gz")) None None
              (Mock.fresh Mock.file_config))) =
    snd (Mock.fresh Mock.file_config).
Proof.
  apply (@validate_images_mixed_types Mock.externals
           (Some (Arr (Mock.volume 1 2))) (Some (File "/data/t1c.nii.gz"))
           None None (Mock.volume 1 2) "/data/t1c.nii.gz"
           (Mock.fresh Mock.file_config)).
  - repeat constructor. cbn. discriminate.
  - left. reflexivity.
  - right. left. reflexivity.
Defined.

(** A weights archive of the mock world given as an image. *)
Lemma validate_images_wrong_extension_witness :
  @AuroraInferer._validate_images Mock.externals
    (Some (File "/weights/t1-o/best.tar")) None None None
    (Mock.fresh Mock.file_config) =
  (Mock.fresh Mock.file_config,
   Raise (ValueError
            "File /weights/t1-o/best.tar must be a nifti file with extension .nii or .nii.gz")).
Proof.
  apply (@validate_images_wrong_extension Mock.externals
           "/weights/t1-o/best.tar" None None None
           (Mock.fresh Mock.file_config)).
  - cbn. discriminate.
  - reflexivity.
Defined.

(** The four arrays of the scenarios, validated. *)
Lemma batch_of_arrays_witness :
  exists dl,
    AuroraInferer._get_data_loader Cases.validated_arrays
      = (Cases.validated_arrays, Ok dl) /\
    transforms dl =
      [Lambdad_nan_to_num; ScaleIntensityRangePercentilesd; ToTensord] /\
    @AuroraInferer.next_batch Mock.externals dl Cases.validated_arrays =
    (Cases.validated_arrays,
     Ok (expand_dims0
           (@ScaleIntensityRangePercentiles Mock.externals
              (nd_map nan_to_num
                 (mk_ndarray (length Cases.arrays :: [1; 1; 2])
                    (concat (map (@data float) Cases.arrays))))))).
Proof.
  apply (@batch_of_arrays Mock.externals Cases.validated_arrays
           (map (fun a => Some (Arr a)) Cases.arrays) Cases.arrays
           [1; 1; 2]).
  - reflexivity.
  - reflexivity.
  - reflexivity.
  - cbn. lia.
  - repeat constructor.
Defined.

(** Two texts written to an object with the streams 0 and 1. *)
Lemma dual_write_tees_witness :
  exists io',
    for_each ["a"; "b"]
      (fun text (_ : unit) => DualStdErrOutput.write text) tt
      (DualStdErrOutput.__init__ 0 (Some 1), Cases.streams)
      = ((DualStdErrOutput.__init__ 0 (Some 1), io'), Ok tt) /\
    DualStdErrOutput.closed io' = DualStdErrOutput.closed Cases.streams /\
    DualStdErrOutput.flushes io' = DualStdErrOutput.flushes Cases.streams /\
    forall k, DualStdErrOutput.written io' k =
              DualStdErrOutput.written Cases.streams k
              ++ tee 0 (Some 1) k ["a"; "b"].
Proof.
  apply (dual_write_tees (DualStdErrOutput.__init__ 0 (Some 1))
           Cases.streams ["a"; "b"]).
  - reflexivity.
  - intros f _. reflexivity.
Defined.

(** All four channels as arrays, without test-time augmentation. *)
Lemma infer_draws_nothing_without_tta_witness :
  rng (snd (fst (@run_call Mock.externals Mock.arrays_call
                   (Mock.fresh Mock.array_config)))) =
  rng (snd (Mock.fresh Mock.array_config)).
Proof.
  apply (@infer_draws_nothing_without_tta Mock.externals
           (call_t1 Mock.arrays_call) (call_t1c Mock.arrays_call)
           (call_t2 Mock.arrays_call) (call_fla Mock.arrays_call)
           (call_segmentation_file Mock.arrays_call)
           (call_whole_network_file Mock.arrays_call)
           (call_metastasis_network_file Mock.arrays_call)
           (Mock.fresh Mock.array_config)).
  reflexivity.
Defined.

(** With test-time augmentation the same call draws. *)
Lemma tta_scenario_draws :
  rng (snd (fst (@run_call Mock.externals Mock.arrays_call
                   (Mock.fresh Mock.default_config)))) = 4%N.
Proof. reflexivity. Qed.
